(** * PokerSim: the hand-history pipeline of [process_poker_data.py]

    A shallow embedding of the batch script that parses [.phhs] hand
    histories, loads them into three SQLite tables, aggregates per-player
    counts with one SQL query and derives the percentage columns that are
    fed to the clustering step.

    Conventions.
    - Python [str] values are modelled as [string], one [ascii] per
      character: a character is a code point below 256 (ISO 8859-1, which
      has ASCII as its lower half and NUL as code point 0).  Text with
      other characters is outside the model.
    - A Python [dict] is a [gmap string _]; a [list] is a [list].
    - A raised exception is the [Raise] result; statements that run before
      the exception keep their effect on the connection state.
    - The three tables are the fields of [db]; [hands] has a primary key and
      is a finite map, the other two are lists in insertion (rowid) order. *)

From Stdlib Require Import QArith Ascii.
From Stdlib Require String.
From stdpp Require Import gmap strings list.

Open Scope Z_scope.

(** ** Python string methods used by the script *)

Module Py.

(** [str.isspace] on the code points below 256: TAB..CR, FS..US, the
    space, NEL (U+0085) and the no-break space (U+00A0). *)
Definition isspace (c : ascii) : bool :=
  match c with
  | "009" | "010" | "011" | "012" | "013"
  | "028" | "029" | "030" | "031" | " "
  | "133" | "160" => true
  | _ => false
  end%char.

Fixpoint lstrip_with (p : ascii → bool) (s : string) : string :=
  match s with
  | "" => ""
  | String c s' => if p c then lstrip_with p s' else s
  end.

Definition strip_with (p : ascii → bool) (s : string) : string :=
  String.rev (lstrip_with p (String.rev (lstrip_with p s))).

(** [s.strip()] *)
Definition strip (s : string) : string := strip_with isspace s.

Fixpoint mem_char (c : ascii) (chars : string) : bool :=
  match chars with
  | "" => false
  | String d chars' => Ascii.eqb c d || mem_char c chars'
  end.

(** [s.strip(chars)]: [chars] is a set of characters, not a substring. *)
Definition strip_chars (chars s : string) : string :=
  strip_with (λ c, mem_char c chars) s.

(** [s.startswith(p)] *)
Definition startswith (p s : string) : bool := String.prefix p s.

(** [s.split(c, 1)] for a one-character separator, followed by the
    unpacking [key, value = ...]: [None] when [c] does not occur (the
    one-element list cannot be unpacked into two names). *)
Fixpoint split_once (c : ascii) (s : string) : option (string * string) :=
  match s with
  | "" => None
  | String a s' =>
      if Ascii.eqb a c then Some ("", s')
      else
        match split_once c s' with
        | Some (k, v) => Some (String a k, v)
        | None => None
        end
  end.

(** [s.split(sep)] for a non-empty [sep]: left-to-right, non-overlapping
    occurrences.  [skip] counts the characters of a matched separator that
    are still to be dropped; [cur] is the current piece, reversed. *)
Fixpoint split_go (sep : string) (skip : nat) (cur : string) (s : string)
  : list string :=
  match s with
  | "" => [String.rev cur]
  | String a s' =>
      match skip with
      | S k => split_go sep k cur s'
      | O =>
          if String.prefix sep s
          then String.rev cur :: split_go sep (String.length sep - 1) "" s'
          else split_go sep 0 (String a cur) s'
      end
  end.

Definition split (sep s : string) : list string := split_go sep 0 "" s.

End Py.

(** ** Values, exceptions and results *)

(** A Python [float]: a finite value (as the rational it denotes), an
    infinity or a NaN. *)
Inductive float :=
  | Fin (q : Q)
  | Inf (negative : bool)
  | NaN.

(** The exceptions the script can raise; none of them is caught. *)
Inductive exn :=
  | KeyError (key : string)
  | ValueError
  | IndexError
  | TypeError
  | IntegrityError.

Inductive result (A : Type) :=
  | Ok (a : A)
  | Raise (e : exn).
Arguments Ok {A} a.
Arguments Raise {A} e.

Definition rbind {A B} (r : result A) (k : A → result B) : result B :=
  match r with
  | Ok a => k a
  | Raise e => Raise e
  end.

Declare Scope result_scope.
Delimit Scope result_scope with result.
Notation "'try' x <- r ; k" := (rbind r (λ x, k))
  (at level 100, x name, r at next level, k at level 200,
   right associativity) : result_scope.

Fixpoint rmap {A B} (f : A → result B) (l : list A) : result (list B) :=
  match l with
  | [] => Ok []
  | x :: l' =>
      (try y <- f x; try ys <- rmap f l'; Ok (y :: ys))%result
  end.

Definition of_option {A} (e : exn) (o : option A) : result A :=
  match o with
  | Some a => Ok a
  | None => Raise e
  end.

(** The library conversions the script calls.  They are kept abstract: every
    general theorem below holds whatever they return.
    - [py_float s] is [float(s)], [None] standing for [ValueError];
    - [py_int s] is [int(s)], [None] standing for [ValueError];
    - [sql_rowid s] is SQLite's coercion of a text parameter bound to an
      [INTEGER PRIMARY KEY] column, [None] standing for the "datatype
      mismatch" error. *)
Class Conversions := {
  py_float : string → option float;
  py_int : string → option Z;
  sql_rowid : string → option Z;
}.

(** ** The raw hand record *)

(** A field of a parsed record: a scalar string, a list of strings
    ([players], [actions]) or a list of floats ([starting_stacks],
    [winnings]). *)
Inductive value :=
  | VStr (s : string)
  | VStrs (l : list string)
  | VFloats (l : list float).

(** [current_hand]: a dict from field name to field value. *)
Abbreviation raw_hand := (gmap string value).

(** ** [parse_poker_file] *)

Section parser.
Context `{Conversions}.

Definition scalar_keys : list string :=
  ["variant"; "venue"; "table"; "day"; "month"; "year"; "hand"].

Definition str_list (v : string) : list string :=
  Py.split ", " (Py.strip_chars "[]" v).

Definition float_list (v : string) : result (list float) :=
  rmap (λ s, of_option ValueError (py_float s)) (str_list v).

(** The [if key in [...] ... elif ...] chain of the loop body. *)
Definition parse_field (key v : string) (current_hand : raw_hand)
  : result raw_hand :=
  if bool_decide (key ∈ scalar_keys) then
    Ok (<[key := VStr v]> current_hand)
  else if bool_decide (key = "players") then
    Ok (<["players" := VStrs (str_list v)]> current_hand)
  else if bool_decide (key = "starting_stacks") then
    (try l <- float_list v;
     Ok (<["starting_stacks" := VFloats l]> current_hand))%result
  else if bool_decide (key = "winnings") then
    (try l <- float_list v;
     Ok (<["winnings" := VFloats l]> current_hand))%result
  else if bool_decide (key = "actions") then
    Ok (<["actions" := VStrs (str_list v)]> current_hand)
  else Ok current_hand.

(** Truthiness of a dict: non-empty. *)
Definition truthy (d : raw_hand) : bool := negb (bool_decide (size d = 0%nat)).

(** One iteration of [for line in file], on the pair
    [(hand_data, current_hand)]. *)
Definition parse_line (st : list raw_hand * raw_hand) (line : string)
  : result (list raw_hand * raw_hand) :=
  let '(hand_data, current_hand) := st in
  let line := Py.strip line in
  if bool_decide (line = "") then Ok st
  else if Py.startswith "[" line then
    Ok (if truthy current_hand then hand_data ++ [current_hand]
        else hand_data, ∅)
  else
    match Py.split_once "=" line with
    | None => Raise ValueError
    | Some (key, v) =>
        (try current_hand' <- parse_field (Py.strip key) (Py.strip v)
                                current_hand;
         Ok (hand_data, current_hand'))%result
    end.

Fixpoint parse_lines (st : list raw_hand * raw_hand) (file : list string)
  : result (list raw_hand * raw_hand) :=
  match file with
  | [] => Ok st
  | line :: file' =>
      (try st' <- parse_line st line; parse_lines st' file')%result
  end.

(** [parse_poker_file]: the file is the list of its lines. *)
Definition parse_poker_file (file : list string) : result (list raw_hand) :=
  (try st <- parse_lines ([], ∅) file;
   let '(hand_data, current_hand) := st in
   Ok (if truthy current_hand then hand_data ++ [current_hand]
       else hand_data))%result.

End parser.

(** ** The store *)

(** A row of [hands] without its key.  The texts are kept as they were
    bound; no statement of the script reads these columns back. *)
Record hand_row := {
  h_variant : string;
  h_venue : string;
  h_table_name : string;
  h_day : string;
  h_month : string;
  h_year : string;
}.

(** A row of [players].  The two [REAL] columns hold a [float]; SQLite
    stores a bound NaN as NULL, so [NaN] in a stored row reads as NULL. *)
Record seat_row := {
  p_hand_id : Z;
  p_player_id : string;
  p_seat : Z;
  p_starting_stack : float;
  p_winnings : float;
}.

(** A row of [actions]. *)
Record action_row := {
  a_hand_id : Z;
  a_action : string;
}.

(** The three tables.  [hands.hand_id] is the primary key; the other two
    tables have no key and keep their rows in insertion order. *)
Record db := {
  hands : gmap Z hand_row;
  players : list seat_row;
  actions : list action_row;
}.

(** [DELETE FROM hands; DELETE FROM players; DELETE FROM actions;] *)
Definition clear (d : db) : db :=
  {| hands := ∅; players := []; actions := [] |}.

(** ** Statements on the connection *)

(** A statement sequence: it transforms the connection state and either
    returns or raises; the state reached when it raises is kept. *)
Definition M (A : Type) : Type := db → db * result A.

Definition mret {A} (a : A) : M A := λ d, (d, Ok a).

Definition mbind {A B} (m : M A) (k : A → M B) : M B :=
  λ d, match m d with
       | (d', Ok a) => k a d'
       | (d', Raise e) => (d', Raise e)
       end.

Definition lift {A} (r : result A) : M A := λ d, (d, r).

Definition modify (f : db → db) : M unit := λ d, (f d, Ok ()).

Declare Scope stmt_scope.
Delimit Scope stmt_scope with stmt.
Notation "'do' x <- m ; k" := (mbind m (λ x, k))
  (at level 100, x name, m at next level, k at level 200,
   right associativity) : stmt_scope.
Notation "m ;; k" := (mbind m (λ _, k))
  (at level 100, k at level 200, right associativity) : stmt_scope.

(** [for x in l: body(x)] *)
Fixpoint for_each {A} (body : A → M unit) (l : list A) : M unit :=
  match l with
  | [] => mret ()
  | x :: l' => (body x ;; for_each body l')%stmt
  end.

(** ** The ingestion loop *)

(** An element of [winnings_list]: a parsed [float], or the [int] zero of the
    default list. *)
Inductive pynum :=
  | PyInt (z : Z)
  | PyFloat (x : float).

(** The value a [REAL] column stores for a bound number: an integer is
    converted to the real of the same value. *)
Definition to_real (n : pynum) : float :=
  match n with
  | PyInt z => Fin (inject_Z z)
  | PyFloat x => x
  end.

Section ingestion.
Context `{Conversions}.

(** [hand[key]] *)
Definition getitem (hand : raw_hand) (key : string) : result value :=
  of_option (KeyError key) (hand !! key).

(** The parser stores a string under the scalar keys, a list of strings
    under [players] and [actions] and a list of floats under
    [starting_stacks] and [winnings] (see [parse_poker_file_typed]); the
    [TypeError] branches below are not reached by a parsed record. *)
Definition get_str (hand : raw_hand) (key : string) : result string :=
  (try v <- getitem hand key;
   match v with VStr s => Ok s | _ => Raise TypeError end)%result.

Definition get_strs (hand : raw_hand) (key : string) : result (list string) :=
  (try v <- getitem hand key;
   match v with VStrs l => Ok l | _ => Raise TypeError end)%result.

Definition get_floats (hand : raw_hand) (key : string) : result (list float) :=
  (try v <- getitem hand key;
   match v with VFloats l => Ok l | _ => Raise TypeError end)%result.

(** [l[i]] for [0 <= i] *)
Definition index {A} (l : list A) (i : nat) : result A :=
  of_option IndexError (l !! i).

(** [INSERT OR IGNORE INTO hands VALUES (?, ...)]: a text that is not an
    integer is a datatype mismatch; an identifier already present leaves the
    table as it is.  Returns the integer the identifier was coerced to. *)
Definition insert_hand (hand_id : string) (row : hand_row) : M Z :=
  λ d, match sql_rowid hand_id with
       | None => (d, Raise IntegrityError)
       | Some id =>
           (match hands d !! id with
            | Some _ => d
            | None => {| hands := <[id := row]> (hands d);
                         players := players d;
                         actions := actions d |}
            end, Ok id)
       end.

(** [INSERT OR IGNORE INTO players VALUES (?, ?, ?, ?, ?)]: the table has no
    key, so the row is always appended. *)
Definition insert_player (row : seat_row) : M unit :=
  modify (λ d, {| hands := hands d;
                  players := players d ++ [row];
                  actions := actions d |}).

(** [INSERT INTO actions (hand_id, action) VALUES (?, ?)] *)
Definition insert_action (row : action_row) : M unit :=
  modify (λ d, {| hands := hands d;
                  players := players d;
                  actions := actions d ++ [row] |}).

(** [hand.get("winnings", [0] * len(hand["players"]))]: the default is
    evaluated before the call, so a missing [players] raises first. *)
Definition winnings_list (hand : raw_hand) : result (list pynum) :=
  (try ps <- get_strs hand "players";
   match hand !! "winnings" with
   | None => Ok (replicate (length ps) (PyInt 0))
   | Some (VFloats l) => Ok (PyFloat <$> l)
   | Some _ => Raise TypeError
   end)%result.

(** The body of [for i, player in enumerate(hand["players"])]; [id] is the
    integer that the INTEGER affinity of [players.hand_id] gives the bound
    [hand["hand"]], the same as in [insert_hand]. *)
Definition seat_body (hand : raw_hand) (id : Z) (wl : list pynum)
    (ip : nat * string) : M unit :=
  let '(i, player) := ip in
  (do stacks <- lift (get_floats hand "starting_stacks");
   do stack <- lift (index stacks i);
   do w <- lift (index wl i);
   insert_player {| p_hand_id := id;
                    p_player_id := Py.strip_chars "'" player;
                    p_seat := Z.of_nat i + 1;
                    p_starting_stack := stack;
                    p_winnings := to_real w |})%stmt.

(** The body of [for action in hand["actions"]]. *)
Definition action_body (hand_id : string) (action : string) : M unit :=
  (do id <- lift (of_option ValueError (py_int hand_id));
   insert_action {| a_hand_id := id; a_action := action |})%stmt.

(** [enumerate(l)] *)
Definition enumerate {A} (l : list A) : list (nat * A) :=
  zip (seq 0 (length l)) l.

(** The body of [for hand in hands]. *)
Definition ingest_hand (hand : raw_hand) : M unit :=
  (do hand_id <- lift (get_str hand "hand");
   do variant <- lift (get_str hand "variant");
   do venue <- lift (get_str hand "venue");
   do table <- lift (get_str hand "table");
   do day <- lift (get_str hand "day");
   do month <- lift (get_str hand "month");
   do year <- lift (get_str hand "year");
   do id <- insert_hand hand_id
              {| h_variant := variant; h_venue := venue;
                 h_table_name := table; h_day := day;
                 h_month := month; h_year := year |};
   do wl <- lift (winnings_list hand);
   do ps <- lift (get_strs hand "players");
   for_each (seat_body hand id wl) (enumerate ps) ;;
   do acts <- lift (get_strs hand "actions");
   for_each (action_body hand_id) acts)%stmt.

(** The body of [for file in phhs_files]. *)
Definition ingest_file (file : list string) : M unit :=
  (do hs <- lift (parse_poker_file file);
   for_each ingest_hand hs)%stmt.

(** The load phase of the script: the tables are cleared and the deletion
    committed, every file is ingested, and the inserts are committed at the
    end.  An exception ends the script before that commit, so the stored
    tables stay as the deletion left them. *)
Definition refresh (files : list (list string)) (stored : db)
  : db * result unit :=
  let cleared := clear stored in
  match for_each ingest_file files cleared with
  | (d, Ok _) => (d, Ok ())
  | (_, Raise e) => (cleared, Raise e)
  end.

End ingestion.

(** ** The metrics query *)

Module Sql.

(** ASCII lower case, as SQLite's [LIKE] folds it. *)
Definition lower (c : ascii) : ascii :=
  let n := N_of_ascii c in
  if ((65 <=? n) && (n <=? 90))%N then ascii_of_N (n + 32) else c.

(** The text function arguments are read as C strings: a text value ends
    at its first NUL. *)
Fixpoint c_text (s : string) : string :=
  match s with
  | "" => ""
  | String c s' => if Ascii.eqb c "000" then "" else String c (c_text s')
  end.

(** The comparison of a pattern with a text, with SQLite's defaults: [%]
    matches any run of characters, [_] any single one, every other
    character itself up to ASCII case. *)
Fixpoint pattern_compare (pat s : string) : bool :=
  match pat with
  | "" => match s with "" => true | _ => false end
  | String "%" pat' =>
      (fix any (s : string) : bool :=
         pattern_compare pat' s
         || match s with "" => false | String _ s' => any s' end) s
  | String "_" pat' =>
      match s with "" => false | String _ s' => pattern_compare pat' s' end
  | String c pat' =>
      match s with
      | "" => false
      | String d s' => Ascii.eqb (lower c) (lower d) && pattern_compare pat' s'
      end
  end.

(** [s LIKE pat] on two text values: both are compared up to their first
    NUL. *)
Definition like (pat s : string) : bool :=
  pattern_compare (c_text pat) (c_text s).

(** The BINARY collation on text: code point by code point, a proper
    prefix first. *)
Fixpoint binary_lt (s t : string) : bool :=
  match s, t with
  | _, "" => false
  | "", String _ _ => true
  | String a s', String b t' =>
      (N_of_ascii a <? N_of_ascii b)%N
      || ((N_of_ascii a =? N_of_ascii b)%N && binary_lt s' t')
  end.

(** [COUNT(DISTINCT x)] over the non-NULL values [l]. *)
Definition count_distinct (l : list Z) : Z :=
  Z.of_nat (length (remove_dups l)).

(** [COUNT(x)] over the non-NULL values [l]. *)
Definition count {A} (l : list A) : Z := Z.of_nat (length l).

End Sql.

(** Round-to-nearest of a rational to binary64, for the magnitudes that
    occur here (counts and percentages, far from overflow).  Only what the
    bounds below need is assumed of it: it is monotone and leaves 0, 1 and
    100 unchanged. *)
Class Binary64 := {
  rnd : Q → Q;
  rnd_mono : ∀ x y : Q, (x <= y)%Q → (rnd x <= rnd y)%Q;
  rnd_0 : (rnd 0 == 0)%Q;
  rnd_1 : (rnd 1 == 1)%Q;
  rnd_100 : (rnd 100 == 100)%Q;
}.

Section query.
Context `{Binary64}.

(** [FROM players p LEFT JOIN actions a ON p.hand_id = a.hand_id]: a seat
    without a matching action row is kept once, with a NULL action side. *)
Definition left_join (d : db) : list (seat_row * option action_row) :=
  p ← players d;
  match filter (λ a, p_hand_id p = a_hand_id a) (actions d) with
  | [] => [(p, None)]
  | matches => (λ a, (p, Some a)) <$> matches
  end.

(** [WHERE a.action IS NOT NULL]: a stored action is a Python [str], never
    NULL, so exactly the NULL-extended rows of the join are dropped. *)
Definition where_clause (rows : list (seat_row * option action_row))
  : list (seat_row * action_row) :=
  omap (λ r, match r.2 with Some a => Some (r.1, a) | None => None end) rows.

Definition joined (d : db) : list (seat_row * action_row) :=
  where_clause (left_join d).

(** [GROUP BY p.player_id] *)
Definition group_keys (rows : list (seat_row * action_row)) : list string :=
  remove_dups ((λ r, p_player_id r.1) <$> rows).

Definition group (rows : list (seat_row * action_row)) (key : string)
  : list (seat_row * action_row) :=
  filter (λ r, p_player_id r.1 = key) rows.

(** The [CASE WHEN ... LIKE ...] conditions of the select list. *)
Definition is_vpip (action : string) : bool :=
  Sql.like "% cc%" action || Sql.like "% limp%" action
  || Sql.like "% cbr%" action || Sql.like "% all-in%" action.

Definition is_pfr (action : string) : bool :=
  Sql.like "% all-in%" action || Sql.like "% raise%" action
  || Sql.like "% bet%" action.

Definition is_aggressive (action : string) : bool :=
  Sql.like "% cbr%" action || Sql.like "% bet%" action
  || Sql.like "% raise%" action || Sql.like "% all-in%" action.

Definition is_passive (action : string) : bool :=
  Sql.like "% f%" action || Sql.like "% limp%" action
  || Sql.like "% cc%" action.

(** [p.winnings > 0]; false on NULL. *)
Definition won (p : seat_row) : bool :=
  match p_winnings p with
  | Fin q => match (0 ?= q)%Q with Lt => true | _ => false end
  | Inf negative => negb negative
  | NaN => false
  end.

(** [CASE WHEN cond THEN p.hand_id END] over the rows of a group: the
    non-NULL values of the expression. *)
Definition hand_ids_when (cond : seat_row * action_row → bool)
    (g : list (seat_row * action_row)) : list Z :=
  (λ r, p_hand_id r.1) <$> filter (λ r, cond r) g.

Definition total_hands_of (g : list (seat_row * action_row)) : Z :=
  Sql.count_distinct (hand_ids_when (λ _, true) g).

Definition vpip_hands_of (g : list (seat_row * action_row)) : Z :=
  Sql.count_distinct (hand_ids_when (λ r, is_vpip (a_action r.2)) g).

Definition pfr_hands_of (g : list (seat_row * action_row)) : Z :=
  Sql.count_distinct (hand_ids_when (λ r, is_pfr (a_action r.2)) g).

Definition aggressive_actions_of (g : list (seat_row * action_row)) : Z :=
  Sql.count (filter (λ r, is_aggressive (a_action r.2)) g).

Definition passive_actions_of (g : list (seat_row * action_row)) : Z :=
  Sql.count (filter (λ r, is_passive (a_action r.2)) g).

(** The numerator of the showdown percentage. *)
Definition showdown_wins_of (g : list (seat_row * action_row)) : Z :=
  Sql.count_distinct (hand_ids_when (λ r, won r.1) g).

(** [n * 100.0 / NULLIF(t, 0)] in SQLite's REAL arithmetic; a NULL result is
    read by pandas as NaN. *)
Definition percent_of (n t : Z) : float :=
  if bool_decide (t = 0) then NaN
  else Fin (rnd (rnd (rnd (inject_Z n) * 100) / rnd (inject_Z t))).

(** A row of the query result. *)
Record stat_row := {
  player_id : string;
  total_hands : Z;
  vpip_hands : Z;
  pfr_hands : Z;
  aggressive_actions : Z;
  passive_actions : Z;
  showdown_win_percent : float;
}.

Definition aggregate (key : string) (g : list (seat_row * action_row))
  : stat_row :=
  {| player_id := key;
     total_hands := total_hands_of g;
     vpip_hands := vpip_hands_of g;
     pfr_hands := pfr_hands_of g;
     aggressive_actions := aggressive_actions_of g;
     passive_actions := passive_actions_of g;
     showdown_win_percent := percent_of (showdown_wins_of g) (total_hands_of g) |}.

(** [r] comes before [r'] in the result: it has more [vpip_hands], or as
    many and the greater [player_id]. *)
Definition precedes (r r' : stat_row) : bool :=
  bool_decide (vpip_hands r' < vpip_hands r)
  || (bool_decide (vpip_hands r' = vpip_hands r)
      && Sql.binary_lt (player_id r') (player_id r)).

(** [ORDER BY vpip_hands DESC], as an insertion sort.  SQL leaves the order
    of rows with equal [vpip_hands] open; SQLite's sorter returns them by
    descending [player_id], and that is the order written here.  The
    statements below rely on the order by [vpip_hands] only. *)
Fixpoint insert_desc (r : stat_row) (l : list stat_row) : list stat_row :=
  match l with
  | [] => [r]
  | r' :: l' =>
      if precedes r r' then r :: l else r' :: insert_desc r l'
  end.

Definition order_by_vpip_desc (l : list stat_row) : list stat_row :=
  foldr insert_desc [] l.

(** The query: join, filter, group, aggregate, [HAVING], [ORDER BY]. *)
Definition query (d : db) : list stat_row :=
  let rows := joined d in
  order_by_vpip_desc
    (filter (λ r, 10 < total_hands r)
       ((λ key, aggregate key (group rows key)) <$> group_keys rows)).

End query.

(** ** Derived columns and clustering input *)

(** The estimators of scikit-learn that the script calls, kept abstract.
    [StandardScaler().fit_transform(X)] draws no random number.
    [KMeans(n_clusters, random_state).fit_predict(X)] draws its initial
    centres from a generator: with an integer [random_state] the generator
    is seeded with that integer, with [random_state=None] it is seeded from
    the operating system, differently in every run.  [entropy] stands for
    what a run gets from the operating system.  The law
    [fit_predict_seeded] is scikit-learn's contract for an integer
    [random_state]: the labels are then the same in every run; nothing is
    assumed of the unseeded estimator. *)
Class Sklearn := {
  entropy : Type;
  fit_transform : list (list float) → result (list (list float));
  fit_predict :
    Z → option Z → entropy → list (list float) → result (list Z);
  fit_predict_seeded : ∀ n_clusters seed e e' X,
    fit_predict n_clusters (Some seed) e X
    = fit_predict n_clusters (Some seed) e' X;
}.

Section analysis.
Context `{Binary64} `{Sklearn}.

(** [a / b] on two int64 columns: true division, NaN or an infinity on a
    zero denominator. *)
Definition int_div (a b : Z) : float :=
  if bool_decide (b = 0) then
    if bool_decide (a = 0) then NaN else Inf (bool_decide (a < 0))
  else Fin (rnd (rnd (inject_Z a) / rnd (inject_Z b))).

(** [x * 100] on a float column. *)
Definition times_100 (x : float) : float :=
  match x with
  | Fin q => Fin (rnd (q * 100))
  | Inf negative => Inf negative
  | NaN => NaN
  end.

(** A row of [df] once the three derived columns are added. *)
Record metric_row := {
  stats : stat_row;
  vpip_percent : float;
  total_actions : Z;
  pfr_percent : float;
}.

(** Lines 171-173.  The int64 sum is written without wrap-around: both
    terms count rows of the join. *)
Definition derive (r : stat_row) : metric_row :=
  let total := passive_actions r + aggressive_actions r in
  {| stats := r;
     vpip_percent := times_100 (int_div (vpip_hands r) (total_hands r));
     total_actions := total;
     pfr_percent := times_100 (int_div (passive_actions r) total) |}.

Definition isna (x : float) : bool :=
  match x with NaN => true | _ => false end.

(** [df.drop(columns=[...]).dropna()]: of the columns left, the three float
    columns can hold a missing value. *)
Definition dropna (df : list metric_row) : list metric_row :=
  filter (λ m, negb (isna (showdown_win_percent (stats m))
                     || isna (vpip_percent m) || isna (pfr_percent m))) df.

Definition of_int (z : Z) : float := Fin (rnd (inject_Z z)).

(** [df.iloc[:, 1:]]: every column but [player_id], in column order. *)
Definition features (m : metric_row) : list float :=
  [of_int (aggressive_actions (stats m));
   of_int (passive_actions (stats m));
   showdown_win_percent (stats m);
   vpip_percent m;
   of_int (total_actions m);
   pfr_percent m].

Definition cluster_labels (cluster : Z) : option string :=
  if bool_decide (cluster = 0) then Some "Tight Aggressive (TAG)"
  else if bool_decide (cluster = 1) then Some "Tight Passive (NIT)"
  else if bool_decide (cluster = 2) then Some "Loose Aggressive (LAG)"
  else if bool_decide (cluster = 3) then Some "Loose Passive (Calling Station)"
  else None.

(** The analysis phase with [random_state] as a parameter, in a run whose
    entropy is [e]: query, derived columns, scaling, clustering and
    labelling.  The result pairs each remaining player with its cluster
    index and label. *)
Definition analyse_with (random_state : option Z) (e : entropy) (d : db)
  : result (list (string * Z * option string)) :=
  let df := dropna (derive <$> query d) in
  (try X_scaled <- fit_transform (features <$> df);
   try cluster <- fit_predict 4 random_state e X_scaled;
   Ok (zip_with (λ m c, (player_id (stats m), c, cluster_labels c))
         df cluster))%result.

(** The analysis phase of the script: [random_state=42]. *)
Definition analyse
  : entropy → db → result (list (string * Z * option string)) :=
  analyse_with (Some 42).

Context `{Conversions}.

(** A run of the whole script, with entropy [e], on the stored tables: its
    final store and, when no exception ended it, the cluster assignment.
    [pipeline_with] has [random_state] as a parameter. *)
Definition pipeline_with (random_state : option Z) (e : entropy)
    (files : list (list string)) (stored : db)
  : db * result (list (string * Z * option string)) :=
  match refresh files stored with
  | (d, Ok _) => (d, analyse_with random_state e d)
  | (d, Raise exc) => (d, Raise exc)
  end.

Definition pipeline : entropy → list (list string) → db
    → db * result (list (string * Z * option string)) :=
  pipeline_with (Some 42).

End analysis.

(** ** Conversions of plain decimal literals *)

(** Readers for literals of the shape [[+-]digits] and
    [[+-]digits.digits], to run the scenarios: they instantiate
    [Conversions] there and nowhere else.  On the literals of the
    scenarios (integers, and decimals such as 100.0, 50.0 and -50.0 whose
    value is a binary64 number) they return what [int], SQLite's coercion
    to a 64-bit row id and [float] return.  They are partial readers: they
    reject other spellings that the real conversions accept (exponents,
    [inf], [1.0] as a row id), and they do not round a decimal that is no
    binary64 number. *)
Module Decimal.

(** The value of a decimal digit: the characters 48 to 57. *)
Definition digit (c : ascii) : option Z :=
  let n := N_of_ascii c in
  if ((48 <=? n) && (n <=? 57))%N then Some (Z.of_N n - 48) else None.

Fixpoint digits_go (acc : Z) (s : string) : option Z :=
  match s with
  | "" => Some acc
  | String c s' =>
      match digit c with
      | Some d => digits_go (10 * acc + d) s'
      | None => None
      end
  end.

Definition digits (s : string) : option Z :=
  match s with
  | "" => None
  | _ => digits_go 0 s
  end.

Definition signed (s : string) : bool * string :=
  match s with
  | String "-" s' => (true, s')
  | String "+" s' => (false, s')
  | _ => (false, s)
  end.

Definition apply_sign (negative : bool) (z : Z) : Z :=
  if negative then - z else z.

Definition read_int (s : string) : option Z :=
  let '(negative, body) := signed s in
  apply_sign negative <$> digits body.

Definition read_rowid (s : string) : option Z :=
  z ← read_int s;
  if bool_decide (- 2 ^ 63 ≤ z < 2 ^ 63) then Some z else None.

Definition read_float (s : string) : option float :=
  let '(negative, body) := signed s in
  match Py.split_once "." body with
  | None => (λ z, Fin (inject_Z (apply_sign negative z))) <$> digits body
  | Some (ip, fp) =>
      i ← digits ip;
      f ← digits fp;
      let scale := 10 ^ Z.of_nat (String.length fp) in
      Some (Fin (Qred (Qmake (apply_sign negative (i * scale + f))
                         (Z.to_pos scale))))
  end.

End Decimal.

Definition decimal_conversions : Conversions := {|
  py_float := Decimal.read_float;
  py_int := Decimal.read_int;
  sql_rowid := Decimal.read_rowid;
|}.

(** Exact arithmetic is one rounding that satisfies [Binary64]'s laws. *)
Definition exact_arithmetic : Binary64 := {|
  rnd := λ q, q;
  rnd_mono := λ x y Hxy, Hxy;
  rnd_0 := Qeq_refl 0;
  rnd_1 := Qeq_refl 1;
  rnd_100 := Qeq_refl 100;
|}.

(** ** Reference notions used in the statements *)

Definition empty_db : db := {| hands := ∅; players := []; actions := [] |}.

Definition add_players (rows : list seat_row) (d : db) : db :=
  {| hands := hands d; players := players d ++ rows; actions := actions d |}.

Definition add_actions (rows : list action_row) (d : db) : db :=
  {| hands := hands d; players := players d; actions := actions d ++ rows |}.

(** The state after [INSERT OR IGNORE INTO hands]. *)
Definition with_hand (id : Z) (row : hand_row) (d : db) : db :=
  match hands d !! id with
  | Some _ => d
  | None => {| hands := <[id := row]> (hands d);
               players := players d; actions := actions d |}
  end.

(** The seat rows of a record, seat numbers starting after [i]: one row per
    player for which both a stack and a winnings entry exist. *)
Fixpoint seat_rows (id : Z) (i : nat) (ps : list string) (ss : list float)
    (wl : list pynum) : list seat_row :=
  match ps, ss, wl with
  | player :: ps', stack :: ss', w :: wl' =>
      {| p_hand_id := id;
         p_player_id := Py.strip_chars "'" player;
         p_seat := Z.of_nat i + 1;
         p_starting_stack := stack;
         p_winnings := to_real w |} :: seat_rows id (S i) ps' ss' wl'
  | _, _, _ => []
  end.

(** The action rows of a record. *)
Definition action_rows (id : Z) (acts : list string) : list action_row :=
  (λ action, {| a_hand_id := id; a_action := action |}) <$> acts.

(** A record with the seven scalar fields, whose identifier SQLite accepts
    as the row id [id]. *)
Record scalars_present `{Conversions} (hand : raw_hand) (hand_id : string)
    (id : Z) (row : hand_row) : Prop := {
  sp_hand : hand !! "hand" = Some (VStr hand_id);
  sp_variant : hand !! "variant" = Some (VStr (h_variant row));
  sp_venue : hand !! "venue" = Some (VStr (h_venue row));
  sp_table : hand !! "table" = Some (VStr (h_table_name row));
  sp_day : hand !! "day" = Some (VStr (h_day row));
  sp_month : hand !! "month" = Some (VStr (h_month row));
  sp_year : hand !! "year" = Some (VStr (h_year row));
  sp_rowid : sql_rowid hand_id = Some id;
}.

(** A line that is blank or a record delimiter once stripped. *)
Definition blank_or_delimiter (line : string) : Prop :=
  Py.strip line = "" ∨ Py.startswith "[" (Py.strip line) = true.

(** What the parser stores under each key. *)
Definition typed (hand : raw_hand) : Prop :=
  ∀ key v, hand !! key = Some v →
    match v with
    | VStr _ => key ∈ scalar_keys
    | VStrs _ => key = "players" ∨ key = "actions"
    | VFloats _ => key = "starting_stacks" ∨ key = "winnings"
    end.

(** A file of delimiter and blank lines only, and one with a single field. *)
Definition delimiters_only : list string := ["[1]"; ""; "[2]"; "  "; "[3]"].
Definition one_field_file : list string := ["[1]"; "[2]"; "hand = 7"; "[3]"].

(** [seats_added P d d']: [d'] has the seat rows of [d] followed by new
    rows that all satisfy [P]. *)
Definition seats_added (P : seat_row → Prop) (d d' : db) : Prop :=
  ∃ rows, players d' = players d ++ rows ∧ Forall P rows.

(** A statement sequence that only appends seat rows satisfying [P],
    whether it returns or raises. *)
Definition appends_seats {A} (P : seat_row → Prop) (m : M A) : Prop :=
  ∀ d, seats_added P d (m d).1.

(** The number of stored rows that carry a hand identifier. *)
Definition seat_count (id : Z) (d : db) : nat :=
  length (filter (λ s, p_hand_id s = id) (players d)).

Definition action_count (id : Z) (d : db) : nat :=
  length (filter (λ a, a_hand_id a = id) (actions d)).

(** ** Scenario data *)

(** The record of the specification's scenario, as file lines. *)
Definition scenario_file : list string :=
  ["[1]";
   "hand = 1";
   "players = ['P1', 'P2']";
   "starting_stacks = [100.0, 100.0]";
   "winnings = [50.0, -50.0]";
   "actions = ['P1 cbr 10', 'P2 f']"].

(** The record it parses to: list elements keep their quotes. *)
Definition scenario_record : raw_hand :=
  <["hand" := VStr "1"]>
  (<["players" := VStrs ["'P1'"; "'P2'"]]>
   (<["starting_stacks" := VFloats [Fin 100; Fin 100]]>
    (<["winnings" := VFloats [Fin 50; Fin (-50)]]>
     (<["actions" := VStrs ["'P1 cbr 10'"; "'P2 f'"]]> ∅)))).

(** A record completed with the six other scalar fields. *)
Definition with_scalars (row : hand_row) (hand : raw_hand) : raw_hand :=
  <["variant" := VStr (h_variant row)]>
  (<["venue" := VStr (h_venue row)]>
   (<["table" := VStr (h_table_name row)]>
    (<["day" := VStr (h_day row)]>
     (<["month" := VStr (h_month row)]>
      (<["year" := VStr (h_year row)]> hand))))).

Definition sample_row : hand_row :=
  {| h_variant := "NT"; h_venue := "Online"; h_table_name := "T1";
     h_day := "1"; h_month := "2"; h_year := "2020" |}.

(** The lines of a complete record. *)
Definition phhs_record (id players stacks : string) (winnings : option string)
    (actions : string) : list string :=
  ["[" +:+ id +:+ "]";
   "variant = NT"; "venue = Online"; "table = T1";
   "day = 1"; "month = 2"; "year = 2020";
   "hand = " +:+ id;
   "players = " +:+ players;
   "starting_stacks = " +:+ stacks]
  ++ match winnings with Some w => ["winnings = " +:+ w] | None => [] end
  ++ ["actions = " +:+ actions].

(** The scenario with the scalar fields written out. *)
Definition scenario_file_full : list string :=
  phhs_record "1" "['P1', 'P2']" "[100.0, 100.0]" (Some "[50.0, -50.0]")
    "['P1 cbr 10', 'P2 f']".

(** The store the scenario leaves. *)
Definition scenario_store (row : hand_row) : db :=
  {| hands := {[ 1 := row ]};
     players :=
       [ {| p_hand_id := 1; p_player_id := "P1"; p_seat := 1;
            p_starting_stack := Fin 100; p_winnings := Fin 50 |};
         {| p_hand_id := 1; p_player_id := "P2"; p_seat := 2;
            p_starting_stack := Fin 100; p_winnings := Fin (-50) |} ];
     actions :=
       [ {| a_hand_id := 1; a_action := "'P1 cbr 10'" |};
         {| a_hand_id := 1; a_action := "'P2 f'" |} ] |}.

(** A complete record of hand [id] with the given lists. *)
Definition make_record (id : string) (ps : list string) (ss : list float)
    (ws : option (list float)) (acts : list string) : raw_hand :=
  with_scalars sample_row
    (<["hand" := VStr id]>
     (<["players" := VStrs ps]>
      (<["starting_stacks" := VFloats ss]>
       (<["actions" := VStrs acts]>
        match ws with
        | Some l => {[ "winnings" := VFloats l ]}
        | None => ∅
        end)))).

(** Two players and three stacks. *)
Definition long_stacks : raw_hand :=
  make_record "1" ["'P1'"; "'P2'"] [Fin 100; Fin 100; Fin 100] None
    ["'P1 cbr 10'"; "'P2 f'"].

(** Two players and one stack. *)
Definition short_stacks : raw_hand :=
  make_record "1" ["'P1'"; "'P2'"] [Fin 100] None ["'P1 cbr 10'"; "'P2 f'"].

(** Two players and three actions. *)
Definition three_actions : raw_hand :=
  make_record "1" ["'P1'"; "'P2'"] [Fin 100; Fin 100] None
    ["'P1 cbr 10'"; "'P2 cc'"; "'P1 cc'"].

(** Two players, no [winnings] field and no action. *)
Definition no_actions : raw_hand :=
  make_record "1" ["'P1'"; "'P2'"] [Fin 100; Fin 100] None [].

(** ** The specification's wording, for comparison *)

(** "must raise a ShapeMismatchError and must not insert any PlayerSeat rows
    for that record": normalisation of [hand] on [d] raises and leaves the
    seat table as it was. *)
Definition shape_mismatch_rejected `{Conversions} (hand : raw_hand) (d : db)
  : Prop :=
  (∃ e, (ingest_hand hand d).2 = Raise e)
  ∧ players (ingest_hand hand d).1 = players d.

(** "the count of PlayerSeat rows with that hand identifier equals the
    [actions] list length, and equals [len(players)]". *)
Definition seats_match_actions_and_players (id : Z) (ps acts : list string)
    (d : db) : Prop :=
  seat_count id d = length acts ∧ seat_count id d = length ps.

(** The scenario's expected store, with action tokens as the specification
    writes them (without quotes). *)
Definition scenario_stored_unquoted (d : db) : Prop :=
  (∃ row, hands d = {[ 1 := row ]})
  ∧ players d = players (scenario_store sample_row)
  ∧ actions d = [ {| a_hand_id := 1; a_action := "P1 cbr 10" |};
                  {| a_hand_id := 1; a_action := "P2 f" |} ].

(** ** The tables behind the query *)

(** The seat rows of a player, and the action rows of a hand. *)
Definition seats_of (d : db) (player : string) : list seat_row :=
  filter (λ s, p_player_id s = player) (players d).

Definition hand_actions (d : db) (id : Z) : list action_row :=
  filter (λ a, id = a_hand_id a) (actions d).

(** The hands in which [player] has a seat [s] such that some action row
    [a] of the same hand, whoever its actor is, satisfies [c s a]. *)
Definition hands_with (d : db) (player : string)
    (c : seat_row → action_row → bool) : list Z :=
  p_hand_id <$>
    filter (λ s, Exists (λ a, c s a) (hand_actions d (p_hand_id s)))
      (seats_of d player).

(** The number of pairs of a seat row of [player] and an action row of the
    same hand whose action satisfies [c]. *)
Definition pairs_with (d : db) (player : string) (c : string → bool) : Z :=
  Z.of_nat
    (sum_list_with
       (λ s, length (filter (λ a, c (a_action a))
                       (hand_actions d (p_hand_id s))))
       (seats_of d player)).

(** An action token of [player], in the specification's reading: the token,
    without its quotes, starts with the player's identifier and a space. *)
Definition token_of (player token : string) : bool :=
  Py.startswith (player +:+ " ") (Py.strip_chars "'" token).

(** "the distinct hands in which that player took a voluntary-money
    action". *)
Definition own_vpip_hands (d : db) (player : string) : Z :=
  Sql.count_distinct
    (hands_with d player
       (λ _ a, token_of player (a_action a) && is_vpip (a_action a))).

(** ** Scenario stores *)

(** A heads-up hand in which P1 bets and P2 folds. *)
Definition heads_up (id : string) : list string :=
  phhs_record id "['P1', 'P2']" "[100.0, 100.0]" (Some "[50.0, -50.0]")
    "['P1 cbr 10', 'P2 f']".

Definition hand_numbers : list string :=
  ["1"; "2"; "3"; "4"; "5"; "6"; "7"; "8"; "9"; "10"; "11"].

(** A file of eleven such hands, a file of the first ten, and the stores
    the load phase builds from each. *)
Definition eleven_hands : list string := mjoin (heads_up <$> hand_numbers).
Definition ten_hands : list string := mjoin (heads_up <$> take 10 hand_numbers).

Definition eleven_store : db :=
  (@refresh decimal_conversions [eleven_hands] empty_db).1.
Definition ten_store : db :=
  (@refresh decimal_conversions [ten_hands] empty_db).1.

(** The row the query reports for P2 on [eleven_store], in exact
    arithmetic: P2 folds in every hand. *)
Definition p2_row : stat_row :=
  {| player_id := "P2";
     total_hands := 11;
     vpip_hands := 11;
     pfr_hands := 0;
     aggressive_actions := 11;
     passive_actions := 11;
     showdown_win_percent := Fin (0 # 11) |}.

(** A statement sequence that never raises [e]. *)
Definition never_raises {A} (e : exn) (m : M A) : Prop :=
  ∀ d, (m d).2 ≠ Raise e.

(** ** Further notions for the statements *)

(** The characters of a string, as a list. *)
Definition chars (s : string) : list ascii := String.list_ascii_of_string s.

(** The keys the loop body of the parser tests for. *)
Definition recognized_keys : list string :=
  scalar_keys ++ ["players"; "starting_stacks"; "winnings"; "actions"].

(** A line without effect on the parser's state: blank once stripped, or a
    field line whose key is none of the recognised ones. *)
Definition ignored (line : string) : bool :=
  let line := Py.strip line in
  bool_decide (line = "")
  || (negb (Py.startswith "[" line)
      && match Py.split_once "=" line with
         | Some (key, _) => bool_decide (Py.strip key ∉ recognized_keys)
         | None => false
         end).

(** A record delimiter: a line that starts with [[] once stripped. *)
Definition is_delimiter (line : string) : bool :=
  Py.startswith "[" (Py.strip line).

(** A record none of whose list fields is the empty list. *)
Definition lists_nonempty (hand : raw_hand) : Prop :=
  ∀ key v, hand !! key = Some v →
    match v with
    | VStr _ => True
    | VStrs l => l ≠ []
    | VFloats l => l ≠ []
    end.

(** A file with a remark line, blank lines and an unmodelled field. *)
Definition noisy_file : list string :=
  ["[1]"; ""; "hand = 1"; "seats = 6"; "   "; "blinds_or_straddles = [1, 2]";
   "players = ['P1', 'P2']"].

(** Two files, the second starting with a delimiter. *)
Definition first_file : list string := ["hand = 1"; "venue = Here"].
Definition second_file : list string := ["[2]"; "hand = 2"; "[3]"; "hand = 3"].

(** The order in which the first parameter tuple reads the scalar fields. *)
Definition tuple_keys : list string :=
  ["hand"; "variant"; "venue"; "table"; "day"; "month"; "year"].

(** What a statement sequence wrote: the hand rows it offered to
    [INSERT OR IGNORE], in order, and the seat and action rows it
    appended. *)
Record write_log := {
  w_hands : list (Z * hand_row);
  w_players : list seat_row;
  w_actions : list action_row;
}.

Definition no_writes : write_log :=
  {| w_hands := []; w_players := []; w_actions := [] |}.

Definition log_app (w1 w2 : write_log) : write_log :=
  {| w_hands := w_hands w1 ++ w_hands w2;
     w_players := w_players w1 ++ w_players w2;
     w_actions := w_actions w1 ++ w_actions w2 |}.

(** [INSERT OR IGNORE] on the table of hands. *)
Definition insert_or_ignore (h : gmap Z hand_row) (x : Z * hand_row)
  : gmap Z hand_row :=
  match h !! x.1 with
  | Some _ => h
  | None => <[x.1 := x.2]> h
  end.

(** The store after the writes of a log. *)
Definition replay (w : write_log) (d : db) : db :=
  {| hands := foldl insert_or_ignore (hands d) (w_hands w);
     players := players d ++ w_players w;
     actions := actions d ++ w_actions w |}.

(** [writes m w r]: on every store, [m] performs the writes of [w] and
    ends with [r]. *)
Definition writes {A} (m : M A) (w : write_log) (r : result A) : Prop :=
  ∀ d, m d = (replay w d, r).

(** A statement sequence whose writes form a log that satisfies [P],
    whatever the store. *)
Definition logged {A} (P : write_log → Prop) (m : M A) : Prop :=
  ∃ w r, writes m w r ∧ P w.

(** The two integer readings of an identifier agree where both exist. *)
Definition conversions_agree `{Conversions} : Prop :=
  ∀ s a b, sql_rowid s = Some a → py_int s = Some b → a = b.

(** The seat rows, and under [conversions_agree] the action rows, of a log
    carry identifiers of hands offered in the same log. *)
Definition log_references_hands `{Conversions} (w : write_log) : Prop :=
  Forall (λ s, p_hand_id s ∈ (w_hands w).*1) (w_players w)
  ∧ (conversions_agree →
     Forall (λ a, a_hand_id a ∈ (w_hands w).*1) (w_actions w)).

(** A log that offers no hand and whose seat rows, and under
    [conversions_agree] action rows, carry the identifier [id]. *)
Definition carries `{Conversions} (id : Z) (w : write_log) : Prop :=
  w_hands w = []
  ∧ Forall (λ s, p_hand_id s = id) (w_players w)
  ∧ (conversions_agree → Forall (λ a, a_hand_id a = id) (w_actions w)).

(** Every seat row and every action row refers to a stored hand. *)
Definition references_hold (d : db) : Prop :=
  Forall (λ s, is_Some (hands d !! p_hand_id s)) (players d)
  ∧ Forall (λ a, is_Some (hands d !! a_hand_id a)) (actions d).

(** Two complete hands with the same identifier. *)
Definition duplicate_hands : list string :=
  phhs_record "7" "['P1', 'P2']" "[100.0, 100.0]" None "['P1 cc', 'P2 f']"
  ++ phhs_record "7" "['P3']" "[5.0]" (Some "[1.0]") "['P3 f']".

(** Rows in descending order of [vpip_hands]. *)
Fixpoint descending (l : list stat_row) : Prop :=
  match l with
  | [] => True
  | r :: l' => Forall (λ r', vpip_hands r' ≤ vpip_hands r) l' ∧ descending l'
  end.

(** [w] occurs in [s] up to ASCII case. *)
Definition contains_nocase (w s : string) : Prop :=
  ∃ pre mid post,
    s = pre +:+ mid +:+ post
    ∧ Sql.lower <$> chars mid = Sql.lower <$> chars w.

(** A pattern fragment of ordinary characters: no wildcard of [LIKE] and
    no NUL. *)
Definition wildcard_free (w : string) : Prop :=
  Forall (λ c, c ≠ "%"%char ∧ c ≠ "_"%char ∧ c ≠ "000"%char) (chars w).

(** The rows of the result that [dropna] keeps: those with an action in
    the aggressive or the passive column. *)
Definition classified (r : stat_row) : Prop :=
  passive_actions r + aggressive_actions r ≠ 0.

(** Integers up to [2^53] are binary64 numbers. *)
Definition exact_integers `{Binary64} : Prop :=
  ∀ z : Z, 0 ≤ z ≤ 2 ^ 53 → (rnd (inject_Z z) == inject_Z z)%Q.

(** Estimators that leave the matrix as it is and put every row into one
    cluster, for running the analysis on examples: the cluster [c] when
    seeded, and a cluster taken from the entropy of the run when not. *)
Definition one_cluster (c : Z) : Sklearn := {|
  entropy := Z;
  fit_transform := λ X, Ok X;
  fit_predict := λ _ random_state e X,
    Ok ((λ _, match random_state with Some _ => c | None => e end) <$> X);
  fit_predict_seeded := λ _ _ _ _ _, eq_refl;
|}.

(** ** Further scenario data *)

(** A record with its scalar fields only, and one that lacks the [actions]
    field. *)
Definition scalars_only : raw_hand :=
  with_scalars sample_row {[ "hand" := VStr "7" ]}.

Definition no_action_field : raw_hand :=
  with_scalars sample_row
    (<["hand" := VStr "7"]>
     (<["players" := VStrs ["'P1'"]]>
      {[ "starting_stacks" := VFloats [Fin 5] ]})).

(** A hand of P3 and P4 in which only cards are dealt. *)
Definition deal_only (id : string) : list string :=
  phhs_record id "['P3', 'P4']" "[100.0, 100.0]" None "['d db AhKh']".

Definition later_numbers : list string :=
  ["12"; "13"; "14"; "15"; "16"; "17"; "18"; "19"; "20"; "21"; "22"].

(** The eleven heads-up hands of P1 and P2, followed by eleven hands of P3
    and P4 without a classified action, and the store loaded from them. *)
Definition mixed_hands : list string :=
  eleven_hands ++ mjoin (deal_only <$> later_numbers).

Definition mixed_store : db :=
  (@refresh decimal_conversions [mixed_hands] empty_db).1.

(** The rows of P1 and of P3 in the query result on [mixed_store], in
    exact arithmetic. *)
Definition p1_row : stat_row :=
  {| player_id := "P1";
     total_hands := 11;
     vpip_hands := 11;
     pfr_hands := 0;
     aggressive_actions := 11;
     passive_actions := 11;
     showdown_win_percent := Fin (1100 # 11) |}.

Definition p3_row : stat_row :=
  {| player_id := "P3";
     total_hands := 11;
     vpip_hands := 0;
     pfr_hands := 0;
     aggressive_actions := 0;
     passive_actions := 0;
     showdown_win_percent := Fin (0 # 11) |}.

(** Two players with one winnings entry, and with three. *)
Definition short_winnings : raw_hand :=
  make_record "1" ["'P1'"; "'P2'"] [Fin 100; Fin 100] (Some [Fin 50])
    ["'P1 cbr 10'"; "'P2 f'"].

Definition long_winnings : raw_hand :=
  make_record "1" ["'P1'"; "'P2'"] [Fin 100; Fin 100]
    (Some [Fin 50; Fin (-50); Fin 7]) ["'P1 cbr 10'"; "'P2 f'"].

(** A twelfth hand of P1 and P2 whose [actions] field is written as an
    empty list, and the store loaded from the twelve hands. *)
Definition empty_actions_hand : list string :=
  phhs_record "12" "['P1', 'P2']" "[100.0, 100.0]" None "[]".

Definition twelve_store : db :=
  (@refresh decimal_conversions [eleven_hands ++ empty_actions_hand]
     empty_db).1.

(** The record that [empty_actions_hand] parses to. *)
Definition empty_actions_record : raw_hand :=
  make_record "12" ["'P1'"; "'P2'"] [Fin 100; Fin 100] None [""].

(** ** The specification's wording on hands without actions *)

(** "a hand whose actions list was empty contributes to no player's hand
    counts or percentages": the query gives the same result on the store
    loaded from the lines [before] followed by the lines of the hand as on
    the store loaded from [before] alone. *)
Definition contributes_to_no_count `{Conversions} `{Binary64}
    (before hand_lines : list string) : Prop :=
  query (refresh [before ++ hand_lines] empty_db).1
  = query (refresh [before] empty_db).1.

(** * Properties *)

(** ** Lists *)

Section list_facts.
Context {A : Type}.

Lemma filter_Forall (P : A → Prop) `{!∀ x, Decision (P x)} (l : list A) :
  Forall P l → filter P l = l.
Proof.
  induction 1 as [|x l Hx _ IH]; [done|].
  by rewrite filter_cons_True, IH.
Qed.

Lemma filter_Forall_not (P : A → Prop) `{!∀ x, Decision (P x)} (l : list A) :
  Forall (λ x, ¬ P x) l → filter P l = [].
Proof.
  induction 1 as [|x l Hx _ IH]; [done|].
  by rewrite filter_cons_False.
Qed.

End list_facts.

(** ** The string helpers on small inputs *)

Example split_players :
  Py.split ", " "'P1', 'P2'" = ["'P1'"; "'P2'"].
Proof. reflexivity. Qed.

Example split_empty : Py.split ", " "" = [""].
Proof. reflexivity. Qed.

Example split_trailing : Py.split ", " "a, , b, " = ["a"; ""; "b"; ""].
Proof. reflexivity. Qed.

Example strip_brackets :
  Py.strip_chars "[]" "['P1 cbr 10', 'P2 f']" = "'P1 cbr 10', 'P2 f'".
Proof. reflexivity. Qed.

Example strip_line :
  Py.strip (String "009" " hand = 1 " +:+ String "010" "") = "hand = 1".
Proof. reflexivity. Qed.

(** The no-break space and NEL are stripped like the space. *)
Example strip_no_break_space :
  Py.strip (String "160" "[x=]" +:+ String "133" "") = "[x=]"
  ∧ Py.strip (String "160" "") = "".
Proof. split; reflexivity. Qed.

Example split_once_first :
  Py.split_once "=" "key = a=b" = Some ("key ", " a=b").
Proof. reflexivity. Qed.

Example split_once_none : Py.split_once "=" "no separator" = None.
Proof. reflexivity. Qed.

Example like_cbr : Sql.like "% cbr%" "'P1 cbr 10'" = true.
Proof. reflexivity. Qed.

Example like_fold : Sql.like "% f%" "'P2 f'" = true.
Proof. reflexivity. Qed.

Example like_case : Sql.like "% CBR%" "'p1 Cbr 10'" = true.
Proof. reflexivity. Qed.

Example like_needs_space : Sql.like "% cbr%" "cbr 10" = false.
Proof. reflexivity. Qed.

(** A text is read up to its first NUL. *)
Example like_stops_at_nul :
  Sql.like "% cbr%" (String "A" (String "000" " cbr 1")) = false
  ∧ Sql.like "% cbr%" ("A cbr" +:+ String "000" " 1") = true.
Proof. split; reflexivity. Qed.

Example like_underscore : Sql.like "a_c" "AbC" = true ∧ Sql.like "a_c" "AC" = false.
Proof. split; reflexivity. Qed.

Example cbr_is_voluntary_and_aggressive :
  is_vpip "'P1 cbr 10'" = true ∧ is_aggressive "'P1 cbr 10'" = true
  ∧ is_passive "'P1 cbr 10'" = false.
Proof. repeat split; reflexivity. Qed.

Example fold_is_passive :
  is_passive "'P2 f'" = true ∧ is_vpip "'P2 f'" = false
  ∧ is_aggressive "'P2 f'" = false.
Proof. repeat split; reflexivity. Qed.

(** An empty bracket pair is read as a list with one empty string, since
    [''.split(', ')] is [['']]: a parsed [actions] list is never empty. *)
Example empty_brackets : str_list "[]" = [""].
Proof. reflexivity. Qed.

Example decimal_literals :
  Decimal.read_float "100.0" = Some (Fin 100)
  ∧ Decimal.read_float "-50.0" = Some (Fin (-50))
  ∧ Decimal.read_float "abc" = None
  ∧ Decimal.read_int "11" = Some 11
  ∧ Decimal.read_rowid "9223372036854775808" = None.
Proof. repeat split; reflexivity. Qed.

(** ** The parser *)

Section parser_facts.
Context `{Conversions}.

Lemma truthy_true (d : raw_hand) : truthy d = true ↔ d ≠ ∅.
Proof.
  unfold truthy. rewrite negb_true_iff, bool_decide_eq_false.
  by rewrite map_size_empty_iff.
Qed.

Lemma emit_nonempty hand_data (current_hand : raw_hand) :
  Forall (λ r : raw_hand, r ≠ ∅) hand_data →
  Forall (λ r : raw_hand, r ≠ ∅)
    (if truthy current_hand then hand_data ++ [current_hand] else hand_data).
Proof.
  intros Hd. destruct (truthy current_hand) eqn:Ht; [|done].
  apply Forall_app; split; [done|].
  apply Forall_singleton. by apply truthy_true.
Qed.

Lemma parse_line_nonempty st line st' :
  parse_line st line = Ok st' →
  Forall (λ r : raw_hand, r ≠ ∅) st.1 → Forall (λ r : raw_hand, r ≠ ∅) st'.1.
Proof.
  destruct st as [hand_data current_hand]. unfold parse_line. simpl.
  case_bool_decide; [by intros [= <-]|].
  destruct (Py.startswith _ _).
  { intros [= <-] Hd. simpl. by apply emit_nonempty. }
  destruct (Py.split_once _ _) as [[key v]|]; [|done].
  destruct (parse_field _ _ _); simpl; [|done].
  by intros [= <-].
Qed.

Lemma parse_lines_nonempty file st st' :
  parse_lines st file = Ok st' →
  Forall (λ r : raw_hand, r ≠ ∅) st.1 → Forall (λ r : raw_hand, r ≠ ∅) st'.1.
Proof.
  revert st. induction file as [|line file IH]; intros st; simpl.
  { by intros [= <-]. }
  destruct (parse_line st line) as [st1|] eqn:Hl; simpl; [|done].
  intros Hf Hd. eapply IH; [done|]. by eapply parse_line_nonempty.
Qed.

Lemma parse_lines_delimiters file hand_data :
  Forall blank_or_delimiter file →
  parse_lines (hand_data, ∅) file = Ok (hand_data, ∅).
Proof.
  induction 1 as [|line file Hl _ IH]; [done|].
  simpl. unfold parse_line.
  destruct Hl as [Hl|Hl].
  - by rewrite Hl.
  - case_bool_decide; simpl; [done|]. by rewrite Hl.
Qed.

(** C10. Every record that [parse_poker_file] emits holds at least one
    field, whatever the file; a file made of blank and delimiter lines only
    (leading, consecutive or trailing delimiters) emits no record at all. *)
Theorem parser_emits_no_empty_record (file : list string) :
  (∀ hand_data, parse_poker_file file = Ok hand_data →
     Forall (λ r : raw_hand, r ≠ ∅) hand_data)
  ∧ (Forall blank_or_delimiter file → parse_poker_file file = Ok []).
Proof.
  split.
  - intros hand_data. unfold parse_poker_file.
    destruct (parse_lines _ file) as [[hd cur]|] eqn:Hp; simpl; [|done].
    intros [= <-]. apply emit_nonempty.
    apply (parse_lines_nonempty _ _ _ Hp). by constructor.
  - intros Hf. unfold parse_poker_file.
    by rewrite parse_lines_delimiters.
Qed.

End parser_facts.

Lemma parser_emits_no_empty_record_witness :
  Forall (λ r : raw_hand, r ≠ ∅) [ ({["hand" := VStr "7"]} : raw_hand) ]
  ∧ @parse_poker_file decimal_conversions delimiters_only = Ok [].
Proof.
  split.
  - apply (proj1 (@parser_emits_no_empty_record decimal_conversions
                    one_field_file)).
    vm_compute. reflexivity.
  - apply (proj2 (@parser_emits_no_empty_record decimal_conversions
                    delimiters_only)).
    unfold delimiters_only.
    repeat (apply Forall_cons; split; [vm_compute; auto|]).
    constructor.
Defined.

(** *** Parsed records are well typed *)

Section typed_records.
Context `{Conversions}.

Lemma typed_empty : typed ∅.
Proof. intros key v Hk. by rewrite lookup_empty in Hk. Qed.

Lemma typed_insert (hand : raw_hand) key v :
  typed hand → typed {[ key := v ]} → typed (<[key := v]> hand).
Proof.
  intros Hhand Hone k w. rewrite lookup_insert. case_decide as Hk.
  - intros [= <-]. subst k. apply Hone. by rewrite lookup_singleton_eq.
  - apply Hhand.
Qed.

Lemma typed_singleton key v :
  match v with
  | VStr _ => key ∈ scalar_keys
  | VStrs _ => key = "players" ∨ key = "actions"
  | VFloats _ => key = "starting_stacks" ∨ key = "winnings"
  end →
  typed {[ key := v ]}.
Proof.
  intros Hv k w. rewrite lookup_singleton. case_decide as Hk; [|done].
  intros [= <-]. by subst k.
Qed.

Lemma parse_field_typed key v hand hand' :
  typed hand → parse_field key v hand = Ok hand' → typed hand'.
Proof.
  intros Hhand. unfold parse_field.
  repeat case_bool_decide; subst.
  - intros [= <-]. by apply typed_insert, typed_singleton.
  - intros [= <-]. apply typed_insert, typed_singleton; auto.
  - destruct (float_list v); simpl; [|done].
    intros [= <-]. apply typed_insert, typed_singleton; auto.
  - destruct (float_list v); simpl; [|done].
    intros [= <-]. apply typed_insert, typed_singleton; auto.
  - intros [= <-]. apply typed_insert, typed_singleton; auto.
  - by intros [= <-].
Qed.

Lemma parse_line_typed st line st' :
  parse_line st line = Ok st' →
  Forall typed st.1 ∧ typed st.2 → Forall typed st'.1 ∧ typed st'.2.
Proof.
  destruct st as [hand_data current_hand]. unfold parse_line. simpl.
  case_bool_decide; [by intros [= <-]|].
  destruct (Py.startswith _ _).
  { intros [= <-] [Hd Hc]. simpl. split; [|apply typed_empty].
    destruct (truthy current_hand); [|done].
    apply Forall_app. split; [done|]. by apply Forall_singleton. }
  destruct (Py.split_once _ _) as [[key v]|]; [|done].
  destruct (parse_field _ _ _) as [hand'|] eqn:Hf; simpl; [|done].
  intros [= <-] [Hd Hc]. simpl. split; [done|].
  by eapply parse_field_typed.
Qed.

Lemma parse_lines_typed file st st' :
  parse_lines st file = Ok st' →
  Forall typed st.1 ∧ typed st.2 → Forall typed st'.1 ∧ typed st'.2.
Proof.
  revert st. induction file as [|line file IH]; intros st; simpl.
  { by intros [= <-]. }
  destruct (parse_line st line) as [st1|] eqn:Hl; simpl; [|done].
  intros Hf Hst. eapply IH; [done|]. by eapply parse_line_typed.
Qed.

(** X2. Every record of a parsed file stores a string under the scalar
    keys, a list of strings under [players] and [actions], and a list of
    floats under [starting_stacks] and [winnings]. *)
Theorem parse_poker_file_typed file hand_data :
  parse_poker_file file = Ok hand_data → Forall typed hand_data.
Proof.
  unfold parse_poker_file.
  destruct (parse_lines _ file) as [[hd cur]|] eqn:Hp; simpl; [|done].
  intros [= <-].
  destruct (parse_lines_typed _ _ _ Hp) as [Hd Hc].
  { split; [by constructor|apply typed_empty]. }
  simpl in *. destruct (truthy cur); [|done].
  apply Forall_app. split; [done|]. by apply Forall_singleton.
Qed.

(** *** No [TypeError] on a well-typed record *)

Lemma never_raises_lift_bind {A B} e (r : result A) (k : A → M B) :
  r ≠ Raise e → (∀ a, never_raises e (k a)) →
  never_raises e (mbind (lift r) k).
Proof.
  intros Hr Hk d. unfold mbind, lift. destruct r as [a|e']; simpl.
  - apply Hk.
  - congruence.
Qed.

Lemma never_raises_bind {A B} e (m : M A) (k : A → M B) :
  never_raises e m → (∀ a, never_raises e (k a)) →
  never_raises e (mbind m k).
Proof.
  intros Hm Hk d. unfold mbind. specialize (Hm d).
  destruct (m d) as [d1 [a|e']]; simpl in *; [apply Hk|].
  intros [= ->]. by apply Hm.
Qed.

Lemma never_raises_for_each {A} e (body : A → M unit) (l : list A) :
  (∀ x, never_raises e (body x)) → never_raises e (for_each body l).
Proof.
  intros Hbody. induction l as [|x l IH]; simpl; [by intros d|].
  apply never_raises_bind; [apply Hbody|]. by intros _.
Qed.

Lemma get_str_typed (hand : raw_hand) key :
  typed hand → key ∈ scalar_keys → get_str hand key ≠ Raise TypeError.
Proof.
  intros Hhand Hkey. unfold get_str, getitem.
  destruct (hand !! key) as [v|] eqn:Hv; simpl; [|done].
  pose proof (Hhand key v Hv) as Hty.
  destruct v; [done|..]; destruct Hty as [-> | ->]; exfalso;
    revert Hkey; apply (bool_decide_unpack _); by vm_compute.
Qed.

Lemma get_strs_typed (hand : raw_hand) key :
  typed hand → key = "players" ∨ key = "actions" →
  get_strs hand key ≠ Raise TypeError.
Proof.
  intros Hhand Hkey. unfold get_strs, getitem.
  destruct (hand !! key) as [v|] eqn:Hv; simpl; [|done].
  pose proof (Hhand key v Hv) as Hty.
  destruct v; [|done|].
  - exfalso. revert Hty. destruct Hkey as [-> | ->];
      apply (bool_decide_unpack _); by vm_compute.
  - destruct Hkey as [-> | ->], Hty; done.
Qed.

Lemma get_floats_typed (hand : raw_hand) key :
  typed hand → key = "starting_stacks" ∨ key = "winnings" →
  get_floats hand key ≠ Raise TypeError.
Proof.
  intros Hhand Hkey. unfold get_floats, getitem.
  destruct (hand !! key) as [v|] eqn:Hv; simpl; [|done].
  pose proof (Hhand key v Hv) as Hty.
  destruct v; [| |done].
  - exfalso. revert Hty. destruct Hkey as [-> | ->];
      apply (bool_decide_unpack _); by vm_compute.
  - destruct Hkey as [-> | ->], Hty; done.
Qed.

Lemma winnings_list_typed (hand : raw_hand) :
  typed hand → winnings_list hand ≠ Raise TypeError.
Proof.
  intros Hhand. unfold winnings_list.
  pose proof (get_strs_typed hand "players" Hhand (or_introl eq_refl)) as Hps.
  destruct (get_strs hand "players") as [ps|e]; simpl;
    [|intros [= ->]; by apply Hps].
  destruct (hand !! "winnings") as [v|] eqn:Hv; [|done].
  pose proof (Hhand _ v Hv) as Hty.
  destruct v; [|by destruct Hty|done].
  exfalso. revert Hty. apply (bool_decide_unpack _). by vm_compute.
Qed.

(** X3. Normalisation never raises [TypeError] on a well-typed record: the
    type tests of the accessors are dead code for the records the parser
    produces. *)
Theorem ingest_hand_no_type_error hand :
  typed hand → never_raises TypeError (ingest_hand hand).
Proof.
  intros Hhand. unfold ingest_hand.
  do 7 (apply never_raises_lift_bind;
        [apply get_str_typed;
           [done|apply (bool_decide_unpack _); by vm_compute]|];
        intros ?).
  apply never_raises_bind.
  { intros d. unfold insert_hand. by destruct (sql_rowid _). }
  intros id.
  apply never_raises_lift_bind; [by apply winnings_list_typed|]. intros wl.
  apply never_raises_lift_bind; [apply get_strs_typed; auto|]. intros ps.
  apply never_raises_bind.
  - apply never_raises_for_each. intros [i p]. unfold seat_body.
    apply never_raises_lift_bind; [apply get_floats_typed; auto|].
    intros stacks.
    apply never_raises_lift_bind.
    { unfold index. by destruct (stacks !! i). }
    intros stack. apply never_raises_lift_bind.
    { unfold index. by destruct (wl !! i). }
    by intros w d.
  - intros _.
    apply never_raises_lift_bind; [apply get_strs_typed; auto|]. intros acts.
    apply never_raises_for_each. intros action. unfold action_body.
    apply never_raises_lift_bind.
    { by destruct (py_int _). }
    by intros aid d.
Qed.

End typed_records.

Lemma parse_poker_file_typed_witness : Forall typed [scenario_record].
Proof.
  apply (@parse_poker_file_typed decimal_conversions scenario_file).
  vm_compute. reflexivity.
Defined.

Lemma ingest_hand_no_type_error_witness :
  never_raises TypeError
    (@ingest_hand decimal_conversions {[ "hand" := VStr "7" ]}).
Proof.
  apply (@ingest_hand_no_type_error decimal_conversions).
  apply typed_singleton. apply (bool_decide_unpack _). vm_compute. exact I.
Defined.

(** ** The ingestion loop *)

Section ingestion_facts.
Context `{Conversions}.

Lemma add_players_nil d : add_players [] d = d.
Proof. destruct d. unfold add_players. simpl. by rewrite app_nil_r. Qed.

Lemma add_players_app rows rows' d :
  add_players rows' (add_players rows d) = add_players (rows ++ rows') d.
Proof. unfold add_players. simpl. by rewrite app_assoc. Qed.

Lemma add_actions_nil d : add_actions [] d = d.
Proof. destruct d. unfold add_actions. simpl. by rewrite app_nil_r. Qed.

Lemma add_actions_app rows rows' d :
  add_actions rows' (add_actions rows d) = add_actions (rows ++ rows') d.
Proof. unfold add_actions. simpl. by rewrite app_assoc. Qed.

Lemma length_seat_rows id i ps ss wl :
  length (seat_rows id i ps ss wl)
  = (length ps `min` (length ss `min` length wl))%nat.
Proof.
  revert i ss wl. induction ps as [|p ps IH]; intros i ss wl; [done|].
  destruct ss as [|s ss]; [done|]. destruct wl as [|w wl]; simpl; [lia|].
  rewrite IH. lia.
Qed.

Lemma get_floats_lookup (hand : raw_hand) key l :
  hand !! key = Some (VFloats l) → get_floats hand key = Ok l.
Proof. intros Hk. unfold get_floats, getitem. by rewrite Hk. Qed.

Lemma get_strs_lookup (hand : raw_hand) key l :
  hand !! key = Some (VStrs l) → get_strs hand key = Ok l.
Proof. intros Hk. unfold get_strs, getitem. by rewrite Hk. Qed.

Lemma get_str_lookup (hand : raw_hand) key s :
  hand !! key = Some (VStr s) → get_str hand key = Ok s.
Proof. intros Hk. unfold get_str, getitem. by rewrite Hk. Qed.

Lemma seat_body_step hand id wl ss i p d :
  get_floats hand "starting_stacks" = Ok ss →
  seat_body hand id wl (i, p) d
  = match ss !! i, wl !! i with
    | Some stack, Some w =>
        (add_players (seat_rows id i [p] [stack] [w]) d, Ok ())
    | _, _ => (d, Raise IndexError)
    end.
Proof.
  intros Hss. unfold seat_body, mbind, lift, index. rewrite Hss.
  destruct (ss !! i); simpl; [|done]. by destruct (wl !! i).
Qed.

(** The seat loop: rows are appended seat by seat until a stack or a
    winnings entry is missing, which raises [IndexError]. *)
Lemma seat_loop hand id wl ss ps i d :
  get_floats hand "starting_stacks" = Ok ss →
  for_each (seat_body hand id wl) (zip (seq i (length ps)) ps) d
  = let rows := seat_rows id i ps (drop i ss) (drop i wl) in
    (add_players rows d,
     if bool_decide (length rows = length ps) then Ok () else Raise IndexError).
Proof.
  intros Hss. revert i d. induction ps as [|p ps IH]; intros i d.
  { simpl. by rewrite add_players_nil. }
  cbn [length seq zip_with for_each].
  unfold mbind at 1. rewrite (seat_body_step _ _ _ ss) by done.
  destruct (ss !! i) as [stack|] eqn:Hs.
  2:{ apply lookup_ge_None in Hs. rewrite (drop_ge ss) by done.
      by rewrite add_players_nil. }
  rewrite (drop_S ss stack i Hs).
  destruct (wl !! i) as [w|] eqn:Hw.
  2:{ apply lookup_ge_None in Hw. rewrite (drop_ge wl) by done.
      by rewrite add_players_nil. }
  rewrite (drop_S wl w i Hw), IH. cbn zeta.
  rewrite add_players_app. cbn [seat_rows app length]. f_equal.
  repeat case_bool_decide; simpl in *; try done; lia.
Qed.

(** The action loop: [int(hand["hand"])] is evaluated at every iteration, so
    a failing conversion raises before the first row. *)
Lemma action_loop hand_id acts d :
  for_each (action_body hand_id) acts d
  = match acts, py_int hand_id with
    | [], _ => (d, Ok ())
    | _ :: _, None => (d, Raise ValueError)
    | _ :: _, Some id => (add_actions (action_rows id acts) d, Ok ())
    end.
Proof.
  destruct (py_int hand_id) as [id|] eqn:Hid.
  - assert (for_each (action_body hand_id) acts d
            = (add_actions (action_rows id acts) d, Ok ())) as ->.
    { revert d. induction acts as [|a acts IH]; intros d; simpl.
      { by rewrite add_actions_nil. }
      unfold mbind at 1. unfold action_body at 1. unfold mbind, lift.
      rewrite Hid. simpl. unfold insert_action, modify. rewrite IH.
      fold (add_actions [{| a_hand_id := id; a_action := a |}] d).
      by rewrite add_actions_app. }
    destruct acts; [|done]. by rewrite add_actions_nil.
  - destruct acts as [|a acts]; [done|]. simpl.
    unfold mbind at 1. unfold action_body at 1. unfold mbind, lift.
    by rewrite Hid.
Qed.

Lemma enumerate_zip {A} (l : list A) :
  enumerate l = zip (seq 0 (length l)) l.
Proof. done. Qed.

Lemma insert_hand_ok hand_id id row d :
  sql_rowid hand_id = Some id →
  insert_hand hand_id row d = (with_hand id row d, Ok id).
Proof.
  intros Hid. unfold insert_hand, with_hand. rewrite Hid.
  by destruct (hands d !! id).
Qed.

(** What [ingest_hand] does on a record that has the seven scalar fields, a
    valid identifier, [players] and [starting_stacks]: the hand row, the
    seat rows, and then the action loop if no seat lacked an entry. *)
Lemma ingest_hand_seats hand hand_id id row ps ss wl d :
  scalars_present hand hand_id id row →
  hand !! "players" = Some (VStrs ps) →
  hand !! "starting_stacks" = Some (VFloats ss) →
  winnings_list hand = Ok wl →
  ingest_hand hand d
  = let rows := seat_rows id 0 ps ss wl in
    let d1 := add_players rows (with_hand id row d) in
    if bool_decide (length rows = length ps) then
      mbind (lift (get_strs hand "actions"))
        (for_each (action_body hand_id)) d1
    else (d1, Raise IndexError).
Proof.
  intros [] Hps Hss Hwl. unfold ingest_hand.
  unfold mbind, lift.
  rewrite !(get_str_lookup hand _ _) by eassumption.
  rewrite (insert_hand_ok _ id) by done. rewrite Hwl.
  rewrite (get_strs_lookup _ _ _ Hps).
  rewrite enumerate_zip, (seat_loop _ _ _ ss) by by apply get_floats_lookup.
  cbn zeta. rewrite !drop_0.
  replace {| h_variant := _; h_venue := _; h_table_name := _; h_day := _;
             h_month := _; h_year := _ |} with row by by destruct row.
  by case_bool_decide.
Qed.

(** The same with the [actions] list at hand. *)
Lemma ingest_hand_complete hand hand_id id row ps ss wl acts d :
  scalars_present hand hand_id id row →
  hand !! "players" = Some (VStrs ps) →
  hand !! "starting_stacks" = Some (VFloats ss) →
  winnings_list hand = Ok wl →
  hand !! "actions" = Some (VStrs acts) →
  ingest_hand hand d
  = let rows := seat_rows id 0 ps ss wl in
    let d1 := add_players rows (with_hand id row d) in
    if bool_decide (length rows = length ps) then
      match acts, py_int hand_id with
      | [], _ => (d1, Ok ())
      | _ :: _, None => (d1, Raise ValueError)
      | _ :: _, Some aid => (add_actions (action_rows aid acts) d1, Ok ())
      end
    else (d1, Raise IndexError).
Proof.
  intros Hsc Hps Hss Hwl Hacts.
  rewrite (ingest_hand_seats hand hand_id id row ps ss wl) by done.
  cbn zeta. case_bool_decide; [|done].
  unfold mbind, lift. rewrite (get_strs_lookup _ _ _ Hacts), action_loop.
  by destruct acts, (py_int hand_id).
Qed.

(** *** Inversion of a successful run *)

Lemma mbind_lift_inv {A B} (r : result A) (k : A → M B) d d' (b : B) :
  mbind (lift r) k d = (d', Ok b) → ∃ a, r = Ok a ∧ k a d = (d', Ok b).
Proof. unfold mbind, lift. destruct r as [a|e]; [eauto|done]. Qed.

Lemma mbind_inv {A B} (m : M A) (k : A → M B) d d' (b : B) :
  mbind m k d = (d', Ok b) →
  ∃ a d1, m d = (d1, Ok a) ∧ k a d1 = (d', Ok b).
Proof.
  unfold mbind. destruct (m d) as [d1 [a|e]]; [eauto|done].
Qed.

Lemma get_str_inv (hand : raw_hand) key s :
  get_str hand key = Ok s → hand !! key = Some (VStr s).
Proof.
  unfold get_str, getitem. destruct (hand !! key) as [[]|]; simpl; congruence.
Qed.

Lemma get_strs_inv (hand : raw_hand) key l :
  get_strs hand key = Ok l → hand !! key = Some (VStrs l).
Proof.
  unfold get_strs, getitem. destruct (hand !! key) as [[]|]; simpl; congruence.
Qed.

Lemma get_floats_inv (hand : raw_hand) key l :
  get_floats hand key = Ok l → hand !! key = Some (VFloats l).
Proof.
  unfold get_floats, getitem.
  destruct (hand !! key) as [[]|]; simpl; congruence.
Qed.

Lemma insert_hand_inv hand_id row d d' id :
  insert_hand hand_id row d = (d', Ok id) →
  sql_rowid hand_id = Some id ∧ d' = with_hand id row d.
Proof.
  unfold insert_hand, with_hand. destruct (sql_rowid hand_id); [|done].
  intros [= <- <-]. by destruct (hands d !! z).
Qed.

(** Without [starting_stacks] the seat loop raises at its first iteration,
    if there is one. *)
Lemma seat_loop_no_stacks hand id wl e ps i d :
  get_floats hand "starting_stacks" = Raise e →
  for_each (seat_body hand id wl) (zip (seq i (length ps)) ps) d
  = match ps with [] => (d, Ok ()) | _ :: _ => (d, Raise e) end.
Proof.
  intros Hss. destruct ps as [|p ps]; [done|].
  cbn [length seq zip_with for_each]. unfold mbind at 1.
  unfold seat_body, mbind, lift. by rewrite Hss.
Qed.

(** A run of [ingest_hand] that returns has found every field it reads and
    has stored one seat row per player and one action row per action. *)
Lemma ingest_hand_inv hand d d' :
  ingest_hand hand d = (d', Ok ()) →
  ∃ hand_id id row ps ss wl acts arows,
    scalars_present hand hand_id id row
    ∧ hand !! "players" = Some (VStrs ps)
    ∧ winnings_list hand = Ok wl
    ∧ hand !! "actions" = Some (VStrs acts)
    ∧ length (seat_rows id 0 ps ss wl) = length ps
    ∧ a_action <$> arows = acts
    ∧ Forall (λ r, py_int hand_id = Some (a_hand_id r)) arows
    ∧ d' = add_actions arows
             (add_players (seat_rows id 0 ps ss wl) (with_hand id row d)).
Proof.
  unfold ingest_hand. intros Hrun.
  apply mbind_lift_inv in Hrun as (hand_id & Hhand%get_str_inv & Hrun).
  apply mbind_lift_inv in Hrun as (variant & Hvariant%get_str_inv & Hrun).
  apply mbind_lift_inv in Hrun as (venue & Hvenue%get_str_inv & Hrun).
  apply mbind_lift_inv in Hrun as (table & Htable%get_str_inv & Hrun).
  apply mbind_lift_inv in Hrun as (day & Hday%get_str_inv & Hrun).
  apply mbind_lift_inv in Hrun as (month & Hmonth%get_str_inv & Hrun).
  apply mbind_lift_inv in Hrun as (year & Hyear%get_str_inv & Hrun).
  apply mbind_inv in Hrun as (id & d1 & [Hid ->]%insert_hand_inv & Hrun).
  apply mbind_lift_inv in Hrun as (wl & Hwl & Hrun).
  apply mbind_lift_inv in Hrun as (ps & Hps%get_strs_inv & Hrun).
  apply mbind_inv in Hrun as ([] & d2 & Hseats & Hrun).
  apply mbind_lift_inv in Hrun as (acts & Hacts%get_strs_inv & Hrun).
  set (row := {| h_variant := variant; h_venue := venue;
                 h_table_name := table; h_day := day; h_month := month;
                 h_year := year |}) in *.
  assert (∃ ss, length (seat_rows id 0 ps ss wl) = length ps
                ∧ d2 = add_players (seat_rows id 0 ps ss wl)
                         (with_hand id row d)) as (ss & Hlen & ->).
  { rewrite enumerate_zip in Hseats.
    destruct (get_floats hand "starting_stacks") as [ss|e] eqn:Hss.
    - rewrite (seat_loop _ _ _ ss) in Hseats by done.
      cbn zeta in Hseats. rewrite !drop_0 in Hseats.
      case_bool_decide; [|done]. exists ss. split; [done|]. congruence.
    - rewrite (seat_loop_no_stacks _ _ _ e) in Hseats by done.
      destruct ps; [|done]. exists []. split; [done|].
      simpl. rewrite add_players_nil. congruence. }
  rewrite action_loop in Hrun.
  exists hand_id, id, row, ps, ss, wl, acts.
  destruct acts as [|a acts].
  - exists []. injection Hrun as <-. rewrite add_actions_nil.
    repeat split; try done.
  - destruct (py_int hand_id) as [aid|] eqn:Haid; [|done].
    exists (action_rows aid (a :: acts)). injection Hrun as <-.
    repeat split; try done.
    + unfold action_rows. rewrite <-list_fmap_compose. apply list_fmap_id.
    + unfold action_rows. apply Forall_fmap, Forall_true. done.
Qed.

End ingestion_facts.

(** *** Rows appended by a run, whether it returns or raises *)

Section appended_seats.
Context `{Conversions}.
Context (P : seat_row → Prop).

Lemma seats_added_same d d' : players d' = players d → seats_added P d d'.
Proof. intros E. exists []. by rewrite app_nil_r. Qed.

Lemma seats_added_refl d : seats_added P d d.
Proof. by apply seats_added_same. Qed.

Lemma seats_added_trans d1 d2 d3 :
  seats_added P d1 d2 → seats_added P d2 d3 → seats_added P d1 d3.
Proof.
  intros (rows & E1 & F1) (rows' & E2 & F2). exists (rows ++ rows').
  split; [by rewrite E2, E1, app_assoc|]. by apply Forall_app.
Qed.

Lemma appends_lift_bind {A B} (r : result A) (k : A → M B) :
  (∀ a, r = Ok a → appends_seats P (k a)) →
  appends_seats P (mbind (lift r) k).
Proof.
  intros Hk d. unfold mbind, lift. destruct r as [a|e]; simpl.
  - by apply Hk.
  - apply seats_added_refl.
Qed.

Lemma appends_bind {A B} (m : M A) (k : A → M B) :
  appends_seats P m → (∀ a, appends_seats P (k a)) →
  appends_seats P (mbind m k).
Proof.
  intros Hm Hk d. unfold mbind. specialize (Hm d).
  destruct (m d) as [d1 [a|e]]; simpl in *; [|done].
  eapply seats_added_trans; [done|]. apply Hk.
Qed.

Lemma appends_for_each {A} (body : A → M unit) (l : list A) :
  (∀ x, x ∈ l → appends_seats P (body x)) →
  appends_seats P (for_each body l).
Proof.
  induction l as [|x l IH]; intros Hbody; simpl.
  { intros d. apply seats_added_refl. }
  apply appends_bind.
  - apply Hbody. by left.
  - intros _. apply IH. intros y Hy. apply Hbody. by right.
Qed.

Lemma appends_insert_hand hand_id row :
  appends_seats P (insert_hand hand_id row).
Proof.
  intros d. unfold insert_hand. destruct (sql_rowid hand_id); simpl.
  - by destruct (hands d !! z); apply seats_added_same.
  - apply seats_added_refl.
Qed.

Lemma appends_insert_player row : P row → appends_seats P (insert_player row).
Proof. intros Hrow d. exists [row]. split; [done|]. by constructor. Qed.

Lemma appends_insert_action row : appends_seats P (insert_action row).
Proof. intros d. by apply seats_added_same. Qed.

(** The seat rows of [ingest_hand] take their winnings from
    [winnings_list]. *)
Lemma ingest_hand_appends hand :
  (∀ wl w, winnings_list hand = Ok wl → w ∈ wl →
     ∀ row, p_winnings row = to_real w → P row) →
  appends_seats P (ingest_hand hand).
Proof.
  intros HP. unfold ingest_hand.
  do 7 (apply appends_lift_bind; intros ? _).
  apply appends_bind; [apply appends_insert_hand|]. intros id.
  apply appends_lift_bind. intros wl Hwl.
  apply appends_lift_bind. intros ps _.
  apply appends_bind.
  - apply appends_for_each. intros [i p] _. unfold seat_body.
    apply appends_lift_bind. intros stacks _.
    apply appends_lift_bind. intros stack _.
    apply appends_lift_bind. intros w Hw.
    apply appends_insert_player. eapply (HP wl w); [done| |done].
    unfold index in Hw. destruct (wl !! i) as [w'|] eqn:Hi; [|done].
    injection Hw as ->. by eapply list_elem_of_lookup_2.
  - intros _. apply appends_lift_bind. intros acts _.
    apply appends_for_each. intros action _. unfold action_body.
    apply appends_lift_bind. intros aid _. apply appends_insert_action.
Qed.

End appended_seats.

(** ** Normalisation of one record *)

Section record_claims.
Context `{Conversions}.

Lemma players_with_hand id row d : players (with_hand id row d) = players d.
Proof. unfold with_hand. by destruct (hands d !! id). Qed.

Lemma actions_with_hand id row d : actions (with_hand id row d) = actions d.
Proof. unfold with_hand. by destruct (hands d !! id). Qed.

Lemma seat_rows_hand_id id i ps ss wl :
  Forall (λ s, p_hand_id s = id) (seat_rows id i ps ss wl).
Proof.
  revert i ss wl. induction ps as [|p ps IH]; intros i [|s ss] [|w wl];
    simpl; try by constructor.
Qed.

Lemma winnings_list_default (hand : raw_hand) ps :
  hand !! "players" = Some (VStrs ps) → hand !! "winnings" = None →
  winnings_list hand = Ok (replicate (length ps) (PyInt 0)).
Proof.
  intros Hps Hw. unfold winnings_list.
  by rewrite (get_strs_lookup _ _ _ Hps), Hw.
Qed.

(** C8. A record with [players] and [starting_stacks] but no [winnings]
    gets a winnings list of [len(players)] zeros, and every seat row that
    normalisation stores for it has winnings zero; when normalisation
    returns there is one such row per player. *)
Theorem missing_winnings_default_zero (hand : raw_hand) ps ss :
  hand !! "players" = Some (VStrs ps) →
  hand !! "starting_stacks" = Some (VFloats ss) →
  hand !! "winnings" = None →
  winnings_list hand = Ok (replicate (length ps) (PyInt 0))
  ∧ ∀ d, ∃ rows,
      players (ingest_hand hand d).1 = players d ++ rows
      ∧ Forall (λ row, p_winnings row = Fin 0) rows
      ∧ ((ingest_hand hand d).2 = Ok () → length rows = length ps).
Proof.
  intros Hps _ Hw.
  pose proof (winnings_list_default hand ps Hps Hw) as Hwl.
  split; [done|]. intros d.
  destruct (ingest_hand_appends (λ row, p_winnings row = Fin 0) hand)
    with (d := d) as (rows & Hrows & Hzero).
  { intros wl w Hwl' Hin row ->. rewrite Hwl in Hwl'. injection Hwl' as <-.
    by apply elem_of_replicate in Hin as [-> _]. }
  exists rows. split_and!; [done..|].
  destruct (ingest_hand hand d) as [d' [[]|e]] eqn:Hrun; simpl in *; [|done].
  intros _.
  apply ingest_hand_inv in Hrun
    as (hand_id & id & row & ps' & ss' & wl & acts & arows
        & _ & Hps' & _ & _ & Hlen & _ & _ & ->).
  rewrite Hps in Hps'. injection Hps' as <-.
  simpl in Hrows. rewrite players_with_hand in Hrows.
  apply app_inv_head in Hrows as <-. done.
Qed.

(** C3 (amended). When normalisation of a record returns, the number of
    seat rows stored under its identifier has grown by [len(players)] and
    the number of action rows stored under it by [len(actions)]; the two
    lengths are unrelated. *)
Theorem normalized_row_counts (hand : raw_hand) d d' :
  ingest_hand hand d = (d', Ok ()) →
  ∃ hand_id id ps acts,
    hand !! "hand" = Some (VStr hand_id)
    ∧ sql_rowid hand_id = Some id
    ∧ hand !! "players" = Some (VStrs ps)
    ∧ hand !! "actions" = Some (VStrs acts)
    ∧ seat_count id d' = (seat_count id d + length ps)%nat
    ∧ (∀ aid, py_int hand_id = Some aid →
         action_count aid d' = (action_count aid d + length acts)%nat).
Proof.
  intros Hrun.
  apply ingest_hand_inv in Hrun
    as (hand_id & id & row & ps & ss & wl & acts & arows
        & Hsc & Hps & _ & Hacts & Hlen & Harows & Haid & ->).
  exists hand_id, id, ps, acts. destruct Hsc. split_and!; try done.
  - unfold seat_count. simpl. rewrite players_with_hand, filter_app, length_app.
    f_equal. rewrite <-Hlen. f_equal.
    apply filter_Forall, seat_rows_hand_id.
  - intros aid Hpy. unfold action_count. simpl.
    rewrite actions_with_hand, filter_app, length_app. f_equal.
    rewrite <-Harows, length_fmap. f_equal.
    apply filter_Forall. eapply Forall_impl; [done|].
    intros r Hr. simpl in Hr. congruence.
Qed.

(** C2 (amended). On a record with the scalar fields and a valid
    identifier: if [starting_stacks] is shorter than [players] (and the
    winnings list is not shorter than [starting_stacks]), normalisation
    stores the hand row and the seat rows of the first
    [len(starting_stacks)] seats and then raises [IndexError], and the
    records after it are not processed; if [starting_stacks] is longer
    than [players] (and the winnings list covers every player) no
    [IndexError] is raised and one seat row per player is stored. *)
Theorem stack_length_mismatch (hand : raw_hand) hand_id id row ps ss wl :
  scalars_present hand hand_id id row →
  hand !! "players" = Some (VStrs ps) →
  hand !! "starting_stacks" = Some (VFloats ss) →
  winnings_list hand = Ok wl →
  (length ss < length ps → length ss ≤ length wl →
     ∀ rest d,
       let rows := seat_rows id 0 ps ss wl in
       length rows = length ss
       ∧ for_each ingest_hand (hand :: rest) d
         = (add_players rows (with_hand id row d), Raise IndexError))%nat
  ∧ (length ps < length ss → length ps ≤ length wl →
     ∀ d,
       let rows := seat_rows id 0 ps ss wl in
       length rows = length ps
       ∧ players (ingest_hand hand d).1 = players d ++ rows
       ∧ (ingest_hand hand d).2 ≠ Raise IndexError)%nat.
Proof.
  intros Hsc Hps Hss Hwl. split.
  - intros Hshort Hw rest d. cbn zeta. split.
    { rewrite length_seat_rows. lia. }
    cbn [for_each]. unfold mbind at 1.
    rewrite (ingest_hand_seats hand hand_id id row ps ss wl) by done.
    cbn zeta. rewrite bool_decide_eq_false_2; [done|].
    rewrite length_seat_rows. lia.
  - intros Hlong Hw d. cbn zeta.
    assert (length (seat_rows id 0 ps ss wl) = length ps) as Hlen.
    { rewrite length_seat_rows. lia. }
    split; [done|].
    rewrite (ingest_hand_seats hand hand_id id row ps ss wl) by done.
    cbn zeta. rewrite bool_decide_eq_true_2 by done. unfold mbind, lift.
    destruct (get_strs hand "actions") as [acts|e] eqn:Hacts.
    + rewrite action_loop.
      destruct acts, (py_int hand_id); simpl;
        by rewrite players_with_hand.
    + simpl. rewrite players_with_hand. split; [done|].
      unfold get_strs, getitem in Hacts.
      destruct (hand !! "actions") as [[]|]; simpl in Hacts; congruence.
Qed.

End record_claims.

(** ** Scenarios of normalisation *)

Section record_scenarios.
#[local] Existing Instance decimal_conversions.

Lemma make_record_scalars id z ps ss ws acts :
  Decimal.read_rowid id = Some z →
  scalars_present (make_record id ps ss ws acts) id z sample_row.
Proof. intros Hz. destruct ws; constructor; (reflexivity || exact Hz). Qed.

(** The scenario records are what the parser reads from their files. *)
Lemma scenario_records_parse :
  parse_poker_file
    (phhs_record "1" "['P1', 'P2']" "[100.0, 100.0, 100.0]" None
       "['P1 cbr 10', 'P2 f']") = Ok [long_stacks]
  ∧ parse_poker_file
      (phhs_record "1" "['P1', 'P2']" "[100.0]" None "['P1 cbr 10', 'P2 f']")
    = Ok [short_stacks]
  ∧ parse_poker_file
      (phhs_record "1" "['P1', 'P2']" "[100.0, 100.0]" None
         "['P1 cbr 10', 'P2 cc', 'P1 cc']") = Ok [three_actions].
Proof. split_and!; by vm_compute. Qed.

Lemma missing_winnings_default_zero_witness :
  winnings_list three_actions = Ok [PyInt 0; PyInt 0]
  ∧ ∀ d, ∃ rows,
      players (ingest_hand three_actions d).1 = players d ++ rows
      ∧ Forall (λ row, p_winnings row = Fin 0) rows
      ∧ ((ingest_hand three_actions d).2 = Ok () → length rows = 2%nat).
Proof.
  apply (missing_winnings_default_zero three_actions ["'P1'"; "'P2'"]
           [Fin 100; Fin 100]); reflexivity.
Defined.

(** C3 (as stated) fails: a hand with two players and three actions is
    normalised into two seat rows, which is not the length of its
    [actions] list. *)
Lemma seat_rows_differ_from_actions :
  ingest_hand three_actions empty_db
  = ((ingest_hand three_actions empty_db).1, Ok ())
  ∧ ¬ seats_match_actions_and_players 1 ["'P1'"; "'P2'"]
        ["'P1 cbr 10'"; "'P2 cc'"; "'P1 cc'"]
        (ingest_hand three_actions empty_db).1.
Proof.
  split; [by vm_compute|].
  intros [Hacts _]. vm_compute in Hacts. discriminate.
Qed.

Lemma normalized_row_counts_witness :
  ∃ hand_id id ps acts,
    three_actions !! "hand" = Some (VStr hand_id)
    ∧ sql_rowid hand_id = Some id
    ∧ three_actions !! "players" = Some (VStrs ps)
    ∧ three_actions !! "actions" = Some (VStrs acts)
    ∧ seat_count id (ingest_hand three_actions empty_db).1
      = (seat_count id empty_db + length ps)%nat
    ∧ (∀ aid, py_int hand_id = Some aid →
         action_count aid (ingest_hand three_actions empty_db).1
         = (action_count aid empty_db + length acts)%nat).
Proof.
  apply (normalized_row_counts three_actions empty_db). vm_compute.
  reflexivity.
Defined.

(** C2 (as stated) fails: with three stacks for two players no exception is
    raised and both seat rows are stored. *)
Lemma longer_stacks_accepted :
  long_stacks !! "players" = Some (VStrs ["'P1'"; "'P2'"])
  ∧ long_stacks !! "starting_stacks"
    = Some (VFloats [Fin 100; Fin 100; Fin 100])
  ∧ ¬ shape_mismatch_rejected long_stacks empty_db.
Proof.
  split_and!; [done..|].
  intros [[e He] _]. vm_compute in He. discriminate.
Qed.

Lemma stack_length_mismatch_witness :
  (length (seat_rows 1 0 ["'P1'"; "'P2'"] [Fin 100] [PyInt 0; PyInt 0])
   = 1%nat
   ∧ for_each ingest_hand [short_stacks; three_actions] empty_db
     = (add_players
          (seat_rows 1 0 ["'P1'"; "'P2'"] [Fin 100] [PyInt 0; PyInt 0])
          (with_hand 1 sample_row empty_db), Raise IndexError))
  ∧ (length (seat_rows 1 0 ["'P1'"; "'P2'"] [Fin 100; Fin 100; Fin 100]
               [PyInt 0; PyInt 0]) = 2%nat
     ∧ players (ingest_hand long_stacks empty_db).1
       = players empty_db
         ++ seat_rows 1 0 ["'P1'"; "'P2'"] [Fin 100; Fin 100; Fin 100]
              [PyInt 0; PyInt 0]
     ∧ (ingest_hand long_stacks empty_db).2 ≠ Raise IndexError).
Proof.
  split.
  - apply (proj1 (stack_length_mismatch short_stacks "1" 1 sample_row
                    ["'P1'"; "'P2'"] [Fin 100] [PyInt 0; PyInt 0]
                    (make_record_scalars "1" 1 _ _ _ _ eq_refl)
                    eq_refl eq_refl eq_refl)); simpl; lia.
  - apply (proj2 (stack_length_mismatch long_stacks "1" 1 sample_row
                    ["'P1'"; "'P2'"] [Fin 100; Fin 100; Fin 100]
                    [PyInt 0; PyInt 0]
                    (make_record_scalars "1" 1 _ _ _ _ eq_refl)
                    eq_refl eq_refl eq_refl)); simpl; lia.
Defined.

(** C6 (as stated) fails: the scenario's record has no [variant] field, so
    building the first parameter tuple raises [KeyError] and nothing is
    stored; and once the scalar fields are supplied, the stored action
    tokens are the quoted list elements, not the bare tokens. *)
Lemma scenario_not_stored_as_stated :
  for_each ingest_file [scenario_file] empty_db
  = (empty_db, Raise (KeyError "variant"))
  ∧ ¬ scenario_stored_unquoted
        (for_each ingest_file [scenario_file] empty_db).1
  ∧ ¬ scenario_stored_unquoted
        (for_each ingest_file [scenario_file_full] empty_db).1.
Proof.
  split_and!.
  - by vm_compute.
  - intros (_ & Hp & _). vm_compute in Hp. discriminate.
  - intros (_ & _ & Ha). vm_compute in Ha. discriminate.
Qed.

(** C6 (amended). The scenario's lines parse to one record whose list
    elements keep their quotes; completed with the six other scalar
    fields, whatever their values, the record is normalised on the cleared
    store into one hand row with identifier 1, two seat rows (P1, seat 1,
    stack 100, winnings 50; P2, seat 2, stack 100, winnings -50) and two
    action rows holding ['P1 cbr 10'] and ['P2 f'] with their quotes; the
    same store results from the file that writes the six fields out. *)
Theorem scenario_stored_with_scalars :
  parse_poker_file scenario_file = Ok [scenario_record]
  ∧ (∀ row, ingest_hand (with_scalars row scenario_record) (clear empty_db)
            = (scenario_store row, Ok ()))
  ∧ for_each ingest_file [scenario_file_full] (clear empty_db)
    = (scenario_store sample_row, Ok ()).
Proof.
  split_and!.
  - by vm_compute.
  - intros []. by vm_compute.
  - by vm_compute.
Qed.

(** A file that writes [actions = []] yields one action row, with the empty
    token: its hand does reach the query. *)
Example empty_brackets_store_one_action :
  actions (for_each ingest_file
             [phhs_record "1" "['P1', 'P2']" "[100.0, 100.0]" None "[]"]
             empty_db).1
  = [ {| a_hand_id := 1; a_action := "" |} ].
Proof. by vm_compute. Qed.

End record_scenarios.

(** ** The metrics query *)

Section query_facts.
Context `{Binary64}.

Lemma count_distinct_ext (l1 l2 : list Z) :
  (∀ x, x ∈ l1 ↔ x ∈ l2) → Sql.count_distinct l1 = Sql.count_distinct l2.
Proof.
  intros Hext. unfold Sql.count_distinct. f_equal.
  apply Permutation_length, NoDup_Permutation.
  - apply NoDup_remove_dups.
  - apply NoDup_remove_dups.
  - intros x. by rewrite !elem_of_remove_dups.
Qed.

Lemma count_distinct_mono (l1 l2 : list Z) :
  (∀ x, x ∈ l1 → x ∈ l2) → Sql.count_distinct l1 ≤ Sql.count_distinct l2.
Proof.
  intros Hsub. unfold Sql.count_distinct. apply Nat2Z.inj_le.
  apply submseteq_length, NoDup_submseteq; [apply NoDup_remove_dups|].
  intros x. rewrite !elem_of_remove_dups. apply Hsub.
Qed.

Lemma count_distinct_pos (l : list Z) x :
  x ∈ l → 0 < Sql.count_distinct l.
Proof.
  intros Hx. unfold Sql.count_distinct.
  apply elem_of_remove_dups in Hx.
  destruct (remove_dups l); [by apply elem_of_nil in Hx|simpl; lia].
Qed.

(** The join followed by the [WHERE] clause is the inner join. *)
Lemma joined_inner d :
  joined d
  = s ← players d; (λ a, (s, a)) <$> hand_actions d (p_hand_id s).
Proof.
  unfold joined, left_join, where_clause.
  induction (players d) as [|s l IH]; [done|].
  rewrite !bind_cons, omap_app, IH. f_equal.
  unfold hand_actions.
  destruct (filter _ (actions d)) as [|a l']; [done|].
  generalize (a :: l'). intros l''. induction l''; [done|].
  cbn. by f_equal.
Qed.

Lemma group_joined d key :
  group (joined d) key
  = s ← seats_of d key; (λ a, (s, a)) <$> hand_actions d (p_hand_id s).
Proof.
  rewrite joined_inner. unfold group, seats_of.
  induction (players d) as [|s l IH]; [done|].
  rewrite !bind_cons, filter_app, IH.
  destruct (decide (p_player_id s = key)) as [Hk|Hk].
  - rewrite (filter_cons_True _ s) by done. rewrite bind_cons. f_equal.
    apply filter_Forall, Forall_fmap, Forall_true. done.
  - rewrite (filter_cons_False _ s) by done.
    rewrite filter_Forall_not; [done|].
    apply Forall_fmap, Forall_true. done.
Qed.

Lemma elem_of_group d key s a :
  (s, a) ∈ group (joined d) key
  ↔ s ∈ players d ∧ p_player_id s = key
    ∧ a ∈ actions d ∧ p_hand_id s = a_hand_id a.
Proof.
  rewrite group_joined, list_elem_of_bind. split.
  - intros (s' & Hin & Hs').
    apply list_elem_of_fmap in Hin as (a' & [= -> ->] & Ha').
    apply list_elem_of_filter in Hs' as [? ?].
    apply list_elem_of_filter in Ha' as [? ?]. done.
  - intros (Hs & Hk & Ha & Hid). exists s. split.
    + apply list_elem_of_fmap. exists a. split; [done|].
      by apply list_elem_of_filter.
    + by apply list_elem_of_filter.
Qed.

(** The distinct hands a [CASE] expression counts are the hands of the
    player's seats that have an action row satisfying the condition. *)
Lemma elem_of_hand_ids_when d key (c : seat_row → action_row → bool) x :
  x ∈ hand_ids_when (λ r, c r.1 r.2) (group (joined d) key)
  ↔ x ∈ hands_with d key c.
Proof.
  unfold hand_ids_when, hands_with. rewrite !list_elem_of_fmap. split.
  - intros ([s a] & -> & Hr). apply list_elem_of_filter in Hr as [Hc Hr].
    apply elem_of_group in Hr as (Hs & Hk & Ha & Hid). simpl in *.
    exists s. split; [done|]. apply list_elem_of_filter. split.
    + apply Exists_exists. exists a. split; [|done].
      by apply list_elem_of_filter.
    + by apply list_elem_of_filter.
  - intros (s & -> & Hs). apply list_elem_of_filter in Hs as [Hex Hs].
    apply Exists_exists in Hex as (a & Ha & Hc).
    apply list_elem_of_filter in Ha as [Hid Ha].
    apply list_elem_of_filter in Hs as [Hk Hs].
    exists (s, a). split; [done|]. apply list_elem_of_filter. split; [done|].
    by apply elem_of_group.
Qed.

Lemma count_when d key (c : string → bool) :
  Sql.count (filter (λ r : seat_row * action_row, c (a_action r.2))
               (group (joined d) key))
  = pairs_with d key c.
Proof.
  rewrite group_joined. unfold Sql.count, pairs_with. f_equal.
  induction (seats_of d key) as [|s l IH]; [done|].
  rewrite bind_cons. cbn [sum_list_with].
  rewrite filter_app, length_app, IH. f_equal.
  induction (hand_actions d (p_hand_id s)) as [|a l' IH']; [done|].
  rewrite fmap_cons, !filter_cons. simpl.
  destruct (decide (c (a_action a))); simpl; by rewrite IH'.
Qed.

(** [ORDER BY] permutes the rows. *)
Lemma insert_desc_perm r l : insert_desc r l ≡ₚ r :: l.
Proof.
  induction l as [|r' l IH]; [done|]. simpl.
  destruct (precedes r r'); [done|]. rewrite IH. apply Permutation_swap.
Qed.

Lemma order_by_perm l : order_by_vpip_desc l ≡ₚ l.
Proof.
  induction l as [|r l IH]; [done|]. simpl.
  by rewrite insert_desc_perm, IH.
Qed.

(** The rows of the result: one per group with more than ten hands. *)
Lemma elem_of_query d r :
  r ∈ query d
  ↔ ∃ key, key ∈ group_keys (joined d)
           ∧ r = aggregate key (group (joined d) key)
           ∧ 10 < total_hands r.
Proof.
  unfold query. rewrite order_by_perm, list_elem_of_filter, list_elem_of_fmap.
  split.
  - intros (Hgt & key & -> & Hkey). by exists key.
  - intros (key & Hkey & -> & Hgt). split; [done|]. by exists key.
Qed.

Lemma elem_of_group_keys d key :
  key ∈ group_keys (joined d) ↔ group (joined d) key ≠ [].
Proof.
  unfold group_keys, group.
  rewrite elem_of_remove_dups, list_elem_of_fmap. split.
  - intros (r & -> & Hr) Hnil.
    by apply (filter_nil_not_elem_of _ _ r Hnil).
  - intros Hne. destruct (filter _ _) as [|r l] eqn:Hf; [done|].
    assert (r ∈ filter (λ r, p_player_id r.1 = key) (joined d)) as Hr.
    { rewrite Hf. by left. }
    apply list_elem_of_filter in Hr as [Hk Hr]. by exists r.
Qed.

Lemma total_hands_pos_group d key :
  0 < total_hands_of (group (joined d) key) → group (joined d) key ≠ [].
Proof. intros Hpos Hnil. rewrite Hnil in Hpos. by vm_compute in Hpos. Qed.

(** C5. A player is in the query result exactly when the query counts more
    than ten distinct hands for it, that is, distinct hands in which the
    player has a seat and which have an action row: with eleven such hands
    it has a row, with ten it has none. *)
Theorem qualification_boundary (d : db) (key : string) :
  let n := total_hands_of (group (joined d) key) in
  (n = 11 → ∃ r, r ∈ query d ∧ player_id r = key ∧ total_hands r = 11)
  ∧ (n = 10 → ¬ ∃ r, r ∈ query d ∧ player_id r = key)
  ∧ ((∃ r, r ∈ query d ∧ player_id r = key) ↔ 10 < n)
  ∧ n = Sql.count_distinct (hands_with d key (λ _ _, true)).
Proof.
  intros n.
  assert ((∃ r, r ∈ query d ∧ player_id r = key) ↔ 10 < n) as Hiff.
  { split.
    - intros (r & (key' & _ & -> & Hgt)%elem_of_query & Hkey).
      simpl in *. by subst key'.
    - intros Hgt. exists (aggregate key (group (joined d) key)).
      split; [|done]. apply elem_of_query. exists key. split_and!; [|done..].
      apply elem_of_group_keys, total_hands_pos_group. fold n. lia. }
  split_and!; [| |done|].
  - intros Hn. destruct (proj2 Hiff) as (r & Hr & Hkey); [lia|].
    exists r. split_and!; [done..|].
    apply elem_of_query in Hr as (key' & _ & -> & _). simpl in *.
    by subst key'.
  - intros Hn Hex. apply Hiff in Hex. lia.
  - apply count_distinct_ext. intros x.
    apply (elem_of_hand_ids_when d key (λ _ _, true)).
Qed.

End query_facts.

Section query_claims.
Context `{Binary64}.

(** X1. What the query computes: for every row of its result,
    [vpip_hands] is the number of distinct hands in which the player has a
    seat and some action row of that hand, whoever its actor is, matches a
    voluntary-money marker; [aggressive_actions] and [passive_actions]
    count the pairs of a seat row of the player and a matching action row
    of the same hand, again whoever acts; the showdown percentage is
    computed from the distinct hands, among those with an action row, in
    which the player's own winnings are positive. *)
Theorem query_counts_are_per_hand (d : db) (r : stat_row) :
  r ∈ query d →
  vpip_hands r
  = Sql.count_distinct
      (hands_with d (player_id r) (λ _ a, is_vpip (a_action a)))
  ∧ aggressive_actions r = pairs_with d (player_id r) is_aggressive
  ∧ passive_actions r = pairs_with d (player_id r) is_passive
  ∧ total_hands r
    = Sql.count_distinct (hands_with d (player_id r) (λ _ _, true))
  ∧ showdown_win_percent r
    = percent_of
        (Sql.count_distinct (hands_with d (player_id r) (λ s _, won s)))
        (total_hands r).
Proof.
  intros (key & _ & -> & _)%elem_of_query. simpl. split_and!.
  - apply count_distinct_ext. intros x.
    apply (elem_of_hand_ids_when d key (λ _ a, is_vpip (a_action a))).
  - apply count_when.
  - apply count_when.
  - apply count_distinct_ext. intros x.
    apply (elem_of_hand_ids_when d key (λ _ _, true)).
  - f_equal. apply count_distinct_ext. intros x.
    apply (elem_of_hand_ids_when d key (λ s _, won s)).
Qed.

End query_claims.

(** ** Derived percentages *)

Section metric_facts.
Context `{Binary64}.

Lemma rnd_nonneg (x : Q) : (0 <= x)%Q → (0 <= rnd x)%Q.
Proof.
  intros Hx. apply Qle_trans with (rnd 0); [|by apply rnd_mono].
  rewrite rnd_0. apply Qle_refl.
Qed.

Lemma rnd_le_1 (x : Q) : (x <= 1)%Q → (rnd x <= 1)%Q.
Proof.
  intros Hx. apply Qle_trans with (rnd 1); [by apply rnd_mono|].
  rewrite rnd_1. apply Qle_refl.
Qed.

Lemma rnd_le_100 (x : Q) : (x <= 100)%Q → (rnd x <= 100)%Q.
Proof.
  intros Hx. apply Qle_trans with (rnd 100); [by apply rnd_mono|].
  rewrite rnd_100. apply Qle_refl.
Qed.

Lemma rnd_ge_1 (x : Q) : (1 <= x)%Q → (1 <= rnd x)%Q.
Proof.
  intros Hx. apply Qle_trans with (rnd 1); [|by apply rnd_mono].
  rewrite rnd_1. apply Qle_refl.
Qed.

Lemma inject_Z_le (a b : Z) : a ≤ b → (inject_Z a <= inject_Z b)%Q.
Proof. intros Hab. by rewrite <-Zle_Qle. Qed.

(** A rounded ratio of two counts, times one hundred, is a percentage. *)
Lemma percent_bounds (a b : Z) :
  0 ≤ a ≤ b → b ≠ 0 →
  (0 <= rnd (rnd (rnd (inject_Z a) / rnd (inject_Z b)) * 100) <= 100)%Q.
Proof.
  intros [Ha Hab] Hb.
  assert (0 <= rnd (inject_Z a))%Q as Ha'.
  { apply rnd_nonneg. by apply (inject_Z_le 0 a). }
  assert (1 <= rnd (inject_Z b))%Q as Hb'.
  { apply rnd_ge_1. apply (inject_Z_le 1 b). lia. }
  assert (rnd (inject_Z a) <= rnd (inject_Z b))%Q as Hab'.
  { apply rnd_mono. by apply inject_Z_le. }
  assert (0 < rnd (inject_Z b))%Q as Hpos.
  { eapply Qlt_le_trans; [|exact Hb']. reflexivity. }
  set (x := (rnd (inject_Z a) / rnd (inject_Z b))%Q).
  assert (0 <= x)%Q as Hx0.
  { apply Qle_shift_div_l; [done|]. by rewrite Qmult_0_l. }
  assert (x <= 1)%Q as Hx1.
  { apply Qle_shift_div_r; [done|]. by rewrite Qmult_1_l. }
  split.
  - apply rnd_nonneg. apply Qmult_le_0_compat; [by apply rnd_nonneg|done].
  - apply rnd_le_100.
    apply Qle_trans with (1 * 100)%Q; [|apply Qle_refl].
    apply Qmult_le_compat_r; [by apply rnd_le_1|done].
Qed.

Lemma count_distinct_nonneg l : 0 ≤ Sql.count_distinct l.
Proof. unfold Sql.count_distinct. lia. Qed.

Lemma hand_ids_when_subset (c : seat_row * action_row → bool) g x :
  x ∈ hand_ids_when c g → x ∈ hand_ids_when (λ _, true) g.
Proof.
  unfold hand_ids_when. rewrite !list_elem_of_fmap.
  intros (r & -> & [_ Hr]%list_elem_of_filter). exists r. split; [done|].
  by apply list_elem_of_filter.
Qed.

(** C7. For every row of the query result, [vpip_percent] is
    [vpip_hands / total_hands * 100] and [pfr_percent] is
    [passive_actions / (aggressive_actions + passive_actions) * 100], each
    computed in binary64; when the denominator is not zero the value is a
    finite number between 0 and 100. *)
Theorem percentages_in_range (d : db) (r : stat_row) :
  r ∈ query d →
  let m := derive r in
  vpip_percent m = times_100 (int_div (vpip_hands r) (total_hands r))
  ∧ total_actions m = passive_actions r + aggressive_actions r
  ∧ pfr_percent m = times_100 (int_div (passive_actions r) (total_actions m))
  ∧ (total_hands r ≠ 0 →
     ∃ q, vpip_percent m = Fin q
          ∧ q = rnd (rnd (rnd (inject_Z (vpip_hands r))
                          / rnd (inject_Z (total_hands r))) * 100)
          ∧ (0 <= q <= 100)%Q)
  ∧ (total_actions m ≠ 0 →
     ∃ q, pfr_percent m = Fin q
          ∧ q = rnd (rnd (rnd (inject_Z (passive_actions r))
                          / rnd (inject_Z (total_actions m))) * 100)
          ∧ (0 <= q <= 100)%Q).
Proof.
  intros (key & _ & -> & _)%elem_of_query. cbn zeta.
  split_and!; [done..| |].
  - intros Ht. simpl in *. eexists. split; [|split].
    + unfold int_div. by rewrite bool_decide_eq_false_2.
    + done.
    + apply percent_bounds; [|done]. split.
      * apply count_distinct_nonneg.
      * apply count_distinct_mono. intros x. apply hand_ids_when_subset.
  - intros Ht. simpl in *. eexists. split; [|split].
    + unfold int_div. by rewrite bool_decide_eq_false_2.
    + done.
    + apply percent_bounds; [|done].
      unfold passive_actions_of, aggressive_actions_of, Sql.count. lia.
Qed.

End metric_facts.

(** ** The whole run *)

Section pipeline_facts.
Context `{Conversions} `{Binary64} `{Sklearn}.

(** The load starts from the cleared tables. *)
Lemma refresh_ignores_store files d d' : refresh files d = refresh files d'.
Proof. done. Qed.

(** An exception anywhere in the load leaves the cleared tables. *)
Lemma refresh_aborts files stored d e :
  for_each ingest_file files (clear stored) = (d, Raise e) →
  refresh files stored = (empty_db, Raise e).
Proof. intros Hrun. unfold refresh. by rewrite Hrun. Qed.

(** With the seed fixed, the entropy of the run has no part in the
    analysis. *)
Lemma analyse_seeded (e e' : entropy) (d : db) : analyse e d = analyse e' d.
Proof.
  unfold analyse, analyse_with.
  destruct (fit_transform _) as [X_scaled|exc]; [|done]. simpl.
  by rewrite (fit_predict_seeded 4 42 e e' X_scaled).
Qed.

Lemma pipeline_seeded (e e' : entropy) files (d d' : db) :
  pipeline e files d = pipeline e' files d'.
Proof.
  unfold pipeline, pipeline_with.
  rewrite (refresh_ignores_store files d d').
  destruct (refresh files d') as [d1 [[]|exc]]; [|done].
  f_equal. apply analyse_seeded.
Qed.

(** C4. Running the script a second time on the store the first run left,
    with the same files, ends in the same store and the same outcome,
    whatever the two runs get from the operating system: the same
    exception, or the same cluster index and label for every player that
    reaches the clustering step.  The store is the same because the load
    starts from the cleared tables, so that the store a run starts from
    has no influence; the assignments are the same because the query then
    gives the same feature matrix and [random_state] is an integer, for
    which scikit-learn promises the same labels in every run. *)
Theorem pipeline_rerun_identical (files : list (list string)) (d : db)
    (e1 e2 : entropy) :
  pipeline e2 files (pipeline e1 files d).1 = pipeline e1 files d
  ∧ (pipeline e1 files d).1 = (refresh files empty_db).1
  ∧ ∀ e' d', pipeline e' files d' = pipeline e1 files d.
Proof.
  split_and!.
  - apply pipeline_seeded.
  - unfold pipeline, pipeline_with.
    rewrite (refresh_ignores_store files d empty_db).
    by destruct (refresh files empty_db) as [d1 [[]|exc]].
  - intros e' d'. apply pipeline_seeded.
Qed.

End pipeline_facts.

(** ** Scenarios of the query *)

Section query_scenarios.
#[local] Existing Instance decimal_conversions.
#[local] Existing Instance exact_arithmetic.

Lemma p2_row_in_query : p2_row ∈ query eleven_store.
Proof. vm_compute. left. Qed.

(** C1. The query at work on eleven hands in which P1 bets and P2 only
    folds: it reports eleven voluntary-money hands and eleven aggressive
    actions for P2, who took no voluntary-money action in any hand; the
    join pairs every action of a hand with every player seated in it. *)
Theorem vpip_counts_other_players_actions :
  p2_row ∈ query eleven_store
  ∧ player_id p2_row = "P2"
  ∧ vpip_hands p2_row = 11
  ∧ aggressive_actions p2_row = 11
  ∧ own_vpip_hands eleven_store "P2" = 0
  ∧ vpip_hands p2_row ≠ own_vpip_hands eleven_store (player_id p2_row).
Proof.
  split_and!;
    [apply p2_row_in_query|done|done|done|by vm_compute|by vm_compute].
Qed.

Lemma query_counts_are_per_hand_witness :
  vpip_hands p2_row
  = Sql.count_distinct
      (hands_with eleven_store (player_id p2_row)
         (λ _ a, is_vpip (a_action a)))
  ∧ aggressive_actions p2_row
    = pairs_with eleven_store (player_id p2_row) is_aggressive
  ∧ passive_actions p2_row
    = pairs_with eleven_store (player_id p2_row) is_passive
  ∧ total_hands p2_row
    = Sql.count_distinct
        (hands_with eleven_store (player_id p2_row) (λ _ _, true))
  ∧ showdown_win_percent p2_row
    = percent_of
        (Sql.count_distinct
           (hands_with eleven_store (player_id p2_row) (λ s _, won s)))
        (total_hands p2_row).
Proof.
  apply (query_counts_are_per_hand eleven_store p2_row). vm_compute. left.
Defined.

Lemma qualification_boundary_witness :
  (∃ r, r ∈ query eleven_store ∧ player_id r = "P1" ∧ total_hands r = 11)
  ∧ (¬ ∃ r, r ∈ query ten_store ∧ player_id r = "P1")
  ∧ ((∃ r, r ∈ query eleven_store ∧ player_id r = "P2")
     ↔ 10 < total_hands_of (group (joined eleven_store) "P2"))
  ∧ total_hands_of (group (joined eleven_store) "P2")
    = Sql.count_distinct (hands_with eleven_store "P2" (λ _ _, true)).
Proof.
  split_and!.
  - apply (proj1 (qualification_boundary eleven_store "P1")).
    vm_compute. reflexivity.
  - apply (proj1 (proj2 (qualification_boundary ten_store "P1"))).
    vm_compute. reflexivity.
  - apply (proj1 (proj2 (proj2 (qualification_boundary eleven_store "P2")))).
  - apply (proj2 (proj2 (proj2 (qualification_boundary eleven_store "P2")))).
Defined.

Lemma percentages_in_range_witness :
  let m := derive p2_row in
  vpip_percent m
  = times_100 (int_div (vpip_hands p2_row) (total_hands p2_row))
  ∧ total_actions m = passive_actions p2_row + aggressive_actions p2_row
  ∧ pfr_percent m
    = times_100 (int_div (passive_actions p2_row) (total_actions m))
  ∧ (total_hands p2_row ≠ 0 →
     ∃ q, vpip_percent m = Fin q
          ∧ q = rnd (rnd (rnd (inject_Z (vpip_hands p2_row))
                          / rnd (inject_Z (total_hands p2_row))) * 100)
          ∧ (0 <= q <= 100)%Q)
  ∧ (total_actions m ≠ 0 →
     ∃ q, pfr_percent m = Fin q
          ∧ q = rnd (rnd (rnd (inject_Z (passive_actions p2_row))
                          / rnd (inject_Z (total_actions m))) * 100)
          ∧ (0 <= q <= 100)%Q).
Proof.
  apply (percentages_in_range eleven_store p2_row). vm_compute. left.
Defined.

End query_scenarios.

(** ** The string methods *)

Section string_facts.

Lemma app_cons_string a (s t : string) :
  String a s +:+ t = String a (s +:+ t).
Proof. done. Qed.

Lemma app_nil_l_string (s : string) : "" +:+ s = s.
Proof. done. Qed.

Lemma app_nil_r_string (s : string) : s +:+ "" = s.
Proof.
  induction s as [|a s IH]; [done|]. by rewrite app_cons_string, IH.
Qed.

Lemma app_assoc_string (s1 s2 s3 : string) :
  s1 +:+ s2 +:+ s3 = (s1 +:+ s2) +:+ s3.
Proof.
  induction s1 as [|a s1 IH]; [done|]. by rewrite !app_cons_string, IH.
Qed.

Lemma length_app_string (s1 s2 : string) :
  String.length (s1 +:+ s2) = (String.length s1 + String.length s2)%nat.
Proof.
  induction s1 as [|a s1 IH]; [done|]. rewrite app_cons_string. simpl.
  by rewrite IH.
Qed.

Lemma chars_app (s1 s2 : string) : chars (s1 +:+ s2) = chars s1 ++ chars s2.
Proof.
  unfold chars. induction s1 as [|a s1 IH]; [done|].
  rewrite app_cons_string. simpl. by rewrite IH.
Qed.

Lemma chars_inj (s1 s2 : string) : chars s1 = chars s2 → s1 = s2.
Proof.
  intros Heq. rewrite <-(String.string_of_list_ascii_of_string s1).
  rewrite <-(String.string_of_list_ascii_of_string s2). unfold chars in Heq.
  by rewrite Heq.
Qed.

Lemma rev_app_spec (s1 s2 : string) :
  String.rev_app s1 s2 = String.rev s1 +:+ s2.
Proof.
  revert s2. induction s1 as [|a s1 IH]; intros s2; [done|].
  unfold String.rev. simpl. rewrite (IH (String a s2)), (IH (String a "")).
  by rewrite <-app_assoc_string.
Qed.

Lemma rev_cons_string a s : String.rev (String a s) = String.rev s +:+ String a "".
Proof. unfold String.rev at 1. simpl. apply rev_app_spec. Qed.

Lemma chars_rev (s : string) : chars (String.rev s) = reverse (chars s).
Proof.
  induction s as [|a s IH]; [done|].
  rewrite rev_cons_string, chars_app, IH. simpl. by rewrite reverse_cons.
Qed.

(** *** [split_once] *)

(** X4. [line.split("=", 1)] cuts at the first occurrence of the separator:
    the two parts and the separator give the line back and the first part
    holds no separator; the unpacking fails exactly when the line holds
    none. *)
Theorem split_once_spec (c : ascii) (s : string) :
  match Py.split_once c s with
  | Some (k, v) => s = k +:+ String c v ∧ c ∉ chars k
  | None => c ∉ chars s
  end.
Proof.
  induction s as [|a s IH]; simpl.
  { apply not_elem_of_nil. }
  destruct (Ascii.eqb_spec a c) as [->|Hne].
  { split; [done|]. apply not_elem_of_nil. }
  destruct (Py.split_once c s) as [[k v]|].
  - destruct IH as [-> Hk]. split; [done|]. simpl.
    apply not_elem_of_cons. split; [congruence|done].
  - apply not_elem_of_cons. split; [congruence|done].
Qed.

(** *** [split] *)

Lemma prefix_app (p s : string) :
  String.prefix p s = true → ∃ r, s = p +:+ r.
Proof.
  revert s. induction p as [|a p IH]; intros s; simpl.
  { intros _. by exists s. }
  destruct s as [|b s]; simpl; [done|].
  destruct (ascii_dec a b) as [->|]; [|done].
  intros (r & ->)%IH. by exists r.
Qed.

Lemma split_go_skip sep t s cur :
  Py.split_go sep (String.length t) cur (t +:+ s) = Py.split_go sep 0 cur s.
Proof. induction t as [|a t IH]; simpl; [done|]. apply IH. Qed.

Lemma split_go_nonempty sep skip cur s : Py.split_go sep skip cur s ≠ [].
Proof.
  revert skip cur. induction s as [|a s IH]; intros skip cur;
    cbn [Py.split_go]; [done|].
  destruct skip; [|apply IH].
  destruct (String.prefix sep (String a s)); [done|apply IH].
Qed.

Lemma concat_cons sep x l :
  l ≠ [] → String.concat sep (x :: l) = x +:+ sep +:+ String.concat sep l.
Proof. by destruct l. Qed.

Lemma split_go_concat sep n s cur :
  sep ≠ "" → (String.length s ≤ n)%nat →
  String.concat sep (Py.split_go sep 0 cur s) = String.rev cur +:+ s.
Proof.
  intros Hsep. revert s cur. induction n as [|n IH]; intros s cur Hn.
  { destruct s; simpl in *; [|lia]. by rewrite app_nil_r_string. }
  destruct s as [|a s]; cbn [Py.split_go String.length] in *.
  { by rewrite app_nil_r_string. }
  destruct sep as [|b sep']; [done|].
  destruct (String.prefix (String b sep') (String a s)) eqn:Hp.
  - apply prefix_app in Hp as (r & Hr). rewrite app_cons_string in Hr.
    injection Hr as -> ->. cbn [String.length]. rewrite Nat.sub_succ, Nat.sub_0_r, split_go_skip.
    rewrite concat_cons by apply split_go_nonempty.
    rewrite IH; [done|]. rewrite length_app_string in Hn. lia.
  - rewrite IH by lia. rewrite rev_cons_string, <-app_assoc_string. done.
Qed.

(** X5. [s.split(sep)] for a non-empty separator returns at least one
    piece, and joining the pieces with the separator gives [s] back. *)
Theorem split_join (sep s : string) :
  sep ≠ "" →
  Py.split sep s ≠ [] ∧ String.concat sep (Py.split sep s) = s.
Proof.
  intros Hsep. split; [apply split_go_nonempty|].
  unfold Py.split. by rewrite (split_go_concat sep (String.length s)).
Qed.

End string_facts.

Lemma split_join_witness :
  Py.split ", " "'P1', 'P2'" ≠ []
  ∧ String.concat ", " (Py.split ", " "'P1', 'P2'") = "'P1', 'P2'".
Proof. apply (split_join ", " "'P1', 'P2'"). discriminate. Defined.

(** *** [strip] *)

Section strip_facts.
Context (p : ascii → bool).

Lemma rev_involutive_string (s : string) : String.rev (String.rev s) = s.
Proof. apply chars_inj. by rewrite !chars_rev, reverse_involutive. Qed.

Lemma rev_app_string (s1 s2 : string) :
  String.rev (s1 +:+ s2) = String.rev s2 +:+ String.rev s1.
Proof.
  apply chars_inj. by rewrite chars_rev, !chars_app, !chars_rev, reverse_app.
Qed.

Lemma lstrip_with_spec (s : string) :
  ∃ pre, s = pre +:+ Py.lstrip_with p s
         ∧ Forall (λ c, p c = true) (chars pre)
         ∧ ∀ c, head (chars (Py.lstrip_with p s)) = Some c → p c = false.
Proof.
  induction s as [|a s (pre & Hs & Hpre & Hhead)]; simpl.
  { exists "". split_and!; [done|by constructor|done]. }
  destruct (p a) eqn:Ha.
  - exists (String a pre). split_and!; [|by constructor|done].
    rewrite app_cons_string. by f_equal.
  - exists "". split_and!; [done|by constructor|].
    simpl. by intros c [= <-].
Qed.

Lemma lstrip_with_id (s : string) :
  (∀ c, head (chars s) = Some c → p c = false) → Py.lstrip_with p s = s.
Proof.
  destruct s as [|a s]; simpl; [done|].
  intros Hhead. by rewrite (Hhead a eq_refl).
Qed.

(** X6. [strip] removes characters of the stripped class from the two ends
    only: the string is a stripped prefix, the result and a stripped
    suffix; the result neither starts nor ends with a stripped character;
    and stripping twice is stripping once. *)
Theorem strip_with_spec (s : string) :
  (∃ pre post,
     s = pre +:+ Py.strip_with p s +:+ post
     ∧ Forall (λ c, p c = true) (chars pre)
     ∧ Forall (λ c, p c = true) (chars post))
  ∧ (∀ c, head (chars (Py.strip_with p s)) = Some c → p c = false)
  ∧ (∀ c, last (chars (Py.strip_with p s)) = Some c → p c = false)
  ∧ Py.strip_with p (Py.strip_with p s) = Py.strip_with p s.
Proof.
  unfold Py.strip_with.
  destruct (lstrip_with_spec s) as (pre & Hs & Hpre & Hhead).
  set (m := Py.lstrip_with p s) in *.
  destruct (lstrip_with_spec (String.rev m)) as (post & Hm & Hpost & Hlast).
  set (n := Py.lstrip_with p (String.rev m)) in *.
  assert (m = String.rev n +:+ String.rev post) as Hm'.
  { rewrite <-(rev_involutive_string m), Hm. apply rev_app_string. }
  assert (∀ c, head (chars (String.rev n)) = Some c → p c = false) as Hh.
  { intros c Hc. apply Hhead. rewrite Hm', chars_app.
    destruct (chars (String.rev n)); [done|]. done. }
  assert (∀ c, last (chars (String.rev n)) = Some c → p c = false) as Hl.
  { intros c Hc. apply Hlast. by rewrite chars_rev, last_reverse in Hc. }
  split_and!; [|done..|].
  - exists pre, (String.rev post). split_and!; [by rewrite Hs, Hm'|done|].
    rewrite chars_rev. by apply Forall_reverse.
  - rewrite (lstrip_with_id (String.rev n)) by done.
    rewrite rev_involutive_string. fold n.
    rewrite lstrip_with_id; [done|].
    intros c Hc. apply Hlast. done.
Qed.

End strip_facts.

(** ** More on the parser *)

Section parser_more.
Context `{Conversions}.

Lemma parse_lines_app st f1 f2 :
  parse_lines st (f1 ++ f2)
  = (try st' <- parse_lines st f1; parse_lines st' f2)%result.
Proof.
  revert st. induction f1 as [|line f1 IH]; intros st; simpl; [done|].
  destruct (parse_line st line) as [st1|e]; simpl; [apply IH|done].
Qed.

Lemma parse_poker_file_lines file :
  parse_poker_file file
  = (try st <- parse_lines ([], ∅) file;
     Ok (if truthy st.2 then st.1 ++ [st.2] else st.1))%result.
Proof.
  unfold parse_poker_file. by destruct (parse_lines _ file) as [[hd cur]|].
Qed.

Lemma parse_poker_file_Ok file recs :
  parse_poker_file file = Ok recs → ∃ st, parse_lines ([], ∅) file = Ok st.
Proof.
  rewrite parse_poker_file_lines.
  destruct (parse_lines _ file) as [st|]; [by exists st|done].
Qed.

(** A line on which the loop body raises ends the parse, whatever the
    lines after it. *)
Lemma parse_raises_at pre line post st e :
  parse_lines ([], ∅) pre = Ok st → parse_line st line = Raise e →
  parse_poker_file (pre ++ line :: post) = Raise e.
Proof.
  intros Hpre Hline.
  rewrite parse_poker_file_lines, parse_lines_app, Hpre. simpl.
  by rewrite Hline.
Qed.

(** X7. A structural error fails the whole file: an error in a prefix of
    the file is the error of the file, and a line that is neither blank nor
    a delimiter and holds no [=] makes [parse_poker_file] raise
    [ValueError], whatever follows and however many records precede. *)
Theorem parse_missing_separator (pre post : list string) :
  (∀ e, parse_poker_file pre = Raise e →
        parse_poker_file (pre ++ post) = Raise e)
  ∧ (∀ line recs,
       parse_poker_file pre = Ok recs →
       Py.strip line ≠ "" →
       Py.startswith "[" (Py.strip line) = false →
       "="%char ∉ chars (Py.strip line) →
       parse_poker_file (pre ++ line :: post) = Raise ValueError).
Proof.
  split.
  - intros e. rewrite !parse_poker_file_lines, parse_lines_app.
    destruct (parse_lines _ pre) as [st|]; simpl; [done|]. by intros [= ->].
  - intros line recs (st & Hst)%parse_poker_file_Ok Hblank Hdelim Heq.
    apply (parse_raises_at _ _ _ st); [done|].
    destruct st as [hd cur]. unfold parse_line.
    rewrite bool_decide_eq_false_2 by done. rewrite Hdelim.
    pose proof (split_once_spec "=" (Py.strip line)) as Hsp.
    destruct (Py.split_once _ _) as [[k v]|]; [|done].
    destruct Hsp as [Hsp _]. exfalso. apply Heq. rewrite Hsp, chars_app.
    apply elem_of_app. right. by left.
Qed.

Lemma rmap_raise {A B} (f : A → result B) (l : list A) x e :
  x ∈ l → (∀ y e', f y = Raise e' → e' = e) → f x = Raise e →
  rmap f l = Raise e.
Proof.
  intros Hx Hf Hfx. induction l as [|y l IH]; [by apply elem_of_nil in Hx|].
  simpl. destruct (f y) as [b|e'] eqn:Hy; simpl.
  - apply elem_of_cons in Hx as [->|Hx]; [congruence|].
    by rewrite (IH Hx).
  - by rewrite (Hf y e' Hy).
Qed.

(** X8. A [starting_stacks] or [winnings] line with an element that
    [float] rejects makes [parse_poker_file] raise [ValueError] for the
    whole file. *)
Theorem parse_bad_number (pre post : list string) line recs key v x :
  parse_poker_file pre = Ok recs →
  Py.startswith "[" (Py.strip line) = false →
  Py.split_once "=" (Py.strip line) = Some (key, v) →
  Py.strip key = "starting_stacks" ∨ Py.strip key = "winnings" →
  x ∈ str_list (Py.strip v) → py_float x = None →
  parse_poker_file (pre ++ line :: post) = Raise ValueError.
Proof.
  intros (st & Hst)%parse_poker_file_Ok Hdelim Hsplit Hkey Hx Hfloat.
  apply (parse_raises_at _ _ _ st); [done|].
  destruct st as [hd cur]. unfold parse_line.
  assert (Py.strip line ≠ "") as Hblank.
  { intros Hs. by rewrite Hs in Hsplit. }
  rewrite bool_decide_eq_false_2 by done. rewrite Hdelim, Hsplit.
  assert (float_list (Py.strip v) = Raise ValueError) as Hl.
  { unfold float_list. apply (rmap_raise _ _ x); [done| |by rewrite Hfloat].
    intros y e'. by destruct (py_float y); intros [= <-]. }
  unfold parse_field. destruct Hkey as [-> | ->]; simpl; by rewrite Hl.
Qed.

Lemma parse_field_unrecognized key v cur :
  key ∉ recognized_keys → parse_field key v cur = Ok cur.
Proof.
  unfold recognized_keys. intros Hkey. unfold parse_field.
  apply not_elem_of_app in Hkey as [Hsc Hlists].
  rewrite !not_elem_of_cons in Hlists.
  destruct Hlists as (? & ? & ? & ? & _).
  by rewrite !bool_decide_eq_false_2.
Qed.

Lemma parse_line_ignored st line :
  ignored line = true → parse_line st line = Ok st.
Proof.
  destruct st as [hd cur]. unfold ignored, parse_line. cbn zeta.
  case_bool_decide; [done|]. simpl.
  destruct (Py.startswith _ _); [done|]. simpl.
  destruct (Py.split_once _ _) as [[key v]|]; [|done].
  intros Hkey%bool_decide_eq_true_1.
  by rewrite parse_field_unrecognized.
Qed.

(** X9. Blank lines and field lines with an unrecognised key have no
    effect: removing them from a file changes neither the records nor the
    error of the parse. *)
Theorem parse_ignores_noise (file : list string) :
  parse_poker_file (filter (λ line, ignored line = false) file)
  = parse_poker_file file.
Proof.
  rewrite !parse_poker_file_lines. f_equal.
  generalize (([], ∅) : list raw_hand * raw_hand).
  induction file as [|line file IH]; intros st; [done|].
  destruct (ignored line) eqn:Hi.
  - rewrite filter_cons_False by by rewrite Hi.
    simpl. by rewrite (parse_line_ignored st line Hi).
  - rewrite filter_cons_True by done. simpl.
    destruct (parse_line st line); simpl; [apply IH|done].
Qed.

Lemma parse_lines_prepend pre hd cur file :
  parse_lines (pre ++ hd, cur) file
  = (try st <- parse_lines (hd, cur) file; Ok (pre ++ st.1, st.2))%result.
Proof.
  revert hd cur. induction file as [|line file IH]; intros hd cur; [done|].
  cbn [parse_lines].
  assert (parse_line (pre ++ hd, cur) line
          = (try st <- parse_line (hd, cur) line;
             Ok (pre ++ st.1, st.2))%result) as ->.
  { unfold parse_line. case_bool_decide; [done|].
    destruct (Py.startswith _ _).
    { simpl. destruct (truthy cur); by rewrite ?app_assoc. }
    destruct (Py.split_once _ _) as [[key v]|]; [|done].
    by destruct (parse_field _ _ _). }
  destruct (parse_line (hd, cur) line) as [[hd' cur']|]; simpl; [|done].
  apply IH.
Qed.

(** X10. Records are independent once delimited: parsing a file followed by
    lines that start with a delimiter gives the records of the first part
    followed by the records of the second, or the first error met. *)
Theorem parse_app_delimited (f1 f2 : list string) (delim : string) :
  is_delimiter delim = true →
  parse_poker_file (f1 ++ delim :: f2)
  = (try r1 <- parse_poker_file f1;
     try r2 <- parse_poker_file (delim :: f2);
     Ok (r1 ++ r2))%result.
Proof.
  unfold is_delimiter. intros Hd.
  assert (Py.strip delim ≠ "") as Hblank.
  { intros Hs. by rewrite Hs in Hd. }
  assert (∀ hd cur, parse_line (hd, cur) delim
                    = Ok (if truthy cur then hd ++ [cur] else hd, ∅)) as Hline.
  { intros hd cur. unfold parse_line.
    by rewrite bool_decide_eq_false_2, Hd by done. }
  rewrite !parse_poker_file_lines, parse_lines_app.
  destruct (parse_lines _ f1) as [[hd1 cur1]|];
    cbn [rbind parse_lines fst snd]; [|done].
  rewrite !Hline. cbn [rbind].
  set (r1 := if truthy cur1 then hd1 ++ [cur1] else hd1).
  replace (if truthy (∅ : raw_hand) then [] ++ [∅] else [])
    with ([] : list raw_hand) by done.
  rewrite <-(app_nil_r r1) at 1. rewrite parse_lines_prepend.
  destruct (parse_lines ([], ∅) f2) as [[hd2 cur2]|];
    cbn [rbind fst snd]; [|done].
  destruct (truthy cur2); by rewrite ?app_assoc.
Qed.

Lemma str_list_nonempty v : str_list v ≠ [].
Proof. unfold str_list, Py.split. apply split_go_nonempty. Qed.

Lemma rmap_length {A B} (f : A → result B) l l' :
  rmap f l = Ok l' → length l' = length l.
Proof.
  revert l'. induction l as [|x l IH]; intros l'; simpl.
  { by intros [= <-]. }
  destruct (f x); simpl; [|done].
  destruct (rmap f l) as [ys|]; simpl; [|done].
  intros [= <-]. simpl. by rewrite (IH ys).
Qed.

Lemma float_list_nonempty v l : float_list v = Ok l → l ≠ [].
Proof.
  intros Hl%rmap_length Hnil. subst l.
  pose proof (str_list_nonempty v). by destruct (str_list v).
Qed.

Lemma lists_nonempty_insert (hand : raw_hand) key v :
  lists_nonempty hand →
  match v with VStr _ => True | VStrs l => l ≠ [] | VFloats l => l ≠ [] end →
  lists_nonempty (<[key := v]> hand).
Proof.
  intros Hhand Hv k w. rewrite lookup_insert. case_decide.
  - by intros [= <-].
  - apply Hhand.
Qed.

Lemma parse_field_nonempty key v hand hand' :
  lists_nonempty hand → parse_field key v hand = Ok hand' →
  lists_nonempty hand'.
Proof.
  intros Hhand. unfold parse_field.
  repeat case_bool_decide; subst.
  - intros [= <-]. by apply lists_nonempty_insert.
  - intros [= <-]. apply lists_nonempty_insert; [done|].
    apply str_list_nonempty.
  - destruct (float_list v) eqn:Hl; simpl; [|done].
    intros [= <-]. apply lists_nonempty_insert; [done|].
    by eapply float_list_nonempty.
  - destruct (float_list v) eqn:Hl; simpl; [|done].
    intros [= <-]. apply lists_nonempty_insert; [done|].
    by eapply float_list_nonempty.
  - intros [= <-]. apply lists_nonempty_insert; [done|].
    apply str_list_nonempty.
  - by intros [= <-].
Qed.

Lemma parse_lines_lists_nonempty file st st' :
  parse_lines st file = Ok st' →
  Forall lists_nonempty st.1 ∧ lists_nonempty st.2 →
  Forall lists_nonempty st'.1 ∧ lists_nonempty st'.2.
Proof.
  revert st. induction file as [|line file IH]; intros st; simpl.
  { by intros [= <-]. }
  destruct (parse_line st line) as [st1|] eqn:Hl; simpl; [|done].
  intros Hf Hst. eapply IH; [done|]. clear Hf IH.
  destruct st as [hd cur]. unfold parse_line in Hl. destruct Hst as [Hd Hc].
  case_bool_decide; [by injection Hl as <-|].
  destruct (Py.startswith _ _).
  { injection Hl as <-. simpl in *. split; [|by intros k w Hk].
    destruct (truthy cur); [|done].
    apply Forall_app. split; [done|]. by apply Forall_singleton. }
  destruct (Py.split_once _ _) as [[key v]|]; [|done].
  destruct (parse_field _ _ _) as [hand'|] eqn:Hf; simpl in Hl; [|done].
  injection Hl as <-. simpl in *. split; [done|].
  by eapply parse_field_nonempty.
Qed.

(** X11. No list field of a parsed record is empty: [players], [actions],
    [starting_stacks] and [winnings], when present, hold at least one
    element (an empty bracket pair is read as one empty string, and fails
    to parse as a number). *)
Theorem parse_lists_nonempty (file : list string) recs :
  parse_poker_file file = Ok recs → Forall lists_nonempty recs.
Proof.
  rewrite parse_poker_file_lines.
  destruct (parse_lines _ file) as [[hd cur]|] eqn:Hp; simpl; [|done].
  intros [= <-].
  destruct (parse_lines_lists_nonempty _ _ _ Hp) as [Hd Hc].
  { split; [by constructor|by intros k w Hk]. }
  simpl in *. destruct (truthy cur); [|done].
  apply Forall_app. split; [done|]. by apply Forall_singleton.
Qed.

Lemma parse_lines_count file st st' :
  parse_lines st file = Ok st' →
  (length st'.1
   ≤ length st.1 + length (filter (λ line, is_delimiter line = true) file))%nat.
Proof.
  revert st. induction file as [|line file IH]; intros st; simpl.
  { intros [= <-]. lia. }
  destruct (parse_line st line) as [st1|] eqn:Hl; simpl; [|done].
  intros Hf%IH. etrans; [done|]. clear IH Hf.
  destruct st as [hd cur]. unfold parse_line in Hl. rewrite filter_cons.
  case_bool_decide as Hb.
  { injection Hl as <-. simpl. destruct (decide _); simpl; lia. }
  destruct (Py.startswith _ _) eqn:Hd.
  { injection Hl as <-. simpl. rewrite decide_True by done. simpl.
    destruct (truthy cur); rewrite ?length_app; simpl; lia. }
  destruct (Py.split_once _ _) as [[key v]|]; [|done].
  destruct (parse_field _ _ _) as [hand'|]; simpl in Hl; [|done].
  injection Hl as <-. simpl. destruct (decide _); simpl; lia.
Qed.

(** X12. A file yields at most one record per delimiter line, plus one for
    the fields written before the first delimiter. *)
Theorem parse_record_count (file : list string) recs :
  parse_poker_file file = Ok recs →
  (length recs
   ≤ length (filter (λ line, is_delimiter line = true) file) + 1)%nat.
Proof.
  rewrite parse_poker_file_lines.
  destruct (parse_lines _ file) as [[hd cur]|] eqn:Hp; simpl; [|done].
  intros [= <-]. apply parse_lines_count in Hp. simpl in Hp.
  destruct (truthy cur); rewrite ?length_app; simpl; lia.
Qed.

End parser_more.

(** ** More on the ingestion loop *)

Section write_logs.
Context `{Conversions}.

Lemma replay_no_writes d : replay no_writes d = d.
Proof. destruct d. unfold replay. simpl. by rewrite !app_nil_r. Qed.

Lemma replay_app w1 w2 d :
  replay (log_app w1 w2) d = replay w2 (replay w1 d).
Proof. unfold replay. simpl. by rewrite foldl_app, !app_assoc. Qed.

Lemma writes_lift {A} (r : result A) : writes (lift r) no_writes r.
Proof. intros d. by rewrite replay_no_writes. Qed.

Lemma writes_bind_ok {A B} (m : M A) (k : A → M B) w a w' r :
  writes m w (Ok a) → writes (k a) w' r →
  writes (mbind m k) (log_app w w') r.
Proof.
  intros Hm Hk d. unfold mbind. by rewrite Hm, Hk, replay_app.
Qed.

Lemma writes_bind_raise {A B} (m : M A) (k : A → M B) w e :
  writes m w (Raise e) → writes (mbind m k) w (Raise e).
Proof. intros Hm d. unfold mbind. by rewrite Hm. Qed.

Lemma writes_insert_hand hand_id row :
  match sql_rowid hand_id with
  | Some id =>
      writes (insert_hand hand_id row)
        {| w_hands := [(id, row)]; w_players := []; w_actions := [] |} (Ok id)
  | None => writes (insert_hand hand_id row) no_writes (Raise IntegrityError)
  end.
Proof.
  destruct (sql_rowid hand_id) as [id|] eqn:Hid; intros d;
    unfold insert_hand; rewrite Hid.
  - unfold replay, insert_or_ignore. simpl.
    destruct d as [h ps acts]. simpl. rewrite !app_nil_r.
    by destruct (h !! id).
  - by rewrite replay_no_writes.
Qed.

Lemma writes_insert_player row :
  writes (insert_player row)
    {| w_hands := []; w_players := [row]; w_actions := [] |} (Ok ()).
Proof.
  intros d. unfold insert_player, modify, replay. simpl.
  by rewrite app_nil_r.
Qed.

Lemma writes_insert_action row :
  writes (insert_action row)
    {| w_hands := []; w_players := []; w_actions := [row] |} (Ok ()).
Proof.
  intros d. unfold insert_action, modify, replay. simpl.
  by rewrite app_nil_r.
Qed.

(** Statement sequences whose log satisfies a property closed under the
    empty log and concatenation. *)
Section closed.
Context (P : write_log → Prop).
Context (P_empty : P no_writes).
Context (P_app : ∀ w1 w2, P w1 → P w2 → P (log_app w1 w2)).

Lemma logged_lift_bind {A B} (r : result A) (k : A → M B) :
  (∀ a, r = Ok a → logged P (k a)) → logged P (mbind (lift r) k).
Proof.
  intros Hk. destruct r as [a|e].
  - destruct (Hk a eq_refl) as (w & r & Hw & HP). exists w, r.
    split; [|done]. intros d. unfold mbind, lift. apply Hw.
  - exists no_writes, (Raise e). split; [|done].
    apply writes_bind_raise, writes_lift.
Qed.

Lemma logged_bind {A B} (m : M A) (k : A → M B) :
  logged P m → (∀ a, logged P (k a)) → logged P (mbind m k).
Proof.
  intros (w & [a|e] & Hw & HP) Hk.
  - destruct (Hk a) as (w' & r & Hw' & HP'). exists (log_app w w'), r.
    split; [by eapply writes_bind_ok|by apply P_app].
  - exists w, (Raise e). split; [by apply writes_bind_raise|done].
Qed.

Lemma logged_ret {A} (a : A) : logged P (mret a).
Proof.
  exists no_writes, (Ok a). split; [|done]. intros d. unfold mret.
  by rewrite replay_no_writes.
Qed.

Lemma logged_for_each {A} (body : A → M unit) (l : list A) :
  (∀ x, logged P (body x)) → logged P (for_each body l).
Proof.
  intros Hbody. induction l as [|x l IH]; simpl; [apply logged_ret|].
  apply logged_bind; [apply Hbody|]. by intros _.
Qed.

End closed.

Lemma carries_empty id : carries id no_writes.
Proof. split_and!; [done|by constructor|]. intros _. by constructor. Qed.

Lemma carries_app id w1 w2 :
  carries id w1 → carries id w2 → carries id (log_app w1 w2).
Proof.
  intros (Hh1 & Hp1 & Ha1) (Hh2 & Hp2 & Ha2). split_and!; simpl.
  - by rewrite Hh1, Hh2.
  - by apply Forall_app.
  - intros Hagree. apply Forall_app. auto.
Qed.

Lemma log_references_empty : log_references_hands no_writes.
Proof. split; [by constructor|]. intros _. by constructor. Qed.

Lemma log_references_app w1 w2 :
  log_references_hands w1 → log_references_hands w2 →
  log_references_hands (log_app w1 w2).
Proof.
  intros [Hp1 Ha1] [Hp2 Ha2]. split; simpl.
  - rewrite fmap_app. apply Forall_app. split.
    + eapply Forall_impl; [done|]. intros s Hs. apply elem_of_app. by left.
    + eapply Forall_impl; [done|]. intros s Hs. apply elem_of_app. by right.
  - intros Hagree. rewrite fmap_app. apply Forall_app. split.
    + eapply Forall_impl; [by apply Ha1|]. intros a Ha.
      apply elem_of_app. by left.
    + eapply Forall_impl; [by apply Ha2|]. intros a Ha.
      apply elem_of_app. by right.
Qed.

Lemma ingest_hand_logged hand :
  logged log_references_hands (ingest_hand hand).
Proof.
  unfold ingest_hand.
  apply (logged_lift_bind _ log_references_empty). intros hand_id Hhand.
  do 6 (apply (logged_lift_bind _ log_references_empty); intros ? _).
  match goal with
  | |- logged _ (mbind (insert_hand _ ?r) ?k) => set (row := r); set (rest := k)
  end.
  pose proof (writes_insert_hand hand_id row) as Hins.
  destruct (sql_rowid hand_id) as [id|] eqn:Hid.
  2:{ exists no_writes, (Raise IntegrityError).
      split; [by apply writes_bind_raise|apply log_references_empty]. }
  assert (logged (carries id) (rest id)) as (w & r & Hw & Hh & Hp & Ha).
  { unfold rest.
    apply (logged_lift_bind _ (carries_empty id)). intros wl _.
    apply (logged_lift_bind _ (carries_empty id)). intros ps _.
    apply (logged_bind _ (carries_app id)).
    - apply (logged_for_each _ (carries_empty id) (carries_app id)).
      intros [i p]. unfold seat_body.
      do 3 (apply (logged_lift_bind _ (carries_empty id)); intros ? _).
      eexists _, _. split; [apply writes_insert_player|].
      split_and!; [done|by repeat constructor|]. intros _. by constructor.
    - intros _.
      apply (logged_lift_bind _ (carries_empty id)). intros acts _.
      apply (logged_for_each _ (carries_empty id) (carries_app id)).
      intros action. unfold action_body.
      apply (logged_lift_bind _ (carries_empty id)). intros aid Haid.
      eexists _, _. split; [apply writes_insert_action|].
      split_and!; [done|by constructor|]. intros Hagree.
      repeat constructor. simpl. symmetry. apply (Hagree hand_id); [done|].
      by destruct (py_int hand_id); simplify_eq/=. }
  eexists _, r. split; [by eapply writes_bind_ok|].
  split; simpl; rewrite Hh; simpl.
  - eapply Forall_impl; [done|]. intros s ->. by left.
  - intros Hagree. eapply Forall_impl; [by apply Ha|].
    intros arow ->. by left.
Qed.

(** The load writes a log that does not depend on the store. *)
Lemma load_logged files :
  logged log_references_hands (for_each ingest_file files).
Proof.
  apply (logged_for_each _ log_references_empty log_references_app).
  intros file. unfold ingest_file.
  apply (logged_lift_bind _ log_references_empty). intros hs _.
  apply (logged_for_each _ log_references_empty log_references_app).
  apply ingest_hand_logged.
Qed.

End write_logs.

Section load_facts.
Context `{Conversions}.

Lemma insert_or_ignore_keeps (h : gmap Z hand_row) x id row :
  h !! id = Some row → insert_or_ignore h x !! id = Some row.
Proof.
  intros Hid. unfold insert_or_ignore.
  destruct (h !! x.1) eqn:Hx; [done|].
  rewrite lookup_insert_ne; [done|]. congruence.
Qed.

Lemma foldl_insert_keeps l (h : gmap Z hand_row) id row :
  h !! id = Some row → foldl insert_or_ignore h l !! id = Some row.
Proof.
  revert h. induction l as [|x l IH]; intros h Hid; [done|].
  simpl. by apply IH, insert_or_ignore_keeps.
Qed.

Lemma foldl_insert_present l (h : gmap Z hand_row) id :
  id ∈ l.*1 → is_Some (foldl insert_or_ignore h l !! id).
Proof.
  revert h. induction l as [|x l IH]; intros h Hid; simpl in *.
  { by apply elem_of_nil in Hid. }
  apply elem_of_cons in Hid as [->|Hid]; [|by apply IH].
  assert (is_Some (insert_or_ignore h x !! x.1)) as [row Hrow].
  { unfold insert_or_ignore. destruct (h !! x.1) eqn:Hx; [by rewrite Hx|].
    by rewrite lookup_insert_eq. }
  rewrite (foldl_insert_keeps l _ _ row Hrow). done.
Qed.

Lemma foldl_insert_ignored l (h : gmap Z hand_row) :
  Forall (λ x, is_Some (h !! x.1)) l → foldl insert_or_ignore h l = h.
Proof.
  induction 1 as [|x l [row Hx] _ IH]; [done|].
  simpl. unfold insert_or_ignore at 2. by rewrite Hx.
Qed.

(** X13. The load never reads the tables, except to skip a hand whose
    identifier is taken: there is one log of writes and one outcome such
    that, on every store, the load performs exactly these writes and ends
    with this outcome. *)
Theorem load_store_independent (files : list (list string)) :
  ∃ w r, ∀ d, for_each ingest_file files d = (replay w d, r).
Proof.
  destruct (load_logged files) as (w & r & Hw & _). by exists w, r.
Qed.

(** X14. The load only adds rows: the seat rows and the action rows of the
    store remain, in order, at the head of their tables, and every stored
    hand keeps its row (the first row written under an identifier wins),
    whether the load returns or raises. *)
Theorem load_append_only (files : list (list string)) (d : db) :
  let d' := (for_each ingest_file files d).1 in
  players d `prefix_of` players d'
  ∧ actions d `prefix_of` actions d'
  ∧ hands d ⊆ hands d'.
Proof.
  destruct (load_logged files) as (w & r & Hw & _). rewrite Hw. simpl.
  split_and!; [by eexists..|].
  apply map_subseteq_spec. intros id row. apply foldl_insert_keeps.
Qed.

(** X15. Why the tables are cleared first: loading the same files again
    into the store the first load left adds no hand, but appends every
    seat row and every action row a second time, with the same outcome. *)
Theorem reload_duplicates_rows (files : list (list string)) (d : db) :
  let run1 := for_each ingest_file files d in
  let run2 := for_each ingest_file files run1.1 in
  ∃ seats acts,
    players run1.1 = players d ++ seats
    ∧ actions run1.1 = actions d ++ acts
    ∧ run2.2 = run1.2
    ∧ hands run2.1 = hands run1.1
    ∧ players run2.1 = players d ++ seats ++ seats
    ∧ actions run2.1 = actions d ++ acts ++ acts.
Proof.
  destruct (load_logged files) as (w & r & Hw & _). cbn zeta.
  rewrite !Hw. simpl. exists (w_players w), (w_actions w).
  split_and!; [done..| |by rewrite app_assoc|by rewrite app_assoc].
  apply foldl_insert_ignored, Forall_forall. intros x Hx.
  apply foldl_insert_present, list_elem_of_fmap. by exists x.
Qed.

Lemma replay_references w d :
  log_references_hands w →
  Forall (λ s, is_Some (hands d !! p_hand_id s)) (players d) →
  Forall (λ s, is_Some (hands (replay w d) !! p_hand_id s))
    (players (replay w d))
  ∧ (conversions_agree →
     Forall (λ a, is_Some (hands d !! a_hand_id a)) (actions d) →
     Forall (λ a, is_Some (hands (replay w d) !! a_hand_id a))
       (actions (replay w d))).
Proof.
  intros [Hp Ha] Hd. simpl. split.
  - apply Forall_app. split.
    + eapply Forall_impl; [done|]. intros s [row Hrow].
      by rewrite (foldl_insert_keeps _ _ _ row Hrow).
    + eapply Forall_impl; [done|]. intros s Hs.
      by apply foldl_insert_present.
  - intros Hagree Hda. apply Forall_app. split.
    + eapply Forall_impl; [done|]. intros a [row Hrow].
      by rewrite (foldl_insert_keeps _ _ _ row Hrow).
    + eapply Forall_impl; [by apply Ha|]. intros a Hin.
      by apply foldl_insert_present.
Qed.

(** X16. Referential integrity: if every seat row of the store refers to a
    stored hand, so does every seat row after the load, whether it returns
    or raises; when [int] and SQLite read identifiers alike, the same
    holds for the action rows, and the store a full refresh leaves
    satisfies both. *)
Theorem load_keeps_references (files : list (list string)) (d : db) :
  let d' := (for_each ingest_file files d).1 in
  (Forall (λ s, is_Some (hands d !! p_hand_id s)) (players d) →
   Forall (λ s, is_Some (hands d' !! p_hand_id s)) (players d'))
  ∧ (conversions_agree → references_hold d → references_hold d')
  ∧ (conversions_agree → references_hold (refresh files d).1).
Proof.
  destruct (load_logged files) as (w & r & Hw & Hrefs). cbn zeta.
  unfold refresh. rewrite (Hw (clear d)).
  pose proof (Hw d) as Hd'.
  destruct (for_each ingest_file files d) as [d' r']. injection Hd' as -> _.
  split_and!.
  - intros Hd. by apply (replay_references w d Hrefs Hd).
  - intros Hagree [Hp Ha].
    destruct (replay_references w d Hrefs Hp) as [Hp' Ha']. split; auto.
  - intros Hagree.
    assert (references_hold empty_db) as [Hp0 Ha0].
    { split; by constructor. }
    destruct r; simpl; [|by split].
    destruct (replay_references w (clear d) Hrefs Hp0) as [Hp' Ha'].
    split; auto.
Qed.

End load_facts.

Section ingestion_errors.
Context `{Conversions}.

Lemma get_str_missing (hand : raw_hand) key :
  hand !! key = None → get_str hand key = Raise (KeyError key).
Proof. intros Hk. unfold get_str, getitem. by rewrite Hk. Qed.

Lemma get_strs_missing (hand : raw_hand) key :
  hand !! key = None → get_strs hand key = Raise (KeyError key).
Proof. intros Hk. unfold get_strs, getitem. by rewrite Hk. Qed.

Lemma get_floats_missing (hand : raw_hand) key :
  hand !! key = None → get_floats hand key = Raise (KeyError key).
Proof. intros Hk. unfold get_floats, getitem. by rewrite Hk. Qed.

(** X17. Failures before the first insert leave the store untouched: when a
    scalar field is missing, [ingest_hand] raises [KeyError] for the first
    missing one in the order [hand], [variant], [venue], [table], [day],
    [month], [year]; when all seven are there but SQLite does not accept
    the identifier as a row id, it raises the datatype mismatch. *)
Theorem ingest_fails_before_insert (hand : raw_hand) (d : db) :
  (∀ pre key post,
     tuple_keys = pre ++ key :: post →
     Forall (λ k, ∃ s, hand !! k = Some (VStr s)) pre →
     hand !! key = None →
     ingest_hand hand d = (d, Raise (KeyError key)))
  ∧ (∀ hand_id,
       Forall (λ k, ∃ s, hand !! k = Some (VStr s)) tuple_keys →
       hand !! "hand" = Some (VStr hand_id) →
       sql_rowid hand_id = None →
       ingest_hand hand d = (d, Raise IntegrityError)).
Proof.
  split.
  - intros pre key post Hkeys Hpre Hkey. unfold tuple_keys in Hkeys.
    unfold ingest_hand, mbind, lift.
    repeat (destruct pre as [|? pre];
            [injection Hkeys as <- <-;
             by rewrite (get_str_missing hand _ Hkey)
            |injection Hkeys as <- Hkeys;
             apply Forall_cons in Hpre as [[? Hk] Hpre];
             rewrite (get_str_lookup hand _ _ Hk); clear Hk]).
    by destruct pre.
  - intros hand_id Hall Hhand Hid. unfold tuple_keys in Hall.
    unfold ingest_hand, mbind, lift.
    apply Forall_cons in Hall as [[? Hk] Hall].
    rewrite Hhand in Hk. injection Hk as <-.
    rewrite (get_str_lookup hand _ _ Hhand).
    repeat (apply Forall_cons in Hall as [[? Hk] Hall];
            rewrite (get_str_lookup hand _ _ Hk); clear Hk).
    unfold insert_hand. by rewrite Hid.
Qed.

(** X18. Failures after the hand row is written: without [players] the
    loop raises [KeyError] right after the hand row; with players but
    without [starting_stacks] it raises [KeyError] before the first seat;
    with every seat written but without [actions] it raises [KeyError]
    after the seat rows; and with actions but an identifier that [int]
    rejects it raises [ValueError] before the first action row. *)
Theorem ingest_fails_after_hand_row (hand : raw_hand) hand_id id row (d : db) :
  scalars_present hand hand_id id row →
  (hand !! "players" = None →
   ingest_hand hand d = (with_hand id row d, Raise (KeyError "players")))
  ∧ (∀ ps wl,
       hand !! "players" = Some (VStrs ps) → ps ≠ [] →
       winnings_list hand = Ok wl →
       hand !! "starting_stacks" = None →
       ingest_hand hand d
       = (with_hand id row d, Raise (KeyError "starting_stacks")))
  ∧ (∀ ps ss wl,
       hand !! "players" = Some (VStrs ps) →
       hand !! "starting_stacks" = Some (VFloats ss) →
       winnings_list hand = Ok wl →
       (length ps ≤ length ss)%nat → (length ps ≤ length wl)%nat →
       let d1 := add_players (seat_rows id 0 ps ss wl) (with_hand id row d) in
       (hand !! "actions" = None →
        ingest_hand hand d = (d1, Raise (KeyError "actions")))
       ∧ (∀ acts, hand !! "actions" = Some (VStrs acts) → acts ≠ [] →
                  py_int hand_id = None →
                  ingest_hand hand d = (d1, Raise ValueError))).
Proof.
  intros Hsc. split_and!.
  - intros Hps. destruct Hsc. unfold ingest_hand, mbind, lift.
    rewrite !(get_str_lookup hand _ _) by eassumption.
    rewrite (insert_hand_ok _ id) by done.
    unfold winnings_list. rewrite (get_strs_missing _ _ Hps). simpl.
    by destruct row.
  - intros ps wl Hps Hne Hwl Hss. destruct Hsc.
    unfold ingest_hand, mbind, lift.
    rewrite !(get_str_lookup hand _ _) by eassumption.
    rewrite (insert_hand_ok _ id) by done. rewrite Hwl.
    rewrite (get_strs_lookup _ _ _ Hps), enumerate_zip.
    rewrite (seat_loop_no_stacks _ _ _ (KeyError "starting_stacks"))
      by by apply get_floats_missing.
    destruct ps; [done|]. by destruct row.
  - intros ps ss wl Hps Hss Hwl Hs Hw. cbn zeta.
    assert (length (seat_rows id 0 ps ss wl) = length ps) as Hlen.
    { rewrite length_seat_rows. lia. }
    split.
    + intros Hacts.
      rewrite (ingest_hand_seats hand hand_id id row ps ss wl) by done.
      cbn zeta. rewrite bool_decide_eq_true_2 by done.
      unfold mbind, lift. by rewrite (get_strs_missing _ _ Hacts).
    + intros acts Hacts Hne Hint.
      rewrite (ingest_hand_complete hand hand_id id row ps ss wl acts)
        by done.
      cbn zeta. rewrite bool_decide_eq_true_2 by done. rewrite Hint.
      by destruct acts.
Qed.

Lemma seat_rows_seats id i ps ss wl :
  p_seat <$> seat_rows id i ps ss wl
  = (λ j : nat, Z.of_nat j + 1)
      <$> seq i (length (seat_rows id i ps ss wl)).
Proof.
  revert i ss wl. induction ps as [|p ps IH]; intros i [|s ss] [|w wl];
    simpl; try done.
  f_equal. apply IH.
Qed.

Lemma seat_rows_players id i ps ss wl :
  p_player_id <$> seat_rows id i ps ss wl
  = Py.strip_chars "'" <$> take (length (seat_rows id i ps ss wl)) ps.
Proof.
  revert i ss wl. induction ps as [|p ps IH]; intros i [|s ss] [|w wl];
    simpl; try done.
  f_equal. apply IH.
Qed.

Lemma seat_rows_stacks id i ps ss wl :
  p_starting_stack <$> seat_rows id i ps ss wl
  = take (length (seat_rows id i ps ss wl)) ss.
Proof.
  revert i ss wl. induction ps as [|p ps IH]; intros i [|s ss] [|w wl];
    simpl; try done.
  f_equal. apply IH.
Qed.

Lemma seat_rows_winnings id i ps ss wl :
  p_winnings <$> seat_rows id i ps ss wl
  = to_real <$> take (length (seat_rows id i ps ss wl)) wl.
Proof.
  revert i ss wl. induction ps as [|p ps IH]; intros i [|s ss] [|w wl];
    simpl; try done.
  f_equal. apply IH.
Qed.

(** X19. The seat rows of a normalised record follow the [players] list:
    when [ingest_hand] returns on a record with [starting_stacks], it has
    appended one row per player, in list order, with seat numbers 1, 2,
    ..., the player's name without its surrounding quotes, the stack at
    the same position of [starting_stacks] and the winnings at the same
    position of the winnings list. *)
Theorem seat_rows_follow_players (hand : raw_hand) ss (d d' : db) :
  hand !! "starting_stacks" = Some (VFloats ss) →
  ingest_hand hand d = (d', Ok ()) →
  ∃ ps wl rows,
    hand !! "players" = Some (VStrs ps)
    ∧ winnings_list hand = Ok wl
    ∧ players d' = players d ++ rows
    ∧ p_seat <$> rows = (λ j : nat, Z.of_nat j + 1) <$> seq 0 (length ps)
    ∧ p_player_id <$> rows = Py.strip_chars "'" <$> ps
    ∧ p_starting_stack <$> rows = take (length ps) ss
    ∧ p_winnings <$> rows = to_real <$> take (length ps) wl.
Proof.
  intros Hss Hrun. pose proof Hrun as Hinv.
  apply ingest_hand_inv in Hinv
    as (hand_id & id & row & ps & ss' & wl & acts & arows
        & Hsc & Hps & Hwl & _ & _ & _ & _ & _).
  rewrite (ingest_hand_seats hand hand_id id row ps ss wl) in Hrun by done.
  cbn zeta in Hrun. case_bool_decide as Hlen; [|done].
  exists ps, wl, (seat_rows id 0 ps ss wl).
  assert (players d' = players d ++ seat_rows id 0 ps ss wl) as Hd'.
  { unfold mbind, lift in Hrun.
    destruct (get_strs hand "actions") as [acts'|]; [|done].
    rewrite action_loop in Hrun.
    destruct acts', (py_int hand_id); simplify_eq/=;
      by rewrite players_with_hand. }
  split_and!; [done..| | | |].
  - by rewrite seat_rows_seats, Hlen.
  - by rewrite seat_rows_players, Hlen, firstn_all.
  - by rewrite seat_rows_stacks, Hlen.
  - by rewrite seat_rows_winnings, Hlen.
Qed.

End ingestion_errors.

(** ** A [winnings] list of another length *)

Section winnings_length.
Context `{Conversions}.

Lemma winnings_list_given (hand : raw_hand) ps ws :
  hand !! "players" = Some (VStrs ps) →
  hand !! "winnings" = Some (VFloats ws) →
  winnings_list hand = Ok (PyFloat <$> ws).
Proof.
  intros Hps Hws. unfold winnings_list.
  by rewrite (get_strs_lookup _ _ _ Hps), Hws.
Qed.

(** X28. A [winnings] field is not checked against [players].  On a record
    with the scalar fields, a valid identifier and a stack for every
    player: if [winnings] is shorter than [players], the loop stores the
    hand row and the seat rows of the first [len(winnings)] players and
    then raises [IndexError]; if it is longer, one seat row per player is
    stored with the winnings at the player's position, the surplus is
    never read and no [IndexError] is raised. *)
Theorem winnings_length_mismatch (hand : raw_hand) hand_id id row ps ss ws :
  scalars_present hand hand_id id row →
  hand !! "players" = Some (VStrs ps) →
  hand !! "starting_stacks" = Some (VFloats ss) →
  hand !! "winnings" = Some (VFloats ws) →
  (length ps ≤ length ss)%nat →
  let rows := seat_rows id 0 ps ss (PyFloat <$> ws) in
  ((length ws < length ps)%nat →
     length rows = length ws
     ∧ p_winnings <$> rows = ws
     ∧ ∀ d, ingest_hand hand d
            = (add_players rows (with_hand id row d), Raise IndexError))
  ∧ ((length ps ≤ length ws)%nat →
     length rows = length ps
     ∧ p_winnings <$> rows = take (length ps) ws
     ∧ ∀ d, players (ingest_hand hand d).1 = players d ++ rows
            ∧ (ingest_hand hand d).2 ≠ Raise IndexError).
Proof.
  intros Hsc Hps Hss Hws Hstacks rows.
  pose proof (winnings_list_given hand ps ws Hps Hws) as Hwl.
  assert (p_winnings <$> rows = take (length rows) ws) as Hwin.
  { unfold rows. rewrite seat_rows_winnings, <-fmap_take, <-list_fmap_compose.
    apply list_fmap_id. }
  assert (length rows = (length ps `min` length ws)%nat) as Hlen.
  { unfold rows. rewrite length_seat_rows, length_fmap. lia. }
  split.
  - intros Hshort. split_and!; [lia| |].
    { rewrite Hwin, take_ge; [done|lia]. }
    intros d.
    rewrite (ingest_hand_seats hand hand_id id row ps ss (PyFloat <$> ws))
      by done.
    cbn zeta. fold rows. rewrite bool_decide_eq_false_2; [done|lia].
  - intros Hlong. split_and!; [lia| |].
    { rewrite Hwin. f_equal. lia. }
    intros d.
    rewrite (ingest_hand_seats hand hand_id id row ps ss (PyFloat <$> ws))
      by done.
    cbn zeta. fold rows. rewrite bool_decide_eq_true_2 by lia.
    unfold mbind, lift.
    destruct (get_strs hand "actions") as [acts|e] eqn:Hacts.
    + rewrite action_loop.
      destruct acts, (py_int hand_id); simpl;
        by rewrite players_with_hand.
    + simpl. rewrite players_with_hand. split; [done|].
      unfold get_strs, getitem in Hacts.
      destruct (hand !! "actions") as [[]|]; simpl in Hacts; congruence.
Qed.

End winnings_length.

(** ** More on the query *)

Section query_more.
Context `{Binary64}.

Lemma descending_insert r l : descending l → descending (insert_desc r l).
Proof.
  induction l as [|r' l IH]; simpl.
  { intros _. split; [by constructor|done]. }
  intros [Hr' Hl]. destruct (precedes r r') eqn:Hp; simpl.
  - assert (vpip_hands r' ≤ vpip_hands r) as Hle.
    { unfold precedes in Hp. repeat case_bool_decide; simpl in Hp; lia. }
    split_and!; [|done..]. constructor; [done|].
    eapply Forall_impl; [done|]. intros x Hx. simpl in Hx. lia.
  - assert (vpip_hands r ≤ vpip_hands r') as Hle.
    { unfold precedes in Hp. repeat case_bool_decide; simpl in Hp; lia. }
    split; [|by apply IH].
    rewrite insert_desc_perm. by constructor.
Qed.

Lemma descending_order_by l : descending (order_by_vpip_desc l).
Proof.
  induction l as [|r l IH]; simpl; [done|]. by apply descending_insert.
Qed.

Lemma descending_lookup l i j ri rj :
  descending l → (i ≤ j)%nat → l !! i = Some ri → l !! j = Some rj →
  vpip_hands rj ≤ vpip_hands ri.
Proof.
  revert i j. induction l as [|r l IH]; intros i j Hl Hij Hi Hj; [done|].
  destruct Hl as [Hr Hl]. destruct i as [|i], j as [|j]; simpl in *.
  - simplify_eq. lia.
  - simplify_eq. rewrite Forall_forall in Hr. apply Hr.
    by eapply list_elem_of_lookup_2.
  - lia.
  - apply (IH i j); [done|lia|done..].
Qed.

(** X20. The result is ordered by [vpip_hands], largest first: a row never
    has more voluntary-money hands than a row before it. *)
Theorem query_sorted_desc (d : db) (i j : nat) (ri rj : stat_row) :
  (i ≤ j)%nat → query d !! i = Some ri → query d !! j = Some rj →
  vpip_hands rj ≤ vpip_hands ri.
Proof. apply descending_lookup, descending_order_by. Qed.

Lemma player_id_aggregates rows (keys : list string) :
  player_id <$> ((λ key, aggregate key (group rows key)) <$> keys) = keys.
Proof.
  rewrite <-list_fmap_compose. simpl. apply list_fmap_id.
Qed.

(** X21. One row per player: no player identifier occurs twice in the
    result, and every identifier in it is the identifier of a seat row of
    a hand that has an action row. *)
Theorem query_one_row_per_player (d : db) :
  NoDup (player_id <$> query d)
  ∧ ∀ r, r ∈ query d →
      ∃ s a, s ∈ players d ∧ a ∈ actions d
             ∧ p_hand_id s = a_hand_id a ∧ p_player_id s = player_id r.
Proof.
  split.
  - unfold query. rewrite order_by_perm.
    eapply sublist_NoDup;
      [|apply fmap_sublist, (sublist_filter (λ r, 10 < total_hands r))].
    rewrite player_id_aggregates. apply NoDup_remove_dups.
  - intros r (key & Hkey & -> & _)%elem_of_query. simpl.
    apply elem_of_group_keys in Hkey.
    destruct (group (joined d) key) as [|[s a] g] eqn:Hg; [done|].
    assert ((s, a) ∈ group (joined d) key) as Hin.
    { rewrite Hg. by left. }
    apply elem_of_group in Hin as (Hs & Hk & Ha & Hid). by exists s, a.
Qed.

Lemma length_remove_dups (l : list Z) :
  (length (remove_dups l) ≤ length l)%nat.
Proof.
  induction l as [|x l IH]; simpl; [done|].
  destruct (decide_rel _ _ _); simpl; lia.
Qed.

Lemma length_filter_impl {A} (P Q : A → Prop) `{!∀ x, Decision (P x)}
    `{!∀ x, Decision (Q x)} (l : list A) :
  (∀ x, P x → Q x) → (length (filter P l) ≤ length (filter Q l))%nat.
Proof.
  intros HPQ. induction l as [|x l IH]; [done|].
  rewrite !filter_cons.
  destruct (decide (P x)) as [HP|], (decide (Q x)) as [|HQ]; simpl; try lia.
  destruct HQ. by apply HPQ.
Qed.

Lemma is_pfr_aggressive action :
  is_pfr action = true → is_aggressive action = true.
Proof.
  unfold is_pfr, is_aggressive.
  destruct (Sql.like "% all-in%" action), (Sql.like "% raise%" action),
    (Sql.like "% bet%" action), (Sql.like "% cbr%" action); done.
Qed.

(** X22. Bounds on every row of the result: more than ten hands; the
    voluntary-money hands and the PFR hands are among them; a player has
    at most as many PFR hands as aggressive actions; no count is
    negative. *)
Theorem query_row_bounds (d : db) (r : stat_row) :
  r ∈ query d →
  11 ≤ total_hands r
  ∧ 0 ≤ vpip_hands r ≤ total_hands r
  ∧ 0 ≤ pfr_hands r ≤ total_hands r
  ∧ pfr_hands r ≤ aggressive_actions r
  ∧ 0 ≤ passive_actions r.
Proof.
  intros (key & _ & -> & Hgt)%elem_of_query. simpl in *.
  split_and!; try apply count_distinct_nonneg.
  - lia.
  - apply count_distinct_mono. intros x. apply hand_ids_when_subset.
  - apply count_distinct_mono. intros x. apply hand_ids_when_subset.
  - unfold pfr_hands_of, aggressive_actions_of, Sql.count_distinct,
      Sql.count, hand_ids_when.
    apply Nat2Z.inj_le. etrans; [apply length_remove_dups|].
    rewrite length_fmap. apply length_filter_impl.
    intros [s a] Hp. simpl in *.
    apply Is_true_true. apply Is_true_true in Hp.
    by apply is_pfr_aggressive.
  - unfold passive_actions_of, Sql.count. lia.
Qed.

Lemma total_hands_le_store d key :
  total_hands_of (group (joined d) key)
  ≤ Sql.count_distinct (p_hand_id <$> players d).
Proof.
  apply count_distinct_mono. intros x. unfold hand_ids_when.
  intros ([s a] & -> & [_ Hr]%list_elem_of_filter)%list_elem_of_fmap.
  apply elem_of_group in Hr as (Hs & _). simpl.
  apply list_elem_of_fmap. by exists s.
Qed.

(** X23. Small stores give no row: the result is empty when the seat rows
    cover at most ten distinct hands, and when there is no action row. *)
Theorem query_empty (d : db) :
  (Sql.count_distinct (p_hand_id <$> players d) ≤ 10 → query d = [])
  ∧ (actions d = [] → query d = []).
Proof.
  split.
  - intros Hfew. destruct (query d) as [|r l] eqn:Hq; [done|].
    assert (r ∈ query d) as Hr by (rewrite Hq; by left).
    apply elem_of_query in Hr as (key & _ & -> & Hgt). simpl in Hgt.
    pose proof (total_hands_le_store d key). lia.
  - intros Hacts. unfold query.
    assert (joined d = []) as ->; [|done].
    rewrite joined_inner. unfold hand_actions. rewrite Hacts.
    induction (players d) as [|s l IH]; [done|].
    by rewrite bind_cons, IH.
Qed.

End query_more.

(** ** The [LIKE] patterns of the select list *)

Section like_patterns.

Lemma like_char (c : ascii) (pat s : string) :
  c ≠ "%"%char → c ≠ "_"%char →
  Sql.pattern_compare (String c pat) s
  = match s with
    | "" => false
    | String d s' =>
        Ascii.eqb (Sql.lower c) (Sql.lower d) && Sql.pattern_compare pat s'
    end.
Proof.
  intros Hp Hu.
  destruct c as [[] [] [] [] [] [] [] []]; try done.
Qed.

Lemma like_percent (pat s : string) :
  Sql.pattern_compare (String "%" pat) s
  = Sql.pattern_compare pat s
    || match s with
       | "" => false
       | String _ s' => Sql.pattern_compare (String "%" pat) s'
       end.
Proof. by destruct s. Qed.

Lemma like_any (pat s : string) :
  Sql.pattern_compare (String "%" pat) s = true
  ↔ ∃ pre rest, s = pre +:+ rest ∧ Sql.pattern_compare pat rest = true.
Proof.
  induction s as [|d s IH]; rewrite like_percent.
  - rewrite orb_false_r. split.
    + intros Hl. by exists "", "".
    + intros (pre & rest & Hs & Hl). symmetry in Hs.
      destruct pre; [|done]. by rewrite app_nil_l_string in Hs; subst.
  - rewrite orb_true_iff, IH. split.
    + intros [Hl|(pre & rest & -> & Hl)].
      * by exists "", (String d s).
      * exists (String d pre), rest. by rewrite app_cons_string.
    + intros (pre & rest & Hs & Hl). destruct pre as [|d' pre].
      * left. rewrite app_nil_l_string in Hs. by subst.
      * right. rewrite app_cons_string in Hs. injection Hs as -> ->.
        by exists pre, rest.
Qed.

Lemma like_all (s : string) : Sql.pattern_compare "%" s = true.
Proof. apply like_any. exists s, "". by rewrite app_nil_r_string. Qed.

Lemma like_prefix (w s : string) :
  wildcard_free w →
  Sql.pattern_compare (w +:+ "%") s = true
  ↔ ∃ mid post, s = mid +:+ post
                ∧ Sql.lower <$> chars mid = Sql.lower <$> chars w.
Proof.
  unfold wildcard_free. revert s. induction w as [|c w IH]; intros s Hw.
  - rewrite app_nil_l_string. split.
    + intros _. by exists "", s.
    + intros _. apply like_all.
  - unfold chars in Hw. simpl in Hw.
    apply Forall_cons in Hw as [(Hp & Hu & _) Hw].
    rewrite app_cons_string, like_char by done. destruct s as [|d s].
    + split; [done|]. intros (mid & post & Hs & Hm).
      destruct mid; [done|]. by rewrite app_cons_string in Hs.
    + rewrite andb_true_iff, Ascii.eqb_eq, (IH s Hw). split.
      * intros (Hc & mid & post & -> & Hm). exists (String d mid), post.
        rewrite app_cons_string. split; [done|].
        unfold chars in *. cbn [String.list_ascii_of_string].
        rewrite !fmap_cons. by rewrite Hc, Hm.
      * intros (mid & post & Hs & Hm). destruct mid as [|d' mid]; [done|].
        rewrite app_cons_string in Hs. injection Hs as -> ->.
        unfold chars in *. cbn [String.list_ascii_of_string] in Hm.
        rewrite !fmap_cons in Hm. injection Hm as Hc Hm.
        split; [done|]. by exists mid, post.
Qed.

Lemma c_text_plain (w : string) :
  Forall (λ c, c ≠ "000"%char) (chars w) → Sql.c_text w = w.
Proof.
  unfold chars. induction w as [|c w IH]; [done|]. simpl.
  intros [Hc Hw]%Forall_cons.
  destruct (Ascii.eqb_spec c "000") as [->|_]; [done|]. by rewrite IH.
Qed.

Lemma c_text_pattern (w : string) :
  wildcard_free w →
  Sql.c_text (String "%" (w +:+ "%")) = String "%" (w +:+ "%").
Proof.
  intros Hw. apply c_text_plain. unfold chars in *.
  change (String.list_ascii_of_string (String "%" (w +:+ "%")))
    with ("%"%char :: chars (w +:+ "%")).
  rewrite chars_app. constructor; [done|].
  apply Forall_app. split; [|by repeat constructor].
  eapply Forall_impl; [exact Hw|]. by intros c (_ & _ & Hc).
Qed.

(** [s LIKE '%w%'] for a fragment [w] of ordinary characters is the test
    that [w] occurs, up to ASCII case, in [s] before its first NUL. *)
Lemma like_contains (w s : string) :
  wildcard_free w →
  Sql.like (String "%" (w +:+ "%")) s = true
  ↔ contains_nocase w (Sql.c_text s).
Proof.
  intros Hw. unfold Sql.like. rewrite (c_text_pattern w Hw), like_any.
  unfold contains_nocase. split.
  - intros (pre & rest & -> & (mid & post & -> & Hm)%like_prefix); [|done].
    by exists pre, mid, post.
  - intros (pre & mid & post & -> & Hm). exists pre, (mid +:+ post).
    split; [done|]. apply like_prefix; [done|]. by exists mid, post.
Qed.

Ltac like_patterns :=
  rewrite ?orb_true_iff;
  rewrite <-?(like_contains " cc"), <-?(like_contains " limp"),
    <-?(like_contains " cbr"), <-?(like_contains " all-in"),
    <-?(like_contains " raise"), <-?(like_contains " bet"),
    <-?(like_contains " f")
    by (repeat constructor; done).

(** X24. What the four [LIKE] conditions of the select list test.  SQLite
    reads an action text up to its first NUL; an action counts for a
    column exactly when one of the column's words, with the space before
    it, occurs in the text so read, in any letter case.  So every PFR
    action is an aggressive one, and every voluntary-money action is
    aggressive or passive. *)
Theorem action_classes (action : string) :
  let text := Sql.c_text action in
  (is_vpip action = true
   ↔ contains_nocase " cc" text ∨ contains_nocase " limp" text
     ∨ contains_nocase " cbr" text ∨ contains_nocase " all-in" text)
  ∧ (is_pfr action = true
     ↔ contains_nocase " all-in" text ∨ contains_nocase " raise" text
       ∨ contains_nocase " bet" text)
  ∧ (is_aggressive action = true
     ↔ contains_nocase " cbr" text ∨ contains_nocase " bet" text
       ∨ contains_nocase " raise" text ∨ contains_nocase " all-in" text)
  ∧ (is_passive action = true
     ↔ contains_nocase " f" text ∨ contains_nocase " limp" text
       ∨ contains_nocase " cc" text)
  ∧ (is_pfr action = true → is_aggressive action = true)
  ∧ (is_vpip action = true
     → is_aggressive action = true ∨ is_passive action = true).
Proof.
  cbn zeta. unfold is_vpip, is_pfr, is_aggressive, is_passive.
  split_and!; like_patterns; try tauto.
Qed.

End like_patterns.

(** ** The analysis phase *)

Section analysis_more.
Context `{Binary64} `{Sklearn}.

Lemma isna_derive d r :
  r ∈ query d →
  isna (showdown_win_percent r) = false
  ∧ isna (vpip_percent (derive r)) = false
  ∧ isna (pfr_percent (derive r)) = negb (bool_decide (classified r)).
Proof.
  intros Hr. pose proof Hr as (key & _ & -> & Hgt)%elem_of_query.
  simpl in *. unfold percent_of, int_div, classified. simpl.
  rewrite !(bool_decide_eq_false_2 (total_hands_of _ = 0)) by lia.
  split_and!; [done..|].
  assert (0 ≤ passive_actions_of (group (joined d) key)) as Hp.
  { unfold passive_actions_of, Sql.count. lia. }
  assert (0 ≤ aggressive_actions_of (group (joined d) key)) as Ha.
  { unfold aggressive_actions_of, Sql.count. lia. }
  repeat case_bool_decide; try done; lia.
Qed.

(** X25. [dropna] removes exactly the players without a classified action:
    the rows with no aggressive and no passive action, whose [pfr_percent]
    is 0/0.  No other column of a result row is missing. *)
Theorem dropna_keeps_classified (d : db) :
  dropna (derive <$> query d) = derive <$> filter classified (query d).
Proof.
  unfold dropna.
  assert (∀ l, Forall (λ r, r ∈ query d) l →
    filter (λ m, negb (isna (showdown_win_percent (stats m))
                       || isna (vpip_percent m) || isna (pfr_percent m)))
      (derive <$> l) = derive <$> filter classified l) as Hl.
  { induction l as [|r l IH]; [done|].
    intros [Hr Hl]%Forall_cons. rewrite fmap_cons, !filter_cons, IH by done.
    destruct (isna_derive d r Hr) as (Hs & Hv & Hp).
    change (stats (derive r)) with r. rewrite Hs, Hv, Hp. simpl.
    rewrite negb_involutive.
    destruct (decide (classified r)) as [Hc|Hc].
    - rewrite decide_True; [done|]. by apply bool_decide_pack.
    - rewrite decide_False; [done|]. intros Hc'. by apply bool_decide_unpack in Hc'. }
  apply Hl. by apply Forall_forall.
Qed.

(** X26. Who is assigned a cluster.  When the scaler and the clustering
    return, with one cluster index per row, the analysis returns one entry
    per classified player of the query result, in the order of the result
    and each player once; the label of an entry is the table's text for
    its index, and an index outside 0..3 has no label. *)
Theorem analyse_assigns (run : entropy) (d : db) (X : list (list float))
    (cluster : list Z) :
  fit_transform (features <$> dropna (derive <$> query d)) = Ok X →
  fit_predict 4 (Some 42) run X = Ok cluster →
  length cluster = length (filter classified (query d)) →
  ∃ out,
    analyse run d = Ok out
    ∧ (λ e, e.1.1) <$> out = player_id <$> filter classified (query d)
    ∧ (λ e, e.1.2) <$> out = cluster
    ∧ NoDup ((λ e, e.1.1) <$> out)
    ∧ ∀ p c l, (p, c, l) ∈ out →
        l = cluster_labels c ∧ (l = None ↔ ¬ 0 ≤ c ≤ 3).
Proof.
  intros HX Hc Hlen. unfold analyse, analyse_with.
  rewrite HX. simpl. rewrite Hc. simpl.
  eexists. split; [done|].
  rewrite dropna_keeps_classified.
  set (kept := filter classified (query d)) in *.
  assert ((λ e : string * Z * option string, e.1.1)
            <$> zip_with (λ m c, (player_id (stats m), c, cluster_labels c))
                  (derive <$> kept) cluster
          = player_id <$> kept) as Hplayers.
  { clear -Hlen. revert cluster Hlen.
    induction kept as [|r l IH]; intros [|c k]; try done.
    simpl. intros [= Hlen]. f_equal. by apply IH. }
  split_and!.
  - done.
  - clear -Hlen. revert cluster Hlen.
    induction kept as [|r l IH]; intros [|c k]; try done.
    simpl. intros [= Hlen]. f_equal. by apply IH.
  - rewrite Hplayers. unfold kept.
    eapply sublist_NoDup; [|apply fmap_sublist, sublist_filter].
    unfold query. rewrite order_by_perm.
    eapply sublist_NoDup;
      [|apply fmap_sublist, (sublist_filter (λ r, 10 < total_hands r))].
    rewrite <-list_fmap_compose. simpl. rewrite list_fmap_id.
    apply NoDup_remove_dups.
  - intros p c l Hin. apply elem_of_zip_with in Hin as (m & c' & Heq & _).
    injection Heq as -> -> ->. split; [done|].
    unfold cluster_labels. repeat case_bool_decide; try done; split; try done;
      intros; lia.
Qed.

Lemma rnd_ext (x y : Q) : (x == y)%Q → (rnd x == rnd y)%Q.
Proof.
  intros Hxy. apply Qle_antisym; apply rnd_mono; rewrite Hxy; apply Qle_refl.
Qed.

(** X27. The showdown percentage of a result row is never missing and
    never negative.  Where integers up to [2^53] are exact and a hundred
    times the row's hand count is below that, it is the rounded quotient
    [100 * wins / total_hands] for a number of winning hands among the
    row's hands, and at most 100. *)
Theorem showdown_percent_in_range (d : db) (r : stat_row) :
  r ∈ query d →
  ∃ q, showdown_win_percent r = Fin q
       ∧ (0 <= q)%Q
       ∧ (exact_integers → 100 * total_hands r ≤ 2 ^ 53 →
          ∃ wins, 0 ≤ wins ≤ total_hands r
                  ∧ (q == rnd (inject_Z (100 * wins)
                               / inject_Z (total_hands r)))%Q
                  ∧ (q <= 100)%Q).
Proof.
  intros (key & _ & -> & Hgt)%elem_of_query. simpl in *.
  set (g := group (joined d) key) in *.
  assert (0 ≤ showdown_wins_of g ≤ total_hands_of g) as Hw.
  { split; [apply count_distinct_nonneg|].
    apply count_distinct_mono. intros x. apply hand_ids_when_subset. }
  set (n := showdown_wins_of g) in *. set (t := total_hands_of g) in *.
  unfold percent_of. rewrite bool_decide_eq_false_2 by lia.
  eexists. split; [done|].
  assert (1 <= rnd (inject_Z t))%Q as Ht1.
  { apply rnd_ge_1. apply (inject_Z_le 1 t). lia. }
  assert (0 < rnd (inject_Z t))%Q as Htpos.
  { eapply Qlt_le_trans; [|exact Ht1]. reflexivity. }
  split.
  - apply rnd_nonneg. apply Qle_shift_div_l; [done|].
    rewrite Qmult_0_l. apply rnd_nonneg.
    apply Qmult_le_0_compat; [|done].
    apply rnd_nonneg. apply (inject_Z_le 0 n). lia.
  - intros Hexact Hsmall. exists n. split; [done|].
    assert (rnd (inject_Z n) == inject_Z n)%Q as Hn by (apply Hexact; lia).
    assert (rnd (inject_Z t) == inject_Z t)%Q as Ht by (apply Hexact; lia).
    assert (rnd (rnd (inject_Z n) * 100) == inject_Z (100 * n))%Q as Hn100.
    { rewrite <-(Hexact (100 * n)) by lia. apply rnd_ext.
      rewrite Hn, inject_Z_mult. apply Qmult_comm. }
    assert (rnd (rnd (inject_Z n) * 100) / rnd (inject_Z t)
            == inject_Z (100 * n) / inject_Z t)%Q as Hq.
    { by rewrite Hn100, Ht. }
    split; [by apply rnd_ext|].
    apply rnd_le_100. rewrite Hq.
    assert (0 < inject_Z t)%Q as Htpos'.
    { rewrite <-Ht. done. }
    apply Qle_shift_div_r; [done|].
    change (100 * inject_Z t)%Q with (inject_Z 100 * inject_Z t)%Q.
    rewrite <-(inject_Z_mult 100 t).
    apply inject_Z_le. lia.
Qed.

End analysis_more.

(** ** Hands and their action rows *)

Section counted_hands.
Context `{Conversions} `{Binary64}.

Lemma parsed_record_lists file recs hand :
  parse_poker_file file = Ok recs → hand ∈ recs → lists_nonempty hand.
Proof.
  rewrite parse_poker_file_lines.
  destruct (parse_lines _ file) as [[hd cur]|] eqn:Hp; simpl; [|done].
  intros [= <-] Hin.
  destruct (parse_lines_lists_nonempty _ _ _ Hp) as [Hd Hc].
  { split; [by constructor|by intros k w Hk]. }
  simpl in *. rewrite Forall_forall in Hd.
  destruct (truthy cur); [|by apply Hd].
  apply elem_of_app in Hin as [Hin|Hin%list_elem_of_singleton];
    [by apply Hd|by subst].
Qed.

Lemma seat_rows_elem id i ps ss wl p :
  length (seat_rows id i ps ss wl) = length ps → p ∈ ps →
  ∃ s, s ∈ seat_rows id i ps ss wl
       ∧ p_player_id s = Py.strip_chars "'" p ∧ p_hand_id s = id.
Proof.
  intros Hlen Hp.
  assert (Py.strip_chars "'" p ∈ p_player_id <$> seat_rows id i ps ss wl)
    as (s & Hs & Hin)%list_elem_of_fmap.
  { rewrite seat_rows_players, Hlen, firstn_all.
    apply list_elem_of_fmap. by exists p. }
  exists s. split_and!; [done..|].
  pose proof (seat_rows_hand_id id i ps ss wl) as Hid.
  rewrite Forall_forall in Hid. by apply Hid.
Qed.

Lemma action_rows_same aid (arows : list action_row) :
  Forall (λ r, a_hand_id r = aid) arows →
  arows = action_rows aid (a_action <$> arows).
Proof.
  induction 1 as [|[id a] l Hid _ IH]; [done|].
  unfold action_rows in *. rewrite !fmap_cons. simpl in *.
  by rewrite <-IH, Hid.
Qed.

(** C9 (amended).  Whatever the condition of a
    [COUNT(DISTINCT CASE ...)] column (always true for [total_hands], the
    marker test for [vpip_hands], positive winnings for the showdown
    numerator), every hand it counts for a player has an action row in
    the store.  A hand loaded from a file always has one: the [actions]
    list of a parsed record is never empty, so when the loop body returns
    on the record it has appended at least one action row; and when [int]
    reads the identifier as SQLite does, the hand is among those counted
    for [total_hands] for each of its players.  An [actions] field written
    [[]] is stored as one action row with the empty text, which matches
    none of the markers. *)
Theorem counted_hands_have_action_rows :
  (∀ d key (c : seat_row * action_row → bool) h,
     h ∈ hand_ids_when c (group (joined d) key) →
     ∃ a, a ∈ actions d ∧ a_hand_id a = h)
  ∧ (∀ file recs hand d d',
       parse_poker_file file = Ok recs → hand ∈ recs →
       ingest_hand hand d = (d', Ok ()) →
       ∃ hand_id id aid ps acts,
         hand !! "hand" = Some (VStr hand_id)
         ∧ sql_rowid hand_id = Some id
         ∧ py_int hand_id = Some aid
         ∧ hand !! "players" = Some (VStrs ps)
         ∧ hand !! "actions" = Some (VStrs acts)
         ∧ acts ≠ []
         ∧ actions d' = actions d ++ action_rows aid acts
         ∧ (aid = id →
            ∀ p, p ∈ ps →
              id ∈ hand_ids_when (λ _, true)
                     (group (joined d') (Py.strip_chars "'" p))))
  ∧ (∀ hand, parse_field "actions" "[]" hand
             = Ok (<["actions" := VStrs [""]]> hand))
  ∧ is_vpip "" = false ∧ is_pfr "" = false
  ∧ is_aggressive "" = false ∧ is_passive "" = false.
Proof.
  split_and!; [| |done..].
  - intros d key c h. unfold hand_ids_when.
    intros ([s a] & -> & Hr)%list_elem_of_fmap.
    apply list_elem_of_filter in Hr as [_ Hr].
    apply elem_of_group in Hr as (_ & _ & Ha & Hid). by exists a.
  - intros file recs hand d d' Hparse Hin Hrun.
    pose proof (parsed_record_lists file recs hand Hparse Hin) as Hne.
    apply ingest_hand_inv in Hrun
      as (hand_id & id & row & ps & ss & wl & acts & arows
          & Hsc & Hps & _ & Hacts & Hlen & Harows & Haid & ->).
    assert (acts ≠ []) as Hacts_ne by apply (Hne "actions" _ Hacts).
    destruct arows as [|a0 arows'] eqn:Heq.
    { simpl in Harows. by subst. }
    rewrite <-Heq in *.
    assert (py_int hand_id = Some (a_hand_id a0)) as Hint.
    { rewrite Heq in Haid. by apply Forall_cons in Haid as [? _]. }
    assert (Forall (λ r, a_hand_id r = a_hand_id a0) arows) as Hsame.
    { eapply Forall_impl; [exact Haid|]. intros r Hr. simpl in Hr. congruence. }
    exists hand_id, id, (a_hand_id a0), ps, acts. destruct Hsc.
    split_and!; try done.
    { simpl. rewrite actions_with_hand. f_equal.
      rewrite <-Harows. by apply action_rows_same. }
    intros Hagree p Hp.
    destruct (seat_rows_elem id 0 ps ss wl p Hlen Hp) as (s & Hs & Hname & Hid).
    unfold hand_ids_when. apply list_elem_of_fmap. exists (s, a0).
    split; [done|]. apply list_elem_of_filter. split; [done|].
    apply elem_of_group. simpl. split_and!.
    + rewrite players_with_hand. apply elem_of_app. by right.
    + done.
    + apply elem_of_app. right. rewrite Heq. by left.
    + congruence.
Qed.

End counted_hands.

(** ** Scenarios of the further properties *)

Section more_scenarios.
#[local] Existing Instance decimal_conversions.
#[local] Existing Instance exact_arithmetic.

Lemma decimal_conversions_agree : conversions_agree.
Proof.
  intros s a b Ha Hb. simpl in *. unfold Decimal.read_rowid in Ha.
  rewrite Hb in Ha. simpl in Ha. case_bool_decide; congruence.
Qed.

Lemma parse_missing_separator_witness :
  parse_poker_file (first_file ++ "oops" :: second_file) = Raise ValueError.
Proof.
  eapply (proj2 (parse_missing_separator first_file second_file) "oops").
  - vm_compute. reflexivity.
  - discriminate.
  - reflexivity.
  - apply (bool_decide_unpack _). vm_compute. exact I.
Defined.

Lemma parse_bad_number_witness :
  parse_poker_file (first_file ++ "winnings = [1.5, abc]" :: second_file)
  = Raise ValueError.
Proof.
  eapply (parse_bad_number first_file second_file "winnings = [1.5, abc]"
            _ "winnings " " [1.5, abc]" "abc").
  - vm_compute. reflexivity.
  - reflexivity.
  - reflexivity.
  - right. reflexivity.
  - vm_compute. right. left.
  - reflexivity.
Defined.

Lemma parse_app_delimited_witness :
  parse_poker_file (first_file ++ second_file)
  = (try r1 <- parse_poker_file first_file;
     try r2 <- parse_poker_file second_file;
     Ok (r1 ++ r2))%result.
Proof.
  apply (parse_app_delimited first_file (tail second_file) "[2]").
  reflexivity.
Defined.

Lemma parse_lists_nonempty_witness : Forall lists_nonempty [scenario_record].
Proof.
  apply (parse_lists_nonempty scenario_file). vm_compute. reflexivity.
Defined.

Lemma parse_record_count_witness :
  (length [scenario_record]
   ≤ length (filter (λ line, is_delimiter line = true) scenario_file) + 1)%nat.
Proof.
  apply (parse_record_count scenario_file). vm_compute. reflexivity.
Defined.

Lemma load_keeps_references_witness :
  references_hold (refresh [duplicate_hands; eleven_hands] empty_db).1.
Proof.
  apply (proj2 (proj2 (load_keeps_references
                         [duplicate_hands; eleven_hands] empty_db))).
  apply decimal_conversions_agree.
Defined.

Lemma ingest_fails_before_insert_witness :
  ingest_hand {[ "hand" := VStr "7" ]} eleven_store
  = (eleven_store, Raise (KeyError "variant"))
  ∧ ingest_hand (make_record "x1" ["'P1'"] [Fin 5] None ["'P1 f'"])
      eleven_store
    = (eleven_store, Raise IntegrityError).
Proof.
  split.
  - apply (proj1 (ingest_fails_before_insert _ eleven_store)
             ["hand"] "variant" ["venue"; "table"; "day"; "month"; "year"]).
    + reflexivity.
    + constructor; [by eexists|constructor].
    + reflexivity.
  - apply (proj2 (ingest_fails_before_insert _ eleven_store) "x1").
    + repeat constructor; by eexists.
    + reflexivity.
    + reflexivity.
Defined.

Lemma scalars_only_present : scalars_present scalars_only "7" 7 sample_row.
Proof. by constructor. Qed.

Lemma no_action_field_present :
  scalars_present no_action_field "7" 7 sample_row.
Proof. by constructor. Qed.

Lemma ingest_fails_after_hand_row_witness :
  ingest_hand scalars_only empty_db
  = (with_hand 7 sample_row empty_db, Raise (KeyError "players"))
  ∧ ingest_hand no_action_field empty_db
    = (add_players (seat_rows 7 0 ["'P1'"] [Fin 5] [PyInt 0])
         (with_hand 7 sample_row empty_db),
       Raise (KeyError "actions")).
Proof.
  split.
  - apply (proj1 (ingest_fails_after_hand_row scalars_only "7" 7 sample_row
                    empty_db scalars_only_present)).
    reflexivity.
  - apply (proj1 (proj2 (proj2 (ingest_fails_after_hand_row no_action_field
                    "7" 7 sample_row empty_db no_action_field_present))
                    ["'P1'"] [Fin 5] [PyInt 0]
                    eq_refl eq_refl eq_refl (le_n 1) (le_n 1))).
    reflexivity.
Defined.

Lemma seat_rows_follow_players_witness :
  ∃ ps wl rows,
    three_actions !! "players" = Some (VStrs ps)
    ∧ winnings_list three_actions = Ok wl
    ∧ players (ingest_hand three_actions eleven_store).1
      = players eleven_store ++ rows
    ∧ p_seat <$> rows = (λ j : nat, Z.of_nat j + 1) <$> seq 0 (length ps)
    ∧ p_player_id <$> rows = Py.strip_chars "'" <$> ps
    ∧ p_starting_stack <$> rows = take (length ps) [Fin 100; Fin 100]
    ∧ p_winnings <$> rows = to_real <$> take (length ps) wl.
Proof.
  apply (seat_rows_follow_players three_actions [Fin 100; Fin 100]
           eleven_store).
  - reflexivity.
  - vm_compute. reflexivity.
Defined.

Lemma query_sorted_desc_witness : vpip_hands p3_row ≤ vpip_hands p1_row.
Proof.
  apply (query_sorted_desc mixed_store 1 3 p1_row p3_row).
  - lia.
  - vm_compute. reflexivity.
  - vm_compute. reflexivity.
Defined.

Lemma query_row_bounds_witness :
  11 ≤ total_hands p3_row
  ∧ 0 ≤ vpip_hands p3_row ≤ total_hands p3_row
  ∧ 0 ≤ pfr_hands p3_row ≤ total_hands p3_row
  ∧ pfr_hands p3_row ≤ aggressive_actions p3_row
  ∧ 0 ≤ passive_actions p3_row.
Proof.
  apply (query_row_bounds mixed_store p3_row). vm_compute. do 3 right. left.
Defined.

Lemma query_empty_witness :
  query ten_store = [] ∧ query (add_players (players mixed_store) empty_db) = [].
Proof.
  split.
  - apply (proj1 (query_empty ten_store)). by vm_compute.
  - apply (proj2 (query_empty _)). reflexivity.
Defined.

Lemma analyse_assigns_witness :
  ∃ out,
    @analyse _ (one_cluster 2) 0 mixed_store = Ok out
    ∧ (λ e, e.1.1) <$> out = player_id <$> filter classified (query mixed_store)
    ∧ (λ e, e.1.2) <$> out = [2; 2]
    ∧ NoDup ((λ e, e.1.1) <$> out)
    ∧ ∀ p c l, (p, c, l) ∈ out →
        l = cluster_labels c ∧ (l = None ↔ ¬ 0 ≤ c ≤ 3).
Proof.
  apply (@analyse_assigns _ (one_cluster 2) 0 mixed_store
           (features <$> dropna (derive <$> query mixed_store)) [2; 2]).
  - reflexivity.
  - vm_compute. reflexivity.
  - vm_compute. reflexivity.
Defined.

Lemma exact_arithmetic_integers : exact_integers.
Proof. intros z _. reflexivity. Qed.

Lemma showdown_percent_in_range_witness :
  ∃ q, showdown_win_percent p1_row = Fin q ∧ (0 <= q)%Q ∧ (q <= 100)%Q.
Proof.
  destruct (showdown_percent_in_range mixed_store p1_row)
    as (q & Hq & H0 & Hexact).
  { vm_compute. right. left. }
  destruct (Hexact exact_arithmetic_integers) as (wins & _ & _ & H100).
  { by vm_compute. }
  by exists q.
Defined.

Lemma winnings_length_mismatch_witness :
  ingest_hand short_winnings empty_db
  = (add_players (seat_rows 1 0 ["'P1'"; "'P2'"] [Fin 100; Fin 100]
                    [PyFloat (Fin 50)])
       (with_hand 1 sample_row empty_db), Raise IndexError)
  ∧ p_winnings <$> players (ingest_hand long_winnings empty_db).1
    = [Fin 50; Fin (-50)]
  ∧ (ingest_hand long_winnings empty_db).2 ≠ Raise IndexError.
Proof.
  split.
  - apply (proj1 (winnings_length_mismatch short_winnings "1" 1 sample_row
                    ["'P1'"; "'P2'"] [Fin 100; Fin 100] [Fin 50]
                    (make_record_scalars "1" 1 _ _ _ _ eq_refl)
                    eq_refl eq_refl eq_refl (le_n 2))).
    simpl. lia.
  - destruct (proj2 (winnings_length_mismatch long_winnings "1" 1 sample_row
                       ["'P1'"; "'P2'"] [Fin 100; Fin 100]
                       [Fin 50; Fin (-50); Fin 7]
                       (make_record_scalars "1" 1 _ _ _ _ eq_refl)
                       eq_refl eq_refl eq_refl (le_n 2)))
      as (_ & Hwin & Hrun).
    { simpl. lia. }
    destruct (Hrun empty_db) as [Hrows Hok]. split; [|done].
    rewrite Hrows. exact Hwin.
Defined.

(** Two runs with different entropy, the second on another store. *)
Lemma pipeline_rerun_identical_witness :
  @pipeline _ (one_cluster 2) _ 1 [mixed_hands]
    (@pipeline _ (one_cluster 2) _ 0 [mixed_hands] ten_store).1
  = @pipeline _ (one_cluster 2) _ 0 [mixed_hands] ten_store.
Proof.
  apply (proj1 (@pipeline_rerun_identical _ _ (one_cluster 2)
                  [mixed_hands] ten_store 0 1)).
Defined.

(** The seed matters: with [random_state=None] and estimators whose
    unseeded labels come from the entropy of the run, two runs of the
    script on the same files give different assignments. *)
Lemma unseeded_rerun_differs :
  @pipeline_with _ (one_cluster 2) _ None 0 [mixed_hands] empty_db
  ≠ @pipeline_with _ (one_cluster 2) _ None 1 [mixed_hands] empty_db.
Proof. intros Heq. vm_compute in Heq. discriminate. Qed.

(** C9 (as stated) fails: a twelfth hand whose [actions] field is written
    as the empty list is stored with one action row and is counted: the
    row of P2 has twelve hands instead of eleven. *)
Lemma empty_actions_hand_counted :
  last empty_actions_hand = Some "actions = []"
  ∧ parse_poker_file empty_actions_hand = Ok [empty_actions_record]
  ∧ (∃ r, r ∈ query eleven_store ∧ player_id r = "P2" ∧ total_hands r = 11)
  ∧ (∃ r, r ∈ query twelve_store ∧ player_id r = "P2" ∧ total_hands r = 12)
  ∧ ¬ contributes_to_no_count eleven_hands empty_actions_hand.
Proof.
  split_and!.
  - reflexivity.
  - by vm_compute.
  - eexists. split; [vm_compute; left|]. done.
  - eexists. split; [vm_compute; left|]. done.
  - intros Heq. vm_compute in Heq. discriminate.
Qed.

Lemma counted_hands_have_action_rows_witness :
  actions (ingest_hand empty_actions_record eleven_store).1
  = actions eleven_store ++ action_rows 12 [""]
  ∧ 12 ∈ hand_ids_when (λ _, true)
           (group (joined (ingest_hand empty_actions_record eleven_store).1)
              (Py.strip_chars "'" "'P1'")).
Proof.
  destruct (proj1 (proj2 counted_hands_have_action_rows)
              empty_actions_hand [empty_actions_record] empty_actions_record
              eleven_store (ingest_hand empty_actions_record eleven_store).1)
    as (hand_id & id & aid & ps & acts
        & Hhand & Hid & Haid & Hps & Hacts & _ & Hrows & Hcount).
  { by vm_compute. }
  { left. }
  { by vm_compute. }
  injection Hhand as <-. injection Hps as <-. injection Hacts as <-.
  vm_compute in Hid. injection Hid as <-.
  vm_compute in Haid. injection Haid as <-.
  split; [exact Hrows|]. apply Hcount; [done|left].
Defined.

End more_scenarios.
